(** * Student records: reducer, validation, derivation and view pipeline

    A shallow embedding of [src/Component/Navbar.jsx] (the [Student]
    component that follows the [Navbar] component in that file): the
    [reducer], [calculatePercentage], [getDivision], the validation of
    [handleSubmit] and the derived [filteredSortedData]; then the handlers
    the rendered page attaches to its inputs and buttons, and the
    dependency of the effect that saves the list.

    JavaScript data is modelled as the code has it:
    - a string is a [string] of code units below 256 (the Latin-1 part of
      UTF-16);
    - a number is an IEEE-754 binary64 value: [NaN], an infinity, or a
      finite value carried as an exact rational; every arithmetic operation
      computes the exact result and rounds it to the nearest binary64 value,
      ties to even ([round64]). The two zeros are identified: the program
      never divides by a variable and never inspects the sign of a zero;
    - an array is a list of slots, a slot being empty (a hole), [undefined]
      or a value, so that an indexed write past the end extends the array
      the way JavaScript does;
    - a call that raises a [TypeError] returns [Throws]. *)

From Stdlib Require Import ZArith QArith Qround Qabs Lia Lqa List String Ascii Bool.
From Stdlib Require Import Sorted Permutation OrderedTypeEx.
From Stdlib Require Import Floats Uint63.
Import ListNotations.

Set Implicit Arguments.
Local Open Scope Z_scope.

(** ** Strings *)

Module JSString.

Definition code (c : ascii) : Z := Z.of_nat (nat_of_ascii c).

Definition chr (z : Z) : ascii := ascii_of_nat (Z.to_nat z).

(** WhiteSpace and LineTerminator code units below 256: TAB, LF, VT, FF, CR,
    SP and NBSP. *)
Definition isWhiteSpace (c : ascii) : bool :=
  let n := code c in
  ((9 <=? n) && (n <=? 13)) || (n =? 32) || (n =? 160).

Fixpoint trimStart (s : string) : string :=
  match s with
  | String c s' => if isWhiteSpace c then trimStart s' else s
  | EmptyString => EmptyString
  end.

(** [trimEnd] drops the trailing white space: a character is kept when it is
    not white space or when something is kept after it. *)
Fixpoint trimEnd (s : string) : string :=
  match s with
  | String c s' =>
      match trimEnd s' with
      | EmptyString => if isWhiteSpace c then EmptyString else String c EmptyString
      | t => String c t
      end
  | EmptyString => EmptyString
  end.

(** [String.prototype.trim] *)
Definition trim (s : string) : string := trimEnd (trimStart s).

(** Lower case of one code unit: A-Z, and the Latin-1 capitals
    U+00C0..U+00DE except the multiplication sign U+00D7. *)
Definition lowerChar (c : ascii) : ascii :=
  let n := code c in
  if ((65 <=? n) && (n <=? 90))
     || ((192 <=? n) && (n <=? 222) && negb (n =? 215))
  then chr (n + 32) else c.

(** [String.prototype.toLowerCase] *)
Fixpoint toLowerCase (s : string) : string :=
  match s with
  | String c s' => String (lowerChar c) (toLowerCase s')
  | EmptyString => EmptyString
  end.

(** [String.prototype.includes]: [t] occurs in [s] at some position. *)
Fixpoint includes (s t : string) : bool :=
  String.prefix t s ||
  match s with
  | String _ s' => includes s' t
  | EmptyString => false
  end.

Definition isLetterOrSpace (c : ascii) : bool :=
  let n := code c in
  ((65 <=? n) && (n <=? 90)) || ((97 <=? n) && (n <=? 122)) || (n =? 32).

Fixpoint allChars (p : ascii -> bool) (s : string) : bool :=
  match s with
  | String c s' => p c && allChars p s'
  | EmptyString => true
  end.

(** [/^[A-Za-z ]+$/.test(s)]: one or more characters, each a letter or a
    space. *)
Definition nameRegex_test (s : string) : bool :=
  match s with
  | EmptyString => false
  | _ => allChars isLetterOrSpace s
  end.

Definition isEmpty (s : string) : bool :=
  match s with EmptyString => true | _ => false end.

End JSString.

(** ** Numbers *)

Module JSNumber.

Import JSString.

Inductive number : Type :=
  | NaN
  | Inf (negative : bool)
  | Fin (q : Q).

(** *** Rounding to binary64 *)

(** [2 ^ e] for an exponent of either sign. *)
Definition pow2 (e : Z) : Q :=
  if 0 <=? e then inject_Z (2 ^ e) else 1 # Z.to_pos (2 ^ (- e)).

(** The integer [k] with [2 ^ k <= n / d < 2 ^ (k + 1)]. *)
Definition ilog2 (n d : positive) : Z :=
  let k := Z.log2 (Zpos n) - Z.log2 (Zpos d) in
  if Zpos n * 2 ^ Z.max 0 (- k) <? Zpos d * 2 ^ Z.max 0 k then k - 1 else k.

(** The integer nearest to [N / D], the even one of two. *)
Definition roundHalfEven (N D : Z) : Z :=
  let q := N / D in
  match 2 * (N mod D) ?= D with
  | Lt => q
  | Gt => q + 1
  | Eq => if Z.even q then q else q + 1
  end.

(** The exponent of the binary64 grid around [n / d]: 53 significant bits,
    and never below the subnormal exponent -1074. *)
Definition gridExponent (n d : positive) : Z :=
  Z.max (ilog2 n d - 52) (-1074).

(** The mantissa: [n / d] rounded to a multiple of [2 ^ gridExponent]. *)
Definition gridMantissa (n d : positive) : Z :=
  let e := gridExponent n d in
  roundHalfEven (Zpos n * 2 ^ Z.max 0 (- e)) (Zpos d * 2 ^ Z.max 0 e).

Definition roundMagnitude (negative : bool) (n d : positive) : number :=
  let e := gridExponent n d in
  let m := gridMantissa n d in
  if 2 ^ 1024 <=? m * 2 ^ e then Inf negative
  else
    let v := Qred (inject_Z m * pow2 e) in
    Fin (if negative then Qopp v else v).

(** The binary64 value nearest to the rational [q]. *)
Definition round64 (q : Q) : number :=
  match Qnum q with
  | Z0 => Fin 0
  | Zpos n => roundMagnitude false n (Qden q)
  | Zneg n => roundMagnitude true n (Qden q)
  end.

(** *** Arithmetic and comparison *)

Definition isZero (q : Q) : bool := Qeq_bool q 0.

Definition isNegative (q : Q) : bool := Qnum q <? 0.

Definition neg (x : number) : number :=
  match x with
  | NaN => NaN
  | Inf s => Inf (negb s)
  | Fin q => Fin (Qopp q)
  end.

(** [x + y] *)
Definition add (x y : number) : number :=
  match x, y with
  | NaN, _ | _, NaN => NaN
  | Inf s, Inf t => if Bool.eqb s t then Inf s else NaN
  | Inf s, Fin _ | Fin _, Inf s => Inf s
  | Fin a, Fin b => round64 (a + b)
  end.

(** [x - y] *)
Definition sub (x y : number) : number := add x (neg y).

(** [x * y] *)
Definition mul (x y : number) : number :=
  match x, y with
  | NaN, _ | _, NaN => NaN
  | Inf s, Inf t => Inf (xorb s t)
  | Inf s, Fin b | Fin b, Inf s =>
      if isZero b then NaN else Inf (xorb s (isNegative b))
  | Fin a, Fin b => round64 (a * b)
  end.

(** [x / y] *)
Definition div (x y : number) : number :=
  match x, y with
  | NaN, _ | _, NaN => NaN
  | Inf _, Inf _ => NaN
  | Inf s, Fin b => Inf (xorb s (isNegative b))
  | Fin _, Inf _ => Fin 0
  | Fin a, Fin b =>
      if isZero b then
        if isZero a then NaN else Inf (isNegative a)
      else round64 (a / b)
  end.

(** [x < y]; false when either is [NaN]. *)
Definition lt (x y : number) : bool :=
  match x, y with
  | NaN, _ | _, NaN => false
  | Inf s, Inf t => s && negb t
  | Inf s, Fin _ => s
  | Fin _, Inf t => negb t
  | Fin a, Fin b => negb (Qle_bool b a)
  end.

(** [x <= y]; false when either is [NaN]. *)
Definition le (x y : number) : bool :=
  match x, y with
  | NaN, _ | _, NaN => false
  | Inf s, Inf t => s || negb t
  | Inf s, Fin _ => s
  | Fin _, Inf t => negb t
  | Fin a, Fin b => Qle_bool a b
  end.

(** [x > y] and [x >= y] *)
Definition gt (x y : number) : bool := lt y x.
Definition ge (x y : number) : bool := le y x.

Definition isNaN (x : number) : bool :=
  match x with NaN => true | _ => false end.

Definition ofZ (z : Z) : number := round64 (inject_Z z).

(** *** Decimal digits *)

Definition digitChar (d : Z) : ascii := chr (48 + d).

Fixpoint digitsFuel (fuel : nat) (n : Z) (acc : string) : string :=
  match fuel with
  | O => acc
  | S fuel' =>
      let acc' := String (digitChar (n mod 10)) acc in
      if n / 10 =? 0 then acc' else digitsFuel fuel' (n / 10) acc'
  end.

(** The decimal digits of [n >= 0], most significant first; ["0"] for 0. *)
Definition decimalDigits (n : Z) : string :=
  digitsFuel (S (Z.to_nat (Z.log2 n))) n EmptyString.

Fixpoint zeros (k : nat) : string :=
  match k with
  | O => EmptyString
  | S k' => String "0" (zeros k')
  end.

Fixpoint takeStr (k : nat) (s : string) : string :=
  match k, s with
  | S k', String c s' => String c (takeStr k' s')
  | _, _ => EmptyString
  end.

Fixpoint dropStr (k : nat) (s : string) : string :=
  match k, s with
  | S k', String _ s' => dropStr k' s'
  | _, _ => s
  end.

(** *** [Number::toString] (radix 10) *)

(** The integer [p] with [10 ^ p <= n / d < 10 ^ (p + 1)]: an estimate from
    the binary logarithm, which is at most one too small, then corrected. *)
Definition ilog10 (n d : positive) : Z :=
  let p := (ilog2 n d * 1233) / 4096 in
  let above (p : Z) :=
    Zpos d * 10 ^ Z.max 0 p <=? Zpos n * 10 ^ Z.max 0 (- p) in
  if above (p + 1) then p + 1 else if above p then p else p - 1.

Definition pow10 (e : Z) : Q :=
  if 0 <=? e then inject_Z (10 ^ e) else 1 # Z.to_pos (10 ^ (- e)).

Definition sameNumber (x y : number) : bool :=
  match x, y with
  | NaN, NaN => true
  | Inf s, Inf t => Bool.eqb s t
  | Fin a, Fin b => Qeq_bool a b
  | _, _ => false
  end.

Fixpoint stripZeros (rev_digits : list ascii) : list ascii :=
  match rev_digits with
  | "0"%char :: r => stripZeros r
  | _ => rev_digits
  end.

Definition stripTrailingZeros (s : string) : string :=
  string_of_list_ascii
    (rev (stripZeros (rev (list_ascii_of_string s)))).

(** The shortest digit string [s] of [k] digits ([k] tried from 1 up) and
    the position [n] of the decimal point such that [s * 10 ^ (n - k)]
    rounds to [q]; of two candidates with [k] digits the nearer to [q],
    the even one on a tie. [q > 0] is a binary64 value and [p] its decimal
    exponent. *)
Fixpoint shortestDigits (fuel : nat) (k : Z) (q : Q) (p : Z) : string * Z :=
  let scale := pow10 (p + 1 - k) in
  let lo := Qfloor (q / scale) in
  let hi := lo + 1 in
  let ok (s : Z) := sameNumber (round64 (inject_Z s * scale)) (Fin q) in
  let out (s : Z) :=
    let ds := decimalDigits s in
    (stripTrailingZeros ds, p + 1 + (Z.of_nat (String.length ds) - k)) in
  let dlo := (q - inject_Z lo * scale)%Q in
  let dhi := (inject_Z hi * scale - q)%Q in
  let pick :=
    match ok lo, ok hi with
    | true, true =>
        match Qcompare dlo dhi with
        | Lt => Some lo
        | Gt => Some hi
        | Eq => Some (if Z.even lo then lo else hi)
        end
    | true, false => Some lo
    | false, true => Some hi
    | false, false => None
    end in
  match pick, fuel with
  | Some s, _ => out s
  | None, S fuel' => shortestDigits fuel' (k + 1) q p
  | None, O => out lo
  end.

Definition exponentString (e : Z) : string :=
  String "e"
    (String (if e <? 0 then "-"%char else "+"%char)
       (decimalDigits (Z.abs e))).

(** The digits [ds] with the decimal point after the first [n] of them, as
    [Number::toString] lays them out. *)
Definition layoutDigits (ds : string) (n : Z) : string :=
  let k := Z.of_nat (String.length ds) in
  if (k <=? n) && (n <=? 21) then
    (ds ++ zeros (Z.to_nat (n - k)))%string
  else if (0 <? n) && (n <=? 21) then
    (takeStr (Z.to_nat n) ds ++ String "." (dropStr (Z.to_nat n) ds))%string
  else if (-6 <? n) && (n <=? 0) then
    String "0" (String "." (zeros (Z.to_nat (- n)) ++ ds)%string)
  else if k =? 1 then
    (ds ++ exponentString (n - 1))%string
  else
    (takeStr 1 ds ++ String "." (dropStr 1 ds) ++ exponentString (n - 1))%string.

(** [String(x)] for a number [x]. *)
Definition toString (x : number) : string :=
  match x with
  | NaN => "NaN"
  | Inf false => "Infinity"
  | Inf true => "-Infinity"
  | Fin q =>
      match Qnum q with
      | Z0 => "0"
      | Zpos n =>
          let '(ds, e) := shortestDigits 17 1 q (ilog10 n (Qden q)) in
          layoutDigits ds e
      | Zneg n =>
          let '(ds, e) := shortestDigits 17 1 (Qopp q) (ilog10 n (Qden q)) in
          String "-" (layoutDigits ds e)
      end
  end.

(** *** [Number.prototype.toFixed] *)

(** The integer [n] for which [n / 10 ^ f] is nearest to [q >= 0], the
    larger one of two. *)
Definition nearestScaled (f : nat) (q : Q) : Z :=
  Qfloor (q * inject_Z (10 ^ Z.of_nat f) + (1 # 2)).

(** The digits of [n] with a decimal point before the last [f] of them,
    padded with zeros to [f + 1] digits. *)
Definition fixedDigits (f : nat) (n : Z) : string :=
  let m := decimalDigits n in
  let k := String.length m in
  let m := if (k <=? f)%nat then (zeros (f + 1 - k)%nat ++ m)%string else m in
  let k := String.length m in
  match f with
  | O => m
  | _ => (takeStr (k - f)%nat m ++ String "." (dropStr (k - f)%nat m))%string
  end.

(** [x.toFixed(f)] *)
Definition toFixed (f : nat) (x : number) : string :=
  match x with
  | Fin q =>
      let s := (if isNegative q then "-" else EmptyString)%string in
      let a := Qabs q in
      if Qle_bool (inject_Z (10 ^ 21)) a then toString x
      else (s ++ fixedDigits f (nearestScaled f a))%string
  | _ => toString x
  end.

(** *** [Number(s)] for a string [s] (StringToNumber) *)

Definition digitValue (radix : Z) (c : ascii) : option Z :=
  let n := code c in
  let v :=
    if (48 <=? n) && (n <=? 57) then n - 48
    else if (97 <=? n) && (n <=? 102) then n - 87
    else if (65 <=? n) && (n <=? 70) then n - 55
    else radix in
  if v <? radix then Some v else None.

(** The longest run of digits at the front of [s]: its value continuing
    [acc], its length, and the rest of [s]. *)
Fixpoint readDigits (radix : Z) (s : string) (acc : Z) (len : Z)
  : Z * Z * string :=
  match s with
  | String c s' =>
      match digitValue radix c with
      | Some v => readDigits radix s' (acc * radix + v) (len + 1)
      | None => (acc, len, s)
      end
  | EmptyString => (acc, len, s)
  end.

(** [0x], [0o] and [0b] literals: at least one digit and nothing after. *)
Definition parseRadix (radix : Z) (s : string) : number :=
  match readDigits radix s 0 0 with
  | (v, len, EmptyString) => if 0 <? len then ofZ v else NaN
  | _ => NaN
  end.

(** ExponentPart, optional: [e] or [E], an optional sign, digits. Returns
    the exponent, or [None] when [s] is not empty and not an exponent. *)
Definition parseExponent (s : string) : option Z :=
  match s with
  | EmptyString => Some 0
  | String c s' =>
      if (code c =? 101) || (code c =? 69) then
        let '(sign, s'') :=
          match s' with
          | String "+" t => (1, t)
          | String "-" t => (-1, t)
          | _ => (1, s')
          end in
        match readDigits 10 s'' 0 0 with
        | (v, len, EmptyString) => if 0 <? len then Some (sign * v) else None
        | _ => None
        end
      else None
  end.

(** StrUnsignedDecimalLiteral other than [Infinity]: digits, an optional
    point and digits, an optional exponent, with a digit before or after
    the point. The value is [m * 10 ^ (e - fraction digits)], exactly. *)
Definition parseUnsignedDecimal (s : string) : option Q :=
  let '(ip, ilen, s1) := readDigits 10 s 0 0 in
  let '(m, flen, s2) :=
    match s1 with
    | String "." t => readDigits 10 t ip 0
    | _ => (ip, 0, s1)
    end in
  if (0 <? ilen) || (0 <? flen) then
    match parseExponent s2 with
    | Some e => Some (inject_Z m * pow10 (e - flen))%Q
    | None => None
    end
  else None.

Definition parseDecimal (s : string) : number :=
  let '(negative, u) :=
    match s with
    | String "+" t => (false, t)
    | String "-" t => (true, t)
    | _ => (false, s)
    end in
  if String.eqb u "Infinity" then Inf negative
  else
    match parseUnsignedDecimal u with
    | Some q => round64 (if negative then Qopp q else q)
    | None => NaN
    end.

(** [Number(s)]: white space trimmed; the empty string is 0; a literal that
    does not parse is [NaN]. *)
Definition ofString (s : string) : number :=
  match trim s with
  | EmptyString => Fin 0
  | String "0" (String c t) as u =>
      if (code c =? 120) || (code c =? 88) then parseRadix 16 t
      else if (code c =? 111) || (code c =? 79) then parseRadix 8 t
      else if (code c =? 98) || (code c =? 66) then parseRadix 2 t
      else parseDecimal u
  | u => parseDecimal u
  end.

End JSNumber.

(** ** Arrays *)

Module JSArray.

(** One index of an array: nothing stored (a hole), [undefined] stored, or
    a value stored. *)
Inductive slot (A : Type) : Type :=
  | Hole
  | Undefined
  | Elem (a : A).

Arguments Hole {A}.
Arguments Undefined {A}.
Arguments Elem {A} a.

Definition array (A : Type) : Type := list (slot A).

(** What a callback or a read sees in a slot that is not a hole: [None] is
    [undefined]. *)
Definition slotValue {A} (s : slot A) : option A :=
  match s with
  | Elem a => Some a
  | _ => None
  end.

Definition isHole {A} (s : slot A) : bool :=
  match s with Hole => true | _ => false end.

(** The array literal [[a, b, ...]]. *)
Definition ofList {A} (l : list A) : array A := List.map Elem l.

(** [arr[i]]: [None] is [undefined], also out of range. *)
Definition get {A} (arr : array A) (i : Z) : option A :=
  if i <? 0 then None
  else
    match nth_error arr (Z.to_nat i) with
    | Some s => slotValue s
    | None => None
    end.

(** [[...arr]]: the copy reads every index, so a hole becomes [undefined]. *)
Definition spread {A} (arr : array A) : array A :=
  List.map (fun s => match s with Hole => Undefined | _ => s end) arr.

Fixpoint replaceAt {A} (arr : array A) (i : nat) (v : A) : array A :=
  match arr, i with
  | [], _ => []
  | _ :: r, O => Elem v :: r
  | s :: r, S i' => s :: replaceAt r i' v
  end.

(** [arr[i] = v] for an integer [i]: inside the array the slot is
    overwritten; past the end the array grows, the indices in between
    staying holes; a negative [i], or one that is not an array index
    (2^32 - 1 and above), names an ordinary property and leaves the
    elements as they are. No array is longer than [maxLength]. *)
Definition maxLength : Z := 4294967295.

Definition set {A} (arr : array A) (i : Z) (v : A) : array A :=
  if (i <? 0) || (maxLength <=? i) then arr
  else if i <? Z.of_nat (List.length arr) then replaceAt arr (Z.to_nat i) v
  else arr ++ repeat Hole (Z.to_nat i - List.length arr) ++ [Elem v].

(** [arr[k] = v] for a key [k] that is [null] or an integer: [null] names
    the property ["null"]. *)
Definition setKey {A} (arr : array A) (k : option Z) (v : A) : array A :=
  match k with
  | Some i => set arr i v
  | None => arr
  end.

(** [arr.filter((x, i) => p x i)]: holes are skipped, the result has none. *)
Fixpoint filterFrom {A} (p : option A -> Z -> bool) (i : Z) (arr : array A)
  : array A :=
  match arr with
  | [] => []
  | Hole :: r => filterFrom p (i + 1) r
  | s :: r =>
      if p (slotValue s) i then s :: filterFrom p (i + 1) r
      else filterFrom p (i + 1) r
  end.

Definition filter {A} (p : option A -> Z -> bool) (arr : array A) : array A :=
  filterFrom p 0 arr.

(** [arr.some(p)]: holes are skipped. *)
Fixpoint some {A} (p : option A -> bool) (arr : array A) : bool :=
  match arr with
  | [] => false
  | Hole :: r => some p r
  | s :: r => p (slotValue s) || some p r
  end.

(** [arr.map((x, i) => f x i)]: a hole stays a hole. *)
Fixpoint mapFrom {A B} (f : option A -> Z -> B) (i : Z) (arr : array A)
  : array B :=
  match arr with
  | [] => []
  | Hole :: r => Hole :: mapFrom f (i + 1) r
  | s :: r => Elem (f (slotValue s) i) :: mapFrom f (i + 1) r
  end.

Definition map {A B} (f : option A -> Z -> B) (arr : array A) : array B :=
  mapFrom f 0 arr.

(** [arr.reduce(f, init)]: holes are skipped. *)
Fixpoint reduce {A B} (f : B -> option A -> B) (init : B) (arr : array A) : B :=
  match arr with
  | [] => init
  | Hole :: r => reduce f init r
  | s :: r => reduce f (f init (slotValue s)) r
  end.

(** Every index holds a value: no hole and no [undefined]. *)
Definition dense {A} (arr : array A) : Prop :=
  exists l, arr = ofList l.

End JSArray.

(** ** The application state *)

Import JSString JSNumber JSArray.

(** A call either returns or raises a [TypeError]. *)
Inductive result (A : Type) : Type :=
  | Returns (a : A)
  | Throws.

Arguments Returns {A} a.
Arguments Throws {A}.

(** The record [handleSubmit] builds (its [studentData]). *)
Module Student.
Record t : Type := mk {
  name : string;
  age : string;
  marks : array number;
  percentage : string;
  division : string
}.
End Student.

Record State : Type := mkState {
  name : string;
  age : string;
  marks : array string;
  students : array Student.t;
  editIndex : option Z;          (* [None] is [null] *)
  searchTerm : string;
  sortKey : string
}.

Definition emptyMarks : array string :=
  ofList [EmptyString; EmptyString; EmptyString; EmptyString; EmptyString].

Definition initialState : State :=
  {| name := EmptyString; age := EmptyString; marks := emptyMarks;
     students := []; editIndex := None; searchTerm := EmptyString;
     sortKey := "name" |}.

(** The fields [SET_FIELD] is dispatched with: the text inputs, the search
    box and the sort selector, each with the input's string. The transition
    table states them as the precondition of [SET_FIELD]. *)
Inductive Field : Type := F_name | F_age | F_searchTerm | F_sortKey.

(** An action: its [type] and what travels with it. An index is the integer
    the table row or the mark input carries; [OTHER] is any type the
    reducer has no case for. *)
Inductive Action : Type :=
  | SET_FIELD (field : Field) (value : string)
  | SET_MARK (index : Z) (value : string)
  | SET_STUDENTS (payload : array Student.t)
  | ADD_STUDENT (payload : Student.t)
  | UPDATE_STUDENT (payload : Student.t)
  | DELETE_STUDENT (index : Z)
  | EDIT_STUDENT (index : Z)
  | OTHER (type : string).

(** [{ ...state, [field]: value }] *)
Definition setField (state : State) (field : Field) (value : string) : State :=
  match field with
  | F_name =>
      mkState value (age state) (marks state) (students state)
        (editIndex state) (searchTerm state) (sortKey state)
  | F_age =>
      mkState (name state) value (marks state) (students state)
        (editIndex state) (searchTerm state) (sortKey state)
  | F_searchTerm =>
      mkState (name state) (age state) (marks state) (students state)
        (editIndex state) value (sortKey state)
  | F_sortKey =>
      mkState (name state) (age state) (marks state) (students state)
        (editIndex state) (searchTerm state) value
  end.

(** [String(m)] as [student.marks.map(String)] calls it. *)
Definition markToString (m : option number) : string :=
  match m with
  | Some x => toString x
  | None => "undefined"
  end.

Definition reducer (state : State) (action : Action) : result State :=
  match action with
  | SET_FIELD field value =>
      Returns (setField state field value)
  | SET_MARK index value =>
      let newMarks := spread (marks state) in
      let newMarks := set newMarks index value in
      Returns (mkState (name state) (age state) newMarks (students state)
                 (editIndex state) (searchTerm state) (sortKey state))
  | SET_STUDENTS payload =>
      Returns (mkState (name state) (age state) (marks state) payload
                 (editIndex state) (searchTerm state) (sortKey state))
  | ADD_STUDENT payload =>
      Returns (mkState EmptyString EmptyString emptyMarks
                 (spread (students state) ++ [Elem payload])
                 None (searchTerm state) (sortKey state))
  | UPDATE_STUDENT payload =>
      let updated := spread (students state) in
      let updated := setKey updated (editIndex state) payload in
      Returns (mkState EmptyString EmptyString emptyMarks updated
                 None (searchTerm state) (sortKey state))
  | DELETE_STUDENT index =>
      Returns (mkState (name state) (age state) (marks state)
                 (filter (fun _ i => negb (i =? index)) (students state))
                 (editIndex state) (searchTerm state) (sortKey state))
  | EDIT_STUDENT index =>
      match get (students state) index with
      | None => Throws      (* [student.name] of [undefined] *)
      | Some student =>
          Returns (mkState (Student.name student) (Student.age student)
                     (map (fun m _ => markToString m) (Student.marks student))
                     (students state) (Some index)
                     (searchTerm state) (sortKey state))
      end
  | OTHER _ =>
      Returns state
  end.

(** ** Derivation *)

(** A value that reaches a numeric operator: a number, or a string the
    operator converts with [Number]. *)
Inductive value : Type :=
  | VNumber (n : number)
  | VString (s : string).

Definition ToNumber (v : value) : number :=
  match v with
  | VNumber n => n
  | VString s => ofString s
  end.

(** [undefined] where a number is expected converts to [NaN]. *)
Definition orNaN (m : option number) : number :=
  match m with
  | Some x => x
  | None => NaN
  end.

Definition calculatePercentage (marks : array number) : string :=
  let total := Fin 500 in
  let obtained := reduce (fun sum m => add sum (orNaN m)) (Fin 0) marks in
  toFixed 2 (mul (div obtained total) (Fin 100)).

Definition getDivision (percent : value) : string :=
  if ge (ToNumber percent) (Fin 60) then "First Division"
  else if ge (ToNumber percent) (Fin 50) then "Second Division"
  else if ge (ToNumber percent) (Fin 35) then "Pass"
  else "Fail".

(** ** Form submission *)

Inductive Effect : Type :=
  | PreventDefault
  | ToastError (message : string)
  | ToastSuccess (message : string)
  | Dispatch (action : Action).

(** [m === ''] *)
Definition isEmptyMark (m : option string) : bool :=
  match m with
  | Some s => isEmpty s
  | None => false
  end.

(** [Number(m)] as [marks.map(Number)] calls it. *)
Definition markToNumber (m : option string) : number :=
  match m with
  | Some s => ofString s
  | None => NaN
  end.

(** [isNaN(m) || m < 0 || m > 100] *)
Definition markOutOfRange (m : option number) : bool :=
  isNaN (orNaN m) || lt (orNaN m) (Fin 0) || gt (orNaN m) (Fin 100).

(** What [handleSubmit] does, in order, for the state it closes over. *)
Definition handleSubmit (state : State) : list Effect :=
  PreventDefault ::
  if isEmpty (name state) || isEmpty (age state)
     || some isEmptyMark (marks state)
  then [ToastError "Please fill in all fields."]
  else if negb (nameRegex_test (trim (name state)))
  then [ToastError "Name should contain only letters and spaces."]
  else
    let markNums := map (fun m _ => markToNumber m) (marks state) in
    if some markOutOfRange markNums
    then [ToastError "Marks should be numbers between 0 and 100."]
    else if isNaN (ofString (age state))
            || le (ofString (age state)) (Fin 0)
            || gt (ofString (age state)) (Fin 100)
    then [ToastError "Enter a valid age between 1 and 100."]
    else
      let percentage := calculatePercentage markNums in
      let division := getDivision (VString percentage) in
      let studentData :=
        Student.mk (trim (name state)) (age state) markNums
          percentage division in
      match editIndex state with
      | Some _ =>
          [Dispatch (UPDATE_STUDENT studentData);
           ToastSuccess "Student updated!"]
      | None =>
          [Dispatch (ADD_STUDENT studentData);
           ToastSuccess "Student added!"]
      end.

(** The state after the effects: only a dispatch reaches the reducer. *)
Fixpoint runEffects (state : State) (effects : list Effect) : result State :=
  match effects with
  | [] => Returns state
  | Dispatch action :: rest =>
      match reducer state action with
      | Returns state' => runEffects state' rest
      | Throws => Throws
      end
  | _ :: rest => runEffects state rest
  end.

(** Submitting the form in [state]. *)
Definition submit (state : State) : result State :=
  runEffects state (handleSubmit state).

(** ** The view pipeline *)

(** What the host provides: [String.prototype.localeCompare], whose order
    is the locale's collation. *)
Class Host : Type := {
  localeCompare : string -> string -> number
}.

(** A displayed row: [{ ...student, originalIndex }]. *)
Record Row : Type := mkRow {
  student : Student.t;
  originalIndex : Z
}.

(** [.map((student, originalIndex) => ({ ...student, originalIndex }))]:
    the spread of [undefined] adds no field, so the row has no name. *)
Definition annotate (students : array Student.t)
  : array (option Student.t * Z) :=
  map (fun student originalIndex => (student, originalIndex)) students.

(** [.filter(student => student.name.toLowerCase()
      .includes(searchTerm.toLowerCase()))]:
    a row without a name raises on [student.name.toLowerCase]. *)
Fixpoint filterRows (searchTerm : string)
  (rows : array (option Student.t * Z)) : result (list Row) :=
  match rows with
  | [] => Returns []
  | Hole :: rest => filterRows searchTerm rest
  | Undefined :: _ => Throws
  | Elem (None, _) :: _ => Throws
  | Elem (Some s, i) :: rest =>
      let keep :=
        includes (toLowerCase (Student.name s)) (toLowerCase searchTerm) in
      match filterRows searchTerm rest with
      | Returns kept => Returns (if keep then mkRow s i :: kept else kept)
      | Throws => Throws
      end
  end.

(** [divisionOrder[d]]; [None] is [undefined]. *)
Definition divisionOrder (d : string) : option number :=
  if String.eqb d "First Division" then Some (Fin 1)
  else if String.eqb d "Second Division" then Some (Fin 2)
  else if String.eqb d "Pass" then Some (Fin 3)
  else if String.eqb d "Fail" then Some (Fin 4)
  else None.

Section View.

Context {host : Host}.

(** The comparator handed to [.sort]. *)
Definition compareRows (sortKey : string) (a b : Row) : number :=
  if String.eqb sortKey "name" then
    localeCompare (Student.name (student a)) (Student.name (student b))
  else if String.eqb sortKey "division" then
    sub (orNaN (divisionOrder (Student.division (student a))))
        (orNaN (divisionOrder (Student.division (student b))))
  else
    sub (ofString (Student.percentage (student b)))
        (ofString (Student.percentage (student a))).

(** [Array.prototype.sort] is stable; [x] goes before the first element it
    does not compare greater than. A comparator result of [NaN] counts as
    0. *)
Fixpoint insertSorted (cmp : Row -> Row -> number) (x : Row) (l : list Row)
  : list Row :=
  match l with
  | [] => [x]
  | y :: l' =>
      if lt (Fin 0) (cmp x y) then y :: insertSorted cmp x l' else x :: l
  end.

Definition sort (cmp : Row -> Row -> number) (l : list Row) : list Row :=
  fold_right (insertSorted cmp) [] l.

Definition filteredSortedData (state : State) : result (list Row) :=
  match filterRows (searchTerm state) (annotate (students state)) with
  | Returns rows => Returns (sort (compareRows (sortKey state)) rows)
  | Throws => Throws
  end.

End View.

(** ** The reducer on objects

    The same reducer with the state as JavaScript holds it: an object whose
    [marks] and [students] fields are references to arrays. A spread
    allocates a new object or array; an indexed assignment writes into the
    array it names. Student records are never written by the reducer and
    stay values. *)

Module Heap.

Definition loc : Type := nat.

(** The fields of a state object. *)
Record StateFields : Type := mkFields {
  name : string;
  age : string;
  marks : loc;
  students : loc;
  editIndex : option Z;
  searchTerm : string;
  sortKey : string
}.

Inductive object : Type :=
  | StateObject (fields : StateFields)
  | StringArray (elements : array string)
  | StudentArray (elements : array Student.t).

Definition heap : Type := list object.

(** An action as dispatched: the payload of [SET_STUDENTS] is a reference
    to the array that [JSON.parse] built. *)
Inductive Action : Type :=
  | SET_FIELD (field : Field) (value : string)
  | SET_MARK (index : Z) (value : string)
  | SET_STUDENTS (payload : loc)
  | ADD_STUDENT (payload : Student.t)
  | UPDATE_STUDENT (payload : Student.t)
  | DELETE_STUDENT (index : Z)
  | EDIT_STUDENT (index : Z)
  | OTHER (type : string).

(** Computations that read and extend the heap and may throw. *)
Definition M (A : Type) : Type := heap -> result (A * heap).

Definition ret {A} (a : A) : M A := fun h => Returns (a, h).

Definition bind {A B} (m : M A) (k : A -> M B) : M B :=
  fun h =>
    match m h with
    | Returns (a, h') => k a h'
    | Throws => Throws
    end.

Definition throw {A} : M A := fun _ => Throws.

Local Notation "x <- m ;; k" := (bind m (fun x => k))
  (at level 61, m at next level, right associativity).

(** A new object, at the next free location. *)
Definition new (o : object) : M loc :=
  fun h => Returns (List.length h, h ++ [o]).

Fixpoint update (h : heap) (l : loc) (o : object) : heap :=
  match h, l with
  | [], _ => []
  | _ :: r, O => o :: r
  | x :: r, S l' => x :: update r l' o
  end.

(** Overwrite the object at [l]. *)
Definition put (l : loc) (o : object) : M unit :=
  fun h => Returns (tt, update h l o).

Definition getState (l : loc) : M StateFields :=
  fun h =>
    match nth_error h l with
    | Some (StateObject s) => Returns (s, h)
    | _ => Throws
    end.

Definition getStrings (l : loc) : M (array string) :=
  fun h =>
    match nth_error h l with
    | Some (StringArray a) => Returns (a, h)
    | _ => Throws
    end.

Definition getStudents (l : loc) : M (array Student.t) :=
  fun h =>
    match nth_error h l with
    | Some (StudentArray a) => Returns (a, h)
    | _ => Throws
    end.

(** [{ ...state, [field]: value }] *)
Definition setField (s : StateFields) (field : Field) (value : string)
  : StateFields :=
  match field with
  | F_name =>
      mkFields value (age s) (marks s) (students s) (editIndex s)
        (searchTerm s) (sortKey s)
  | F_age =>
      mkFields (name s) value (marks s) (students s) (editIndex s)
        (searchTerm s) (sortKey s)
  | F_searchTerm =>
      mkFields (name s) (age s) (marks s) (students s) (editIndex s)
        value (sortKey s)
  | F_sortKey =>
      mkFields (name s) (age s) (marks s) (students s) (editIndex s)
        (searchTerm s) value
  end.

Definition reducer (state : loc) (action : Action) : M loc :=
  match action with
  | SET_FIELD field value =>
      s <- getState state;;
      new (StateObject (setField s field value))
  | SET_MARK index value =>
      s <- getState state;;
      old <- getStrings (marks s);;
      newMarks <- new (StringArray (spread old));;
      copy <- getStrings newMarks;;
      _ <- put newMarks (StringArray (set copy index value));;
      new (StateObject
             (mkFields (name s) (age s) newMarks (students s) (editIndex s)
                (searchTerm s) (sortKey s)))
  | SET_STUDENTS payload =>
      s <- getState state;;
      new (StateObject
             (mkFields (name s) (age s) (marks s) payload (editIndex s)
                (searchTerm s) (sortKey s)))
  | ADD_STUDENT payload =>
      s <- getState state;;
      old <- getStudents (students s);;
      added <- new (StudentArray (spread old ++ [Elem payload]));;
      blank <- new (StringArray emptyMarks);;
      new (StateObject
             (mkFields EmptyString EmptyString blank added None
                (searchTerm s) (sortKey s)))
  | UPDATE_STUDENT payload =>
      s <- getState state;;
      old <- getStudents (students s);;
      updated <- new (StudentArray (spread old));;
      copy <- getStudents updated;;
      _ <- put updated (StudentArray (setKey copy (editIndex s) payload));;
      blank <- new (StringArray emptyMarks);;
      new (StateObject
             (mkFields EmptyString EmptyString blank updated None
                (searchTerm s) (sortKey s)))
  | DELETE_STUDENT index =>
      s <- getState state;;
      old <- getStudents (students s);;
      kept <- new (StudentArray
                     (filter (fun _ i => negb (i =? index)) old));;
      new (StateObject
             (mkFields (name s) (age s) (marks s) kept (editIndex s)
                (searchTerm s) (sortKey s)))
  | EDIT_STUDENT index =>
      s <- getState state;;
      old <- getStudents (students s);;
      match get old index with
      | None => throw
      | Some student =>
          strings <- new (StringArray
                            (map (fun m _ => markToString m)
                               (Student.marks student)));;
          new (StateObject
                 (mkFields (Student.name student) (Student.age student)
                    strings (students s) (Some index)
                    (searchTerm s) (sortKey s)))
      end
  | OTHER _ =>
      ret state
  end.

End Heap.

(** The state an object stands for. *)
Definition stateAt (h : Heap.heap) (l : Heap.loc) : option State :=
  match nth_error h l with
  | Some (Heap.StateObject s) =>
      match nth_error h (Heap.marks s), nth_error h (Heap.students s) with
      | Some (Heap.StringArray ms), Some (Heap.StudentArray ss) =>
          Some (mkState (Heap.name s) (Heap.age s) ms ss (Heap.editIndex s)
                  (Heap.searchTerm s) (Heap.sortKey s))
      | _, _ => None
      end
  | _ => None
  end.

(** The action a dispatched action stands for. *)
Definition actionAt (h : Heap.heap) (a : Heap.Action) : option Action :=
  match a with
  | Heap.SET_FIELD f v => Some (SET_FIELD f v)
  | Heap.SET_MARK i v => Some (SET_MARK i v)
  | Heap.SET_STUDENTS p =>
      match nth_error h p with
      | Some (Heap.StudentArray ss) => Some (SET_STUDENTS ss)
      | _ => None
      end
  | Heap.ADD_STUDENT r => Some (ADD_STUDENT r)
  | Heap.UPDATE_STUDENT r => Some (UPDATE_STUDENT r)
  | Heap.DELETE_STUDENT i => Some (DELETE_STUDENT i)
  | Heap.EDIT_STUDENT i => Some (EDIT_STUDENT i)
  | Heap.OTHER t => Some (OTHER t)
  end.

(** ** The rendered page

    What the returned JSX wires to [dispatch]: the inputs of the form, the
    search box, the sort selector and the two buttons of every table row.
    Nothing is rendered when [filteredSortedData] raises. *)

(** The indices [state.marks.map((mark, i) => <input ... />)] renders an
    input for: [map] passes over holes. *)
Fixpoint indicesFrom {A} (i : Z) (arr : array A) : list Z :=
  match arr with
  | [] => []
  | Hole :: r => indicesFrom (i + 1) r
  | _ :: r => i :: indicesFrom (i + 1) r
  end.

(** The values of the [<option>]s of the sort selector. *)
Definition sortOptions : list string :=
  ["name"; "division"; "percentage"]%string.

(** What the user can do on the page. A mark input, an option and a table
    row are named by their position among the rendered ones. *)
Inductive Event : Type :=
  | ChangeName (value : string)
  | ChangeAge (value : string)
  | ChangeMark (input : nat) (value : string)
  | ChangeSearch (value : string)
  | ChangeSort (option : nat)
  | SubmitForm
  | ClickEdit (row : nat)
  | ClickDelete (row : nat).

Section Page.

Context {host : Host}.

(** The handler the page has attached for an event, run in the state the
    page was rendered from; [None] when the page has no such element. *)
Definition handler (state : State) (e : Event) : option (list Effect) :=
  match filteredSortedData state with
  | Throws => None
  | Returns rows =>
      match e with
      | ChangeName value => Some [Dispatch (SET_FIELD F_name value)]
      | ChangeAge value => Some [Dispatch (SET_FIELD F_age value)]
      | ChangeMark input value =>
          match nth_error (indicesFrom 0 (marks state)) input with
          | Some i => Some [Dispatch (SET_MARK i value)]
          | None => None
          end
      | ChangeSearch value => Some [Dispatch (SET_FIELD F_searchTerm value)]
      | ChangeSort option =>
          match nth_error sortOptions option with
          | Some value => Some [Dispatch (SET_FIELD F_sortKey value)]
          | None => None
          end
      | SubmitForm => Some (handleSubmit state)
      | ClickEdit k =>
          match nth_error rows k with
          | Some row => Some [Dispatch (EDIT_STUDENT (originalIndex row))]
          | None => None
          end
      | ClickDelete k =>
          match nth_error rows k with
          | Some row =>
              Some [Dispatch (DELETE_STUDENT (originalIndex row));
                    ToastError "Student deleted!"]
          | None => None
          end
      end
  end.

(** The state after an event. *)
Definition fire (state : State) (e : Event) : option (result State) :=
  match handler state e with
  | Some effects => Some (runEffects state effects)
  | None => None
  end.

(** The state after a sequence of events, each on the page rendered from
    the state the one before left. *)
Fixpoint run (state : State) (events : list Event) : option (result State) :=
  match events with
  | [] => Some (Returns state)
  | e :: rest =>
      match fire state e with
      | Some (Returns state') => run state' rest
      | other => other
      end
  end.

End Page.

(** ** Saving the list

    [useEffect(() => { localStorage.setItem("students",
    JSON.stringify(state.students)) }, [state.students])]: the effect runs
    after a render whose [state.students] is another reference than at the
    render before. *)

(** The reference a state object holds in its [students] field. *)
Definition studentsRef (h : Heap.heap) (state : Heap.loc) : option Heap.loc :=
  match nth_error h state with
  | Some (Heap.StateObject s) => Some (Heap.students s)
  | _ => None
  end.

(** Whether the effect runs when the state object [new] follows [old]. *)
Definition savesAfter (h : Heap.heap) (old new : Heap.loc) : bool :=
  match studentsRef h old, studentsRef h new with
  | Some a, Some b => negb (Nat.eqb a b)
  | _, _ => false
  end.

(** ** The view pipeline on objects

    [state.students.map(...).filter(...).sort(...)] with the arrays as
    JavaScript holds them: [map] and [filter] each allocate a new array,
    and [sort] orders in place the array it is called on, the one [filter]
    returned, and returns that array. The heap is the reducer's, with the
    arrays of rows besides the objects of the state. *)

Module HeapView.

Definition loc : Type := nat.

Inductive object : Type :=
  | Of (o : Heap.object)
  | AnnotatedArray (elements : array (option Student.t * Z))
  | RowArray (elements : list Row).

Definition heap : Type := list object.

Definition M (A : Type) : Type := heap -> result (A * heap).

Definition ret {A} (a : A) : M A := fun h => Returns (a, h).

Definition bind {A B} (m : M A) (k : A -> M B) : M B :=
  fun h =>
    match m h with
    | Returns (a, h') => k a h'
    | Throws => Throws
    end.

Definition throw {A} : M A := fun _ => Throws.

Local Notation "x <- m ;; k" := (bind m (fun x => k))
  (at level 61, m at next level, right associativity).

Definition new (o : object) : M loc :=
  fun h => Returns (List.length h, h ++ [o]).

Fixpoint update (h : heap) (l : loc) (o : object) : heap :=
  match h, l with
  | [], _ => []
  | _ :: r, O => o :: r
  | x :: r, S l' => x :: update r l' o
  end.

Definition put (l : loc) (o : object) : M unit :=
  fun h => Returns (tt, update h l o).

Definition getState (l : loc) : M Heap.StateFields :=
  fun h =>
    match nth_error h l with
    | Some (Of (Heap.StateObject s)) => Returns (s, h)
    | _ => Throws
    end.

Definition getStudents (l : loc) : M (array Student.t) :=
  fun h =>
    match nth_error h l with
    | Some (Of (Heap.StudentArray a)) => Returns (a, h)
    | _ => Throws
    end.

Definition getAnnotated (l : loc) : M (array (option Student.t * Z)) :=
  fun h =>
    match nth_error h l with
    | Some (AnnotatedArray a) => Returns (a, h)
    | _ => Throws
    end.

Definition getRows (l : loc) : M (list Row) :=
  fun h =>
    match nth_error h l with
    | Some (RowArray a) => Returns (a, h)
    | _ => Throws
    end.

Section View.

Context {host : Host}.

Definition filteredSortedData (state : loc) : M loc :=
  s <- getState state;;
  students <- getStudents (Heap.students s);;
  annotated <- new (AnnotatedArray (annotate students));;
  rows <- getAnnotated annotated;;
  match filterRows (Heap.searchTerm s) rows with
  | Throws => throw
  | Returns kept =>
      filtered <- new (RowArray kept);;
      unsorted <- getRows filtered;;
      _ <- put filtered
             (RowArray (sort (compareRows (Heap.sortKey s)) unsorted));;
      ret filtered
  end.

End View.

End HeapView.

(** The heap of the reducer as the view pipeline finds it. *)
Definition viewHeap (h : Heap.heap) : HeapView.heap :=
  List.map HeapView.Of h.

(** * Vocabulary of the properties

    The definitions the statements below are written with: sample data and
    the rules, orders and bounds the specification names. *)

(** ** Lists and sample data *)

(** The list without its element at position [n]. *)
Definition removeAt {A} (n : nat) (l : list A) : list A :=
  firstn n l ++ skipn (S n) l.

(** The list with [v] at position [n]. *)
Definition replaceNth {A} (n : nat) (v : A) (l : list A) : list A :=
  firstn n l ++ v :: skipn (S n) l.

Module Samples.

Definition record (name : string) (marks : list Z) (percentage division : string)
  : Student.t :=
  Student.mk name "20" (ofList (List.map (fun z => Fin (inject_Z z)) marks))
    percentage division.

Definition studentA : Student.t :=
  record "A" [80; 70; 90; 60; 100] "80.00" "First Division".

Definition studentB : Student.t :=
  record "B" [40; 40; 40; 40; 40] "40.00" "Pass".

Definition studentC : Student.t :=
  record "C" [50; 50; 50; 50; 50] "50.00" "Second Division".

Definition studentD : Student.t :=
  record "D" [10; 20; 30; 40; 50] "30.00" "Fail".

Definition studentE : Student.t :=
  record "E" [60; 60; 60; 60; 60] "60.00" "First Division".

Definition five : list Student.t :=
  [studentA; studentB; studentC; studentD; studentE].

Definition withStudents (l : list Student.t) : State :=
  mkState EmptyString EmptyString emptyMarks (ofList l) None EmptyString "name".

End Samples.

(** ** Division and validation *)

(** The threshold table, range by range. *)
Definition divisionTable (p : number) : string :=
  if ge p (Fin 60) then "First Division"
  else if ge p (Fin 50) && lt p (Fin 60) then "Second Division"
  else if ge p (Fin 35) && lt p (Fin 50) then "Pass"
  else "Fail".

(** The values an array's callbacks see: the slots that are not holes, in
    order. *)
Fixpoint stored {A} (arr : array A) : list (option A) :=
  match arr with
  | [] => []
  | Hole :: r => stored r
  | s :: r => slotValue s :: stored r
  end.

(** The four rules, as the validation contract words them. *)
Module Rules.

Definition isLetter (c : ascii) : Prop :=
  65 <= code c <= 90 \/ 97 <= code c <= 122.

Definition lettersAndSpaces (s : string) : Prop :=
  s <> EmptyString /\
  forall c, In c (list_ascii_of_string s) -> isLetter c \/ c = " "%char.

Definition outside0to100 (x : number) : Prop :=
  x = NaN \/ lt x (Fin 0) = true \/ gt x (Fin 100) = true.

Definition missingFields (st : State) : Prop :=
  name st = EmptyString \/ age st = EmptyString
  \/ In (Some EmptyString) (stored (marks st)).

Definition invalidName (st : State) : Prop :=
  ~ lettersAndSpaces (trim (name st)).

Definition invalidMarks (st : State) : Prop :=
  exists m, In m (stored (marks st)) /\ outside0to100 (markToNumber m).

Definition invalidAge (st : State) : Prop :=
  ofString (age st) = NaN
  \/ le (ofString (age st)) (Fin 0) = true
  \/ gt (ofString (age st)) (Fin 100) = true.

Definition violated (st : State) : Prop :=
  missingFields st \/ invalidName st \/ invalidMarks st \/ invalidAge st.

End Rules.

Definition checkMissing (st : State) : bool :=
  isEmpty (name st) || isEmpty (age st) || some isEmptyMark (marks st).

Definition checkName (st : State) : bool :=
  negb (nameRegex_test (trim (name st))).

Definition checkMarks (st : State) : bool :=
  some markOutOfRange (map (fun m _ => markToNumber m) (marks st)).

Definition checkAge (st : State) : bool :=
  isNaN (ofString (age st)) || le (ofString (age st)) (Fin 0)
  || gt (ofString (age st)) (Fin 100).

(** The record a valid draft is turned into. *)
Definition studentOf (st : State) : Student.t :=
  let markNums := map (fun m _ => markToNumber m) (marks st) in
  let percentage := calculatePercentage markNums in
  Student.mk (trim (name st)) (age st) markNums percentage
    (getDivision (VString percentage)).

Definition draftState (name age : string) (marks : list string) : State :=
  mkState name age (ofList marks) [] None EmptyString "name".

(** ** Percentage *)

(** Half the distance between neighbouring binary64 values up to 1024:
    [2 ^ -43]. *)
Definition eps : Q := 1 # 8796093022208.

(** The sum of the marks, as [calculatePercentage] accumulates it. *)
Definition obtainedFrom (acc : number) (marks : array number) : number :=
  reduce (fun sum m => add sum (orNaN m)) acc marks.

Definition exactSum (qs : list Q) : Q := fold_right Qplus 0%Q qs.

Definition inRange (q : Q) : Prop := (0 <= q)%Q /\ (q <= 100)%Q.

Definition isDigit (c : ascii) : bool := (48 <=? code c) && (code c <=? 57).

Fixpoint digitsValue (acc : Z) (s : string) : Z :=
  match s with
  | EmptyString => acc
  | String c s' => digitsValue (acc * 10 + (code c - 48)) s'
  end.

(** The number [calculatePercentage] formats. *)
Definition percentValue (marks : array number) : number :=
  mul (div (obtainedFrom (Fin 0) marks) (Fin 500)) (Fin 100).

(** [2 ^ -36] *)
Definition percentError : Q := 1 # 68719476736.

Definition sumZ (zs : list Z) : Z := fold_right Z.add 0 zs.

(** ** Display *)

(** Each record with its index in the list, the first index being [k]. *)
Fixpoint rowsFrom (k : Z) (l : list Student.t) : list Row :=
  match l with
  | [] => []
  | s :: r => mkRow s k :: rowsFrom (k + 1) r
  end.

(** The search: the name, in lower case, includes the term, in lower
    case. *)
Definition matches (term : string) (row : Row) : bool :=
  includes (toLowerCase (Student.name (student row))) (toLowerCase term).

(** [x] has to come after [y]: the comparator's result is positive. *)
Definition after (cmp : Row -> Row -> number) (x y : Row) : bool :=
  lt (Fin 0) (cmp x y).

(** [a] is displayed before [b]: its key is not greater, and on equal keys
    its index in the list is smaller. *)
Definition before (keyLe : Row -> Row -> Prop) (a b : Row) : Prop :=
  keyLe a b /\ (keyLe b a -> originalIndex a < originalIndex b).

Definition onGrid (q : Q) : Prop :=
  exists m : Z, (q == inject_Z m * pow2 (-1074))%Q.

Definition gridNumber (x : number) : Prop :=
  match x with
  | Fin q => onGrid q
  | _ => True
  end.

Definition divisionLabels : list string :=
  ["First Division"; "Second Division"; "Pass"; "Fail"]%string.

(** The fixed rank of a division label. *)
Definition divisionRank (d : string) : Z :=
  if String.eqb d "First Division" then 1
  else if String.eqb d "Second Division" then 2
  else if String.eqb d "Pass" then 3
  else if String.eqb d "Fail" then 4
  else 0.

(** A record of the data model: its division is one of the four labels and
    its percentage is a numeric string. *)
Definition wellFormed (s : Student.t) : Prop :=
  In (Student.division s) divisionLabels
  /\ isNaN (ofString (Student.percentage s)) = false.

(** What the specification of [localeCompare] asks of a collation: a
    consistent comparator. *)
Class LawfulHost (host : Host) : Prop := {
  collation_total :
    forall a b,
      lt (Fin 0) (localeCompare a b) = false
      \/ lt (Fin 0) (localeCompare b a) = false;
  collation_trans :
    forall a b c,
      lt (Fin 0) (localeCompare a b) = false ->
      lt (Fin 0) (localeCompare b c) = false ->
      lt (Fin 0) (localeCompare a c) = false
}.

(** [a] is not after [b] under the sort key: by name in the collation's
    order, by division in rank order, otherwise by percentage, the larger
    first. *)
Definition displayOrder {host : Host} (key : string) (a b : Row) : Prop :=
  if String.eqb key "name" then
    lt (Fin 0)
      (localeCompare (Student.name (student a)) (Student.name (student b)))
    = false
  else if String.eqb key "division" then
    divisionRank (Student.division (student a))
    <= divisionRank (Student.division (student b))
  else
    le (ofString (Student.percentage (student b)))
       (ofString (Student.percentage (student a))) = true.

Definition wellFormedRow (row : Row) : Prop := wellFormed (student row).

(** A host whose collation is the order of the code units. *)
Definition codeUnitCompare (a b : string) : number :=
  match String.compare a b with
  | Lt => Fin (-1)
  | Eq => Fin 0
  | Gt => Fin 1
  end.

#[export] Instance codeUnitHost : Host := {| localeCompare := codeUnitCompare |}.

Definition stateAB (term key : string) : State :=
  mkState EmptyString EmptyString emptyMarks
    (ofList [Samples.studentA; Samples.studentB]) None term key.

(** ** Transitions *)

(** What the reducer relies on: the index of [EDIT_STUDENT] names a
    record of the list. The transition table words it as an index in
    [0, len), which is the same on a list with a record at every index. *)
Definition precondition (st : State) (a : Action) : Prop :=
  match a with
  | EDIT_STUDENT index =>
      exists student, get (students st) index = Some student
  | _ => True
  end.

Definition recognized (a : Action) : bool :=
  match a with
  | OTHER _ => false
  | _ => true
  end.

Definition sampleHeap : Heap.heap :=
  [Heap.StringArray emptyMarks;
   Heap.StudentArray (ofList Samples.five);
   Heap.StateObject
     (Heap.mkFields EmptyString EmptyString 0%nat 1%nat None EmptyString "name")].

(** ** The kernel's binary64 numbers *)

(** The number a primitive float stands for. *)
Definition ofFloat (f : float) : number :=
  match Prim2SF f with
  | S754_zero _ => Fin 0
  | S754_infinity s => Inf s
  | S754_nan => NaN
  | S754_finite s m e =>
      let v := Qred (inject_Z (Zpos m) * pow2 e) in
      Fin (if s then Qopp v else v)
  end.

(** The primitive float of a natural number below [2 ^ 63]. *)
Definition floatOfZ (z : Z) : float := PrimFloat.of_uint63 (Uint63.of_Z z).

(** The pairs [(a, b)] with [0 <= a < n] and [1 <= b <= n]. *)
Definition quotientGrid (n : nat) : list (Z * Z) :=
  list_prod (List.map Z.of_nat (seq 0 n)) (List.map Z.of_nat (seq 1 n)).

(** The students [A, B, C] after [EDIT_STUDENT(2)], two [DELETE_STUDENT(0)]
    and [UPDATE_STUDENT(E)]: every action within the transition table's
    precondition. *)
Definition afterStaleEdit : result State :=
  match reducer (Samples.withStudents
                   [Samples.studentA; Samples.studentB; Samples.studentC])
          (EDIT_STUDENT 2) with
  | Returns s1 =>
      match reducer s1 (DELETE_STUDENT 0) with
      | Returns s2 =>
          match reducer s2 (DELETE_STUDENT 0) with
          | Returns s3 => reducer s3 (UPDATE_STUDENT Samples.studentE)
          | Throws => Throws
          end
      | Throws => Throws
      end
  | Throws => Throws
  end.

(** ** Records the form builds *)

(** What the four checks of [handleSubmit] leave through: an age that reads
    as a number in (0, 100] and five marks that are numbers in [0, 100]. *)
Definition validAge (age : string) : Prop :=
  exists a, ofString age = Fin a /\ (0 < a)%Q /\ (a <= 100)%Q.

Definition validMarks (marks : array number) : Prop :=
  exists qs, marks = ofList (List.map Fin qs)
             /\ List.length qs = 5%nat /\ Forall inRange qs.

(** A record as [handleSubmit] builds it from a draft with five marks. *)
Definition validRecord (s : Student.t) : Prop :=
  nameRegex_test (Student.name s) = true
  /\ trim (Student.name s) = Student.name s
  /\ validAge (Student.age s)
  /\ validMarks (Student.marks s)
  /\ Student.percentage s = calculatePercentage (Student.marks s)
  /\ Student.division s = getDivision (VString (Student.percentage s)).

(** The state of a page that started without saved records: a draft of
    five marks, records built by the form, a sort key of the selector. *)
Definition consistent (st : State) : Prop :=
  (exists ms, marks st = ofList ms /\ List.length ms = 5%nat)
  /\ (forall s, In (Elem s) (students st) -> validRecord s)
  /\ In (sortKey st) sortOptions.

(** The division of a percentage given in hundredths of a percent. *)
Definition divisionOfHundredths (n : Z) : string :=
  if 6000 <=? n then "First Division"
  else if 5000 <=? n then "Second Division"
  else if 3500 <=? n then "Pass"
  else "Fail".

(** ** Fields and scripts *)

(** The field of the state that [SET_FIELD] names. *)
Definition fieldOf (field : Field) (st : State) : string :=
  match field with
  | F_name => name st
  | F_age => age st
  | F_searchTerm => searchTerm st
  | F_sortKey => sortKey st
  end.

(** Equality of two numbers as values of the model. *)
Definition sameValue (x y : number) : bool :=
  match x, y with
  | NaN, NaN => true
  | Inf s, Inf t => Bool.eqb s t
  | Fin a, Fin b => (Qnum a =? Qnum b) && Pos.eqb (Qden a) (Qden b)
  | _, _ => false
  end.

(** The whole numbers from 0 to 100. *)
Definition wholeMarks : list Z := List.map Z.of_nat (seq 0 101).

(** Filling the form in and submitting it. *)
Definition typeStudent (name age m1 m2 m3 m4 m5 : string) : list Event :=
  [ChangeName name; ChangeAge age;
   ChangeMark 0 m1; ChangeMark 1 m2; ChangeMark 2 m3; ChangeMark 3 m4;
   ChangeMark 4 m5; SubmitForm].

(** Three students are added; the third is opened for editing; the other
    two are deleted; the edit is saved; a fourth student is added. *)
Definition staleEditScript : list Event :=
  typeStudent "A" "20" "80" "70" "90" "60" "100"
  ++ typeStudent "B" "21" "40" "40" "40" "40" "40"
  ++ typeStudent "C" "22" "50" "50" "50" "50" "50"
  ++ [ClickEdit 2; ClickDelete 0; ClickDelete 0; SubmitForm]
  ++ typeStudent "D" "23" "10" "20" "30" "40" "50".

(** ** Lists with holes *)

(** The slots that are not holes, in order. *)
Definition compact {A} (arr : array A) : array A :=
  List.filter (fun s => negb (isHole s)) arr.

(** Each record of a list that may have holes with its index in the list,
    the first index being [k]. *)
Fixpoint rowsOf (k : Z) (arr : array Student.t) : list Row :=
  match arr with
  | [] => []
  | Elem s :: r => mkRow s k :: rowsOf (k + 1) r
  | _ :: r => rowsOf (k + 1) r
  end.

(** A heap that holds the state [st] in the object at 2. *)
Definition heapOf (st : State) : Heap.heap :=
  [Heap.StringArray (marks st);
   Heap.StudentArray (students st);
   Heap.StateObject
     (Heap.mkFields (name st) (age st) 0%nat 1%nat (editIndex st)
        (searchTerm st) (sortKey st))].

(** The students A to E, with a search term and a sort key. *)
Definition stateFive (term key : string) : State :=
  mkState EmptyString EmptyString emptyMarks (ofList Samples.five) None
    term key.

(** The students A, B and C are added; C is opened for editing; A and B
    are deleted; the edit is saved. *)
Definition holeScript : list Event :=
  typeStudent "A" "20" "80" "70" "90" "60" "100"
  ++ typeStudent "B" "20" "40" "40" "40" "40" "40"
  ++ typeStudent "C" "20" "50" "50" "50" "50" "50"
  ++ [ClickEdit 2; ClickDelete 0; ClickDelete 0; SubmitForm].

(** After [holeScript], a fourth student is added. *)
Definition undefinedScript : list Event :=
  holeScript ++ typeStudent "D" "20" "10" "20" "30" "40" "50".

(** * Properties *)

(** ** Arrays that hold a value at every index *)

Section DenseArrays.

Context {A : Type}.

Lemma length_ofList (l : list A) : List.length (ofList l) = List.length l.
Proof. apply length_map. Qed.

Lemma spread_ofList (l : list A) : spread (ofList l) = ofList l.
Proof.
  unfold spread, ofList. rewrite List.map_map. reflexivity.
Qed.

Lemma length_spread (arr : array A) :
  List.length (spread arr) = List.length arr.
Proof. apply length_map. Qed.

Lemma get_ofList (l : list A) (i : Z) :
  0 <= i -> get (ofList l) i = nth_error l (Z.to_nat i).
Proof.
  intros Hi. unfold get, ofList.
  destruct (Z.ltb_spec i 0) as [Hneg | _]; [lia |].
  rewrite nth_error_map. destruct (nth_error l (Z.to_nat i)); reflexivity.
Qed.

Lemma get_negative (arr : array A) (i : Z) : i < 0 -> get arr i = None.
Proof.
  intros Hi. unfold get.
  destruct (Z.ltb_spec i 0); [reflexivity | lia].
Qed.

Lemma get_beyond (arr : array A) (i : Z) :
  Z.of_nat (List.length arr) <= i -> get arr i = None.
Proof.
  intros Hi. unfold get.
  destruct (Z.ltb_spec i 0); [reflexivity |].
  assert (Hn : nth_error arr (Z.to_nat i) = None)
    by (apply nth_error_None; lia).
  rewrite Hn. reflexivity.
Qed.

(** A read does not tell a hole from [undefined]. *)
Lemma get_spread (arr : array A) (i : Z) : get (spread arr) i = get arr i.
Proof.
  unfold get, spread. destruct (i <? 0); [reflexivity |].
  rewrite nth_error_map.
  destruct (nth_error arr (Z.to_nat i)) as [[| |a] |]; reflexivity.
Qed.

Lemma get_app_left (arr tail : array A) (i : Z) :
  i < Z.of_nat (List.length arr) -> get (arr ++ tail) i = get arr i.
Proof.
  intros Hi. unfold get. destruct (Z.ltb_spec i 0); [reflexivity |].
  rewrite nth_error_app1 by lia. reflexivity.
Qed.

Lemma get_app_last (arr : array A) (a : A) :
  get (arr ++ [Elem a]) (Z.of_nat (List.length arr)) = Some a.
Proof.
  unfold get. destruct (Z.ltb_spec (Z.of_nat (List.length arr)) 0); [lia |].
  rewrite Nat2Z.id, nth_error_app2 by lia.
  rewrite Nat.sub_diag. reflexivity.
Qed.

Lemma removeAt_beyond (n : nat) (l : list A) :
  (List.length l <= n)%nat -> removeAt n l = l.
Proof.
  intros Hn. unfold removeAt.
  rewrite firstn_all2, skipn_all2 by lia. apply app_nil_r.
Qed.


Lemma length_replaceNth (n : nat) (v : A) (l : list A) :
  (n < List.length l)%nat ->
  List.length (replaceNth n v l) = List.length l.
Proof.
  intros Hn. unfold replaceNth.
  rewrite length_app, length_firstn. cbn [List.length].
  rewrite length_skipn. lia.
Qed.



Lemma nth_error_replaceNth_same (n : nat) (v : A) (l : list A) :
  (n < List.length l)%nat -> nth_error (replaceNth n v l) n = Some v.
Proof.
  revert n. induction l as [|x l IH]; intros n Hn; cbn in Hn; [lia |].
  destruct n as [|n]; [reflexivity |]. apply (IH n). lia.
Qed.

Lemma nth_error_replaceNth_other (n j : nat) (v : A) (l : list A) :
  (n < List.length l)%nat -> j <> n ->
  nth_error (replaceNth n v l) j = nth_error l j.
Proof.
  revert n j. induction l as [|x l IH]; intros n j Hn Hj; cbn in Hn; [lia |].
  destruct n as [|n], j as [|j]; try congruence; try reflexivity.
  apply (IH n j); [lia | congruence].
Qed.

(** [filter((_, j) => j !== i)] on a dense array, the walk being at index
    [k]: the element at distance [i - k] is left out, if there is one. *)
Lemma filterFrom_ofList_skip (i k : Z) (l : list A) :
  i < k ->
  filterFrom (fun _ j => negb (j =? i)) k (ofList l) = ofList l.
Proof.
  revert k. induction l as [|x l IH]; intros k Hk; [reflexivity |].
  cbn. destruct (Z.eqb_spec k i) as [-> | _]; [lia |].
  cbn. f_equal. apply IH. lia.
Qed.

Lemma filterFrom_ofList_remove (i k : Z) (l : list A) :
  k <= i ->
  filterFrom (fun _ j => negb (j =? i)) k (ofList l)
  = ofList (removeAt (Z.to_nat (i - k)) l).
Proof.
  revert k. induction l as [|x l IH]; intros k Hk.
  - unfold removeAt. rewrite firstn_nil, skipn_nil. reflexivity.
  - cbn. destruct (Z.eqb_spec k i) as [-> | Hne]; cbn.
    + rewrite Z.sub_diag. cbn. apply filterFrom_ofList_skip. lia.
    + rewrite IH by lia.
      replace (Z.to_nat (i - k)) with (S (Z.to_nat (i - (k + 1)))) by lia.
      reflexivity.
Qed.

Lemma replaceAt_ofList (n : nat) (v : A) (l : list A) :
  (n < List.length l)%nat ->
  replaceAt (ofList l) n v = ofList (replaceNth n v l).
Proof.
  revert n. induction l as [|x l IH]; intros n Hn; cbn in Hn; [lia |].
  destruct n as [|n]; [reflexivity |].
  cbn. f_equal. apply IH. lia.
Qed.

Lemma set_ofList (i : Z) (v : A) (l : list A) :
  0 <= i < Z.of_nat (List.length l) ->
  Z.of_nat (List.length l) <= maxLength ->
  set (ofList l) i v = ofList (replaceNth (Z.to_nat i) v l).
Proof.
  intros Hi Hlen. unfold set, maxLength in *.
  destruct (Z.ltb_spec i 0); [lia |].
  destruct (Z.leb_spec 4294967295 i); [lia |]. cbn.
  rewrite length_ofList.
  destruct (Z.ltb_spec i (Z.of_nat (List.length l))); [| lia].
  apply replaceAt_ofList. lia.
Qed.

End DenseArrays.

(** ** The reducer on the students list *)

Arguments spread {A} arr : simpl never.
Arguments set {A} arr i v : simpl never.
Arguments get {A} arr i : simpl never.
Arguments filter {A} p arr : simpl never.
Arguments ofList {A} l : simpl never.

Lemma state_eta (st : State) :
  mkState (name st) (age st) (marks st) (students st) (editIndex st)
    (searchTerm st) (sortKey st) = st.
Proof. destruct st; reflexivity. Qed.

(** C6. [ADD_STUDENT] appends the record: the list is one longer, every
    earlier index reads as before, the new last index reads the record; on
    a list of records the result is that list followed by the record. The
    draft is reset to its empty form and [editIndex] to [null]; the search
    term and the sort key stay. *)
Theorem add_student_appends (st : State) (r : Student.t) :
  exists st',
    reducer st (ADD_STUDENT r) = Returns st' /\
    List.length (students st') = S (List.length (students st)) /\
    (forall i, 0 <= i < Z.of_nat (List.length (students st)) ->
               get (students st') i = get (students st) i) /\
    get (students st') (Z.of_nat (List.length (students st))) = Some r /\
    (forall l, students st = ofList l -> students st' = ofList (l ++ [r])) /\
    name st' = EmptyString /\
    age st' = EmptyString /\
    marks st' =
      ofList [EmptyString; EmptyString; EmptyString; EmptyString; EmptyString] /\
    editIndex st' = None /\
    searchTerm st' = searchTerm st /\
    sortKey st' = sortKey st.
Proof.
  eexists. split; [reflexivity |]. cbn.
  repeat split.
  - rewrite length_app, length_spread. cbn. lia.
  - intros i Hi. rewrite get_app_left by (rewrite length_spread; lia).
    apply get_spread.
  - rewrite <- (length_spread (students st)). apply get_app_last.
  - intros l Hl. rewrite Hl, spread_ofList. unfold ofList.
    rewrite List.map_app. reflexivity.
Qed.

Lemma add_student_appends_witness :
  exists st',
    reducer (Samples.withStudents Samples.five) (ADD_STUDENT Samples.studentA)
    = Returns st' /\
    students st' = ofList (Samples.five ++ [Samples.studentA]) /\
    editIndex st' = None.
Proof.
  destruct (add_student_appends (Samples.withStudents Samples.five)
              Samples.studentA)
    as [st' [H1 [_ [_ [_ [H2 [_ [_ [_ [H3 _]]]]]]]]]].
  exists st'. split; [exact H1 |]. split; [| exact H3].
  apply H2. reflexivity.
Defined.

(** ** Division *)

Lemma ge_Fin (q t : Q) : ge (Fin q) (Fin t) = true <-> (t <= q)%Q.
Proof. unfold ge, le. apply Qle_bool_iff. Qed.

Lemma ge_Fin_false (q t : Q) : ge (Fin q) (Fin t) = false <-> (q < t)%Q.
Proof.
  unfold ge, le. split.
  - intros H. apply Qnot_le_lt. intros Hle.
    apply Qle_bool_iff in Hle. congruence.
  - intros H. destruct (Qle_bool t q) eqn:E; [| reflexivity].
    apply Qle_bool_iff in E. exfalso. exact (Qlt_not_le _ _ H E).
Qed.

Lemma lt_ge (p t : number) :
  ge p t = false -> isNaN p = false -> isNaN t = false -> lt p t = true.
Proof.
  destruct p as [| [|] | a], t as [| [|] | b]; cbn; try congruence.
  intros ->. reflexivity.
Qed.

(** C2. [getDivision] on a number follows the threshold table: at least 60
    is First Division, at least 50 and below 60 Second Division, at least
    35 and below 50 Pass, anything else Fail ([NaN] and minus infinity
    included); the six boundary values land as the table says. *)
Theorem getDivision_thresholds :
  (forall p, getDivision (VNumber p) = divisionTable p) /\
  (forall q, (60 <= q)%Q ->
             getDivision (VNumber (Fin q)) = "First Division"%string) /\
  (forall q, (50 <= q)%Q /\ (q < 60)%Q ->
             getDivision (VNumber (Fin q)) = "Second Division"%string) /\
  (forall q, (35 <= q)%Q /\ (q < 50)%Q ->
             getDivision (VNumber (Fin q)) = "Pass"%string) /\
  (forall q, (q < 35)%Q -> getDivision (VNumber (Fin q)) = "Fail"%string) /\
  getDivision (VNumber NaN) = "Fail"%string /\
  getDivision (VNumber (Inf false)) = "First Division"%string /\
  getDivision (VNumber (Inf true)) = "Fail"%string /\
  getDivision (VNumber (round64 (5999 # 100))) = "Second Division"%string /\
  getDivision (VNumber (round64 (6000 # 100))) = "First Division"%string /\
  getDivision (VNumber (round64 (4999 # 100))) = "Pass"%string /\
  getDivision (VNumber (round64 (5000 # 100))) = "Second Division"%string /\
  getDivision (VNumber (round64 (3499 # 100))) = "Fail"%string /\
  getDivision (VNumber (round64 (3500 # 100))) = "Pass"%string.
Proof.
  split.
  { intros p. unfold getDivision, divisionTable, ToNumber.
    destruct (ge p (Fin 60)) eqn:E60; [reflexivity |].
    destruct (ge p (Fin 50)) eqn:E50.
    - rewrite (@lt_ge p (Fin 60) E60); [reflexivity | | reflexivity].
      destruct p; [discriminate | reflexivity | reflexivity].
    - cbn [andb]. destruct (ge p (Fin 35)) eqn:E35; [| reflexivity].
      rewrite (@lt_ge p (Fin 50) E50); [reflexivity | | reflexivity].
      destruct p; [discriminate | reflexivity | reflexivity]. }
  split.
  { intros q H. unfold getDivision, ToNumber.
    apply ge_Fin in H. rewrite H. reflexivity. }
  split.
  { intros q [H50 H60]. unfold getDivision, ToNumber.
    apply ge_Fin in H50. apply ge_Fin_false in H60.
    rewrite H60, H50. reflexivity. }
  split.
  { intros q [H35 H50]. unfold getDivision, ToNumber.
    assert (H60 : (q < 60)%Q)
      by (eapply Qlt_trans; [exact H50 | reflexivity]).
    apply ge_Fin in H35. apply ge_Fin_false in H50, H60.
    rewrite H60, H50, H35. reflexivity. }
  split.
  { intros q H35. unfold getDivision, ToNumber.
    assert (H50 : (q < 50)%Q)
      by (eapply Qlt_trans; [exact H35 | reflexivity]).
    assert (H60 : (q < 60)%Q)
      by (eapply Qlt_trans; [exact H35 | reflexivity]).
    apply ge_Fin_false in H35, H50, H60.
    rewrite H60, H50, H35. reflexivity. }
  repeat split; vm_compute; reflexivity.
Qed.

Lemma getDivision_thresholds_witness :
  getDivision (VNumber (Fin 75)) = "First Division"%string
  /\ getDivision (VNumber (Fin (111 # 2))) = "Second Division"%string
  /\ getDivision (VNumber (Fin 40)) = "Pass"%string
  /\ getDivision (VNumber (Fin 12)) = "Fail"%string.
Proof.
  destruct getDivision_thresholds as [_ [H1 [H2 [H3 [H4 _]]]]].
  split; [apply H1; unfold Qle; cbn; lia |].
  split; [apply H2; split; [unfold Qle | unfold Qlt]; cbn; lia |].
  split; [apply H3; split; [unfold Qle | unfold Qlt]; cbn; lia |].
  apply H4. unfold Qlt; cbn; lia.
Defined.

(** ** Validation *)

Lemma stored_ofList {A} (l : list A) : stored (ofList l) = List.map Some l.
Proof.
  unfold ofList. induction l as [|x l IH]; [reflexivity |].
  cbn. f_equal. exact IH.
Qed.

Lemma some_stored {A} (p : option A -> bool) (arr : array A) :
  some p arr = existsb p (stored arr).
Proof.
  induction arr as [|[| |a] r IH]; cbn; try rewrite IH; reflexivity.
Qed.

Lemma stored_mapFrom {A B} (g : option A -> B) (k : Z) (arr : array A) :
  stored (mapFrom (fun m _ => g m) k arr)
  = List.map (fun m => Some (g m)) (stored arr).
Proof.
  revert k. induction arr as [|[| |a] r IH]; intros k; cbn;
    try rewrite IH; reflexivity.
Qed.

Section ValidationChecks.

Import Rules.

Lemma isEmpty_iff (s : string) : isEmpty s = true <-> s = EmptyString.
Proof. destruct s; cbn; split; congruence. Qed.

Lemma isNaN_iff (x : number) : isNaN x = true <-> x = NaN.
Proof. destruct x; cbn; split; congruence. Qed.

Lemma isLetterOrSpace_iff (c : ascii) :
  isLetterOrSpace c = true <-> isLetter c \/ c = " "%char.
Proof.
  unfold isLetterOrSpace, isLetter.
  rewrite !Bool.orb_true_iff, !Bool.andb_true_iff, !Z.leb_le, Z.eqb_eq.
  assert (Hsp : code c = 32 <-> c = " "%char).
  { unfold code. split.
    - intros H. rewrite <- (ascii_nat_embedding c).
      replace (nat_of_ascii c) with 32%nat by lia. reflexivity.
    - intros ->. reflexivity. }
  rewrite Hsp. tauto.
Qed.

Lemma allChars_iff (p : ascii -> bool) (s : string) :
  allChars p s = true <->
  forall c, In c (list_ascii_of_string s) -> p c = true.
Proof.
  induction s as [|a s IH]; cbn.
  - split; [intros _ c [] | reflexivity].
  - rewrite Bool.andb_true_iff, IH. split.
    + intros [Ha Hs] c [<- | Hc]; [exact Ha | exact (Hs c Hc)].
    + intros H. split; [apply H; left; reflexivity |].
      intros c Hc. apply H. right. exact Hc.
Qed.

Lemma nameRegex_test_iff (s : string) :
  nameRegex_test s = true <-> lettersAndSpaces s.
Proof.
  unfold lettersAndSpaces. destruct s as [|a s].
  - cbn. split; [discriminate | intros [H _]; congruence].
  - unfold nameRegex_test. rewrite allChars_iff. split.
    + intros H. split; [discriminate |].
      intros c Hc. apply isLetterOrSpace_iff. exact (H c Hc).
    + intros [_ H] c Hc. apply isLetterOrSpace_iff. exact (H c Hc).
Qed.

Lemma checkMissing_iff (st : State) :
  checkMissing st = true <-> missingFields st.
Proof.
  unfold checkMissing, missingFields.
  rewrite !Bool.orb_true_iff, !isEmpty_iff, some_stored, existsb_exists.
  split.
  - intros [[H | H] | [m [Hin Hm]]]; [tauto | tauto |].
    right; right. destruct m as [s|]; [| discriminate].
    apply isEmpty_iff in Hm. subst s. exact Hin.
  - intros [H | [H | H]]; [tauto | tauto |].
    right. exists (Some EmptyString). split; [exact H | reflexivity].
Qed.

Lemma checkName_iff (st : State) : checkName st = true <-> invalidName st.
Proof.
  unfold checkName, invalidName.
  rewrite Bool.negb_true_iff, <- nameRegex_test_iff.
  destruct (nameRegex_test (trim (name st))); split; congruence.
Qed.

Lemma markOutOfRange_iff (x : number) :
  markOutOfRange (Some x) = true <-> outside0to100 x.
Proof.
  unfold markOutOfRange, outside0to100, orNaN.
  rewrite !Bool.orb_true_iff, isNaN_iff. tauto.
Qed.

Lemma checkMarks_iff (st : State) : checkMarks st = true <-> invalidMarks st.
Proof.
  unfold checkMarks, invalidMarks, map.
  rewrite some_stored, stored_mapFrom, existsb_exists. split.
  - intros [x [Hin Hx]]. apply in_map_iff in Hin.
    destruct Hin as [m [<- Hm]]. exists m. split; [exact Hm |].
    apply markOutOfRange_iff. exact Hx.
  - intros [m [Hm Hx]]. exists (Some (markToNumber m)). split.
    + apply in_map_iff. exists m. split; [reflexivity | exact Hm].
    + apply markOutOfRange_iff. exact Hx.
Qed.

Lemma checkAge_iff (st : State) : checkAge st = true <-> invalidAge st.
Proof.
  unfold checkAge, invalidAge.
  rewrite !Bool.orb_true_iff, isNaN_iff. tauto.
Qed.

Lemma handleSubmit_cascade (st : State) :
  handleSubmit st =
  PreventDefault ::
  if checkMissing st then [ToastError "Please fill in all fields."]
  else if checkName st
  then [ToastError "Name should contain only letters and spaces."]
  else if checkMarks st
  then [ToastError "Marks should be numbers between 0 and 100."]
  else if checkAge st
  then [ToastError "Enter a valid age between 1 and 100."]
  else
    match editIndex st with
    | Some _ =>
        [Dispatch (UPDATE_STUDENT (studentOf st));
         ToastSuccess "Student updated!"]
    | None =>
        [Dispatch (ADD_STUDENT (studentOf st));
         ToastSuccess "Student added!"]
    end.
Proof. reflexivity. Qed.

Lemma not_true_false (b : bool) (P : Prop) :
  (b = true <-> P) -> ~ P -> b = false.
Proof. intros H HP. destruct b; [exfalso; apply HP, H; reflexivity | reflexivity]. Qed.

Lemma rejected_effects (st : State) :
  violated st ->
  exists message, handleSubmit st = [PreventDefault; ToastError message].
Proof.
  intros Hv. rewrite handleSubmit_cascade.
  destruct (checkMissing st) eqn:E1; [eauto |].
  destruct (checkName st) eqn:E2; [eauto |].
  destruct (checkMarks st) eqn:E3; [eauto |].
  destruct (checkAge st) eqn:E4; [eauto |].
  exfalso. destruct Hv as [H | [H | [H | H]]].
  - apply checkMissing_iff in H. congruence.
  - apply checkName_iff in H. congruence.
  - apply checkMarks_iff in H. congruence.
  - apply checkAge_iff in H. congruence.
Qed.

End ValidationChecks.

(** C4. [handleSubmit] reports the first violated rule, in this order:
    a missing field; else a trimmed name that is not letters and spaces
    only; else a mark whose number is [NaN], negative or above 100; else
    an age whose number is [NaN], at most 0 or above 100; a draft that
    violates none is turned into a record and dispatched. The names
    ["John3"], the marks with 101 and the age ["0"] are rejected. *)
Theorem handleSubmit_first_violation :
  (forall st : State,
     (Rules.missingFields st ->
      handleSubmit st =
        [PreventDefault; ToastError "Please fill in all fields."]) /\
     (~ Rules.missingFields st -> Rules.invalidName st ->
      handleSubmit st =
        [PreventDefault;
         ToastError "Name should contain only letters and spaces."]) /\
     (~ Rules.missingFields st -> ~ Rules.invalidName st ->
      Rules.invalidMarks st ->
      handleSubmit st =
        [PreventDefault;
         ToastError "Marks should be numbers between 0 and 100."]) /\
     (~ Rules.missingFields st -> ~ Rules.invalidName st ->
      ~ Rules.invalidMarks st -> Rules.invalidAge st ->
      handleSubmit st =
        [PreventDefault;
         ToastError "Enter a valid age between 1 and 100."]) /\
     (~ Rules.violated st ->
      handleSubmit st =
        [PreventDefault;
         Dispatch (match editIndex st with
                   | Some _ => UPDATE_STUDENT (studentOf st)
                   | None => ADD_STUDENT (studentOf st)
                   end);
         ToastSuccess (match editIndex st with
                       | Some _ => "Student updated!"
                       | None => "Student added!"
                       end)])) /\
  handleSubmit (draftState "John3" "20" ["80"; "70"; "90"; "60"; "100"]%string)
  = [PreventDefault;
     ToastError "Name should contain only letters and spaces."] /\
  handleSubmit (draftState "John" "20" ["101"; "0"; "0"; "0"; "0"]%string)
  = [PreventDefault;
     ToastError "Marks should be numbers between 0 and 100."] /\
  handleSubmit (draftState "John" "0" ["80"; "70"; "90"; "60"; "100"]%string)
  = [PreventDefault; ToastError "Enter a valid age between 1 and 100."].
Proof.
  split; [| repeat split; vm_compute; reflexivity].
  intros st.
  pose proof (checkMissing_iff st) as H1.
  pose proof (checkName_iff st) as H2.
  pose proof (checkMarks_iff st) as H3.
  pose proof (checkAge_iff st) as H4.
  rewrite handleSubmit_cascade.
  repeat split.
  - intros V1. apply H1 in V1. rewrite V1. reflexivity.
  - intros N1 V2.
    rewrite (not_true_false H1 N1). apply H2 in V2. rewrite V2. reflexivity.
  - intros N1 N2 V3.
    rewrite (not_true_false H1 N1), (not_true_false H2 N2).
    apply H3 in V3. rewrite V3. reflexivity.
  - intros N1 N2 N3 V4.
    rewrite (not_true_false H1 N1), (not_true_false H2 N2),
      (not_true_false H3 N3).
    apply H4 in V4. rewrite V4. reflexivity.
  - intros NV. unfold Rules.violated in NV.
    rewrite (not_true_false H1), (not_true_false H2),
      (not_true_false H3), (not_true_false H4) by tauto.
    destruct (editIndex st); reflexivity.
Qed.

Lemma handleSubmit_first_violation_witness :
  handleSubmit
    (draftState EmptyString "20" ["80"; "70"; "90"; "60"; "100"]%string)
  = [PreventDefault; ToastError "Please fill in all fields."].
Proof.
  apply (proj1 handleSubmit_first_violation
           (draftState EmptyString "20"
              ["80"; "70"; "90"; "60"; "100"]%string)).
  left. reflexivity.
Defined.

(** C5. A draft that violates a rule is not submitted: [handleSubmit]
    dispatches nothing, and the state after the submission is the state
    before it, field for field. *)
Theorem rejected_submission_changes_nothing (st : State) :
  Rules.violated st ->
  (forall action, ~ In (Dispatch action) (handleSubmit st)) /\
  submit st = Returns st.
Proof.
  intros Hv. destruct (rejected_effects Hv) as [message Heff].
  unfold submit. rewrite Heff. split; [| reflexivity].
  intros action [H | [H | []]]; discriminate.
Qed.

Lemma rejected_submission_changes_nothing_witness :
  submit (draftState "John3" "20" ["80"; "70"; "90"; "60"; "100"]%string)
  = Returns (draftState "John3" "20" ["80"; "70"; "90"; "60"; "100"]%string).
Proof.
  apply (@rejected_submission_changes_nothing
           (draftState "John3" "20" ["80"; "70"; "90"; "60"; "100"]%string)).
  right; left. unfold Rules.invalidName.
  rewrite <- nameRegex_test_iff. vm_compute. discriminate.
Defined.

(** ** Rounding *)

Lemma pow2_nonneg_eq (e : Z) : 0 <= e -> pow2 e = inject_Z (2 ^ e).
Proof. intros H. unfold pow2. destruct (Z.leb_spec 0 e); [reflexivity | lia]. Qed.

Lemma pow2_neg_eq (e : Z) : e < 0 -> pow2 e = 1 # Z.to_pos (2 ^ (- e)).
Proof. intros H. unfold pow2. destruct (Z.leb_spec 0 e); [lia | reflexivity]. Qed.

Lemma pow_pos_id (e : Z) : 0 <= e -> Zpos (Z.to_pos (2 ^ e)) = 2 ^ e.
Proof. intros H. apply Z2Pos.id. apply Z.pow_pos_nonneg; lia. Qed.

Lemma ilog2_lower (n d : positive) : (pow2 (ilog2 n d) <= Zpos n # d)%Q.
Proof.
  unfold ilog2.
  pose proof (Z.log2_spec (Zpos n) eq_refl) as [Hn1 Hn2].
  pose proof (Z.log2_spec (Zpos d) eq_refl) as [Hd1 Hd2].
  pose proof (Z.log2_nonneg (Zpos n)) as Ha.
  pose proof (Z.log2_nonneg (Zpos d)) as Hb.
  set (a := Z.log2 (Zpos n)) in *. set (b := Z.log2 (Zpos d)) in *.
  rewrite Z.pow_succ_r in Hn2, Hd2 by assumption.
  destruct (Z.le_gt_cases 0 (a - b)) as [Hk | Hk].
  - assert (HA : 2 ^ a = 2 ^ (a - b) * 2 ^ b)
      by (rewrite <- Z.pow_add_r by lia; f_equal; lia).
    pose proof (Z.pow_pos_nonneg 2 (a - b) eq_refl Hk) as Hp.
    rewrite (Z.max_l 0 (- (a - b))), (Z.max_r 0 (a - b)) by lia.
    rewrite Z.pow_0_r.
    destruct (Z.ltb_spec (Zpos n * 1) (Zpos d * 2 ^ (a - b))) as [Hc | Hc].
    + destruct (Z.eq_dec (a - b) 0) as [Hz | Hz].
      * rewrite pow2_neg_eq by lia. unfold Qle; cbn [Qnum Qden].
        rewrite pow_pos_id by lia.
        replace (- (a - b - 1)) with 1 by lia.
        rewrite Hz in HA. change (2 ^ 0) with 1 in HA. change (2 ^ 1) with 2. lia.
      * rewrite pow2_nonneg_eq by lia. unfold Qle; cbn [Qnum Qden inject_Z].
        assert (HP : 2 ^ (a - b) = 2 * 2 ^ (a - b - 1))
          by (rewrite <- Z.pow_succ_r by lia; f_equal; lia).
        pose proof (Z.pow_pos_nonneg 2 (a - b - 1) eq_refl ltac:(lia)).
        nia.
    + rewrite pow2_nonneg_eq by lia. unfold Qle; cbn [Qnum Qden inject_Z]. lia.
  - assert (HB : 2 ^ b = 2 ^ (- (a - b)) * 2 ^ a)
      by (rewrite <- Z.pow_add_r by lia; f_equal; lia).
    pose proof (Z.pow_pos_nonneg 2 (- (a - b)) eq_refl ltac:(lia)) as Hp.
    rewrite (Z.max_r 0 (- (a - b))), (Z.max_l 0 (a - b)) by lia.
    rewrite Z.pow_0_r.
    destruct (Z.ltb_spec (Zpos n * 2 ^ (- (a - b))) (Zpos d * 1)) as [Hc | Hc].
    + rewrite pow2_neg_eq by lia. unfold Qle; cbn [Qnum Qden].
      rewrite pow_pos_id by lia.
      replace (- (a - b - 1)) with (Z.succ (- (a - b))) by lia.
      rewrite Z.pow_succ_r by lia. nia.
    + rewrite pow2_neg_eq by lia. unfold Qle; cbn [Qnum Qden].
      rewrite pow_pos_id by lia. lia.
Qed.

(** With [ilog2_lower]: [ilog2] is the binary exponent of [n / d]. *)
Lemma ilog2_upper (n d : positive) : (Zpos n # d < pow2 (ilog2 n d + 1))%Q.
Proof.
  unfold ilog2.
  pose proof (Z.log2_spec (Zpos n) eq_refl) as [Hn1 Hn2].
  pose proof (Z.log2_spec (Zpos d) eq_refl) as [Hd1 Hd2].
  pose proof (Z.log2_nonneg (Zpos n)) as Ha.
  pose proof (Z.log2_nonneg (Zpos d)) as Hb.
  set (a := Z.log2 (Zpos n)) in *. set (b := Z.log2 (Zpos d)) in *.
  rewrite Z.pow_succ_r in Hn2, Hd2 by assumption.
  assert (Hp : forall e, 0 <= e -> 0 < 2 ^ e)
    by (intros; apply Z.pow_pos_nonneg; lia).
  destruct (Z.ltb_spec (Zpos n * 2 ^ Z.max 0 (- (a - b)))
              (Zpos d * 2 ^ Z.max 0 (a - b))) as [Hc | Hc].
  - replace (a - b - 1 + 1) with (a - b) by lia.
    destruct (Z.le_gt_cases 0 (a - b)) as [Hk | Hk].
    + rewrite (Z.max_l 0 (- (a - b))), (Z.max_r 0 (a - b)) in Hc by lia.
      rewrite pow2_nonneg_eq by lia. unfold Qlt; cbn [Qnum Qden inject_Z].
      rewrite Z.pow_0_r in Hc. lia.
    + rewrite (Z.max_r 0 (- (a - b))), (Z.max_l 0 (a - b)) in Hc by lia.
      rewrite pow2_neg_eq by lia. unfold Qlt; cbn [Qnum Qden].
      rewrite pow_pos_id by lia. rewrite Z.pow_0_r in Hc. lia.
  - clear Hc. destruct (Z.le_gt_cases 0 (a - b + 1)) as [Hk | Hk].
    + rewrite pow2_nonneg_eq by lia. unfold Qlt; cbn [Qnum Qden inject_Z].
      assert (HA : 2 * 2 ^ a = 2 ^ (a - b + 1) * 2 ^ b).
      { rewrite <- Z.pow_add_r by lia. rewrite <- Z.pow_succ_r by lia.
        f_equal. lia. }
      pose proof (Hp (a - b + 1) Hk). nia.
    + rewrite pow2_neg_eq by lia. unfold Qlt; cbn [Qnum Qden].
      rewrite pow_pos_id by lia.
      assert (HB : 2 ^ b = 2 ^ (- (a - b + 1)) * (2 * 2 ^ a)).
      { rewrite <- Z.pow_succ_r by lia. rewrite <- Z.pow_add_r by lia.
        f_equal. lia. }
      pose proof (Hp (- (a - b + 1)) ltac:(lia)). nia.
Qed.

Lemma roundHalfEven_near (N D : Z) :
  0 < D -> 0 <= N ->
  0 <= roundHalfEven N D /\
  2 * (roundHalfEven N D * D - N) <= D /\
  2 * (N - roundHalfEven N D * D) <= D.
Proof.
  intros HD HN. unfold roundHalfEven.
  pose proof (Z.div_mod N D ltac:(lia)) as Hdm.
  pose proof (Z.mod_pos_bound N D HD) as Hm.
  pose proof (Z.div_pos N D HN HD) as Hq.
  destruct (Z.compare_spec (2 * (N mod D)) D) as [Hc | Hc | Hc].
  - destruct (Z.even (N / D)); nia.
  - nia.
  - nia.
Qed.

Lemma pow2_mono (j k : Z) : j <= k -> (pow2 j <= pow2 k)%Q.
Proof.
  intros H. unfold pow2.
  destruct (Z.leb_spec 0 j), (Z.leb_spec 0 k); try lia;
    unfold Qle; cbn [Qnum Qden inject_Z].
  - rewrite !Z.mul_1_r. apply Z.pow_le_mono_r; lia.
  - rewrite Z.mul_1_l. rewrite Z2Pos.id by (apply Z.pow_pos_nonneg; lia).
    pose proof (Z.pow_pos_nonneg 2 k eq_refl ltac:(lia)).
    pose proof (Z.pow_pos_nonneg 2 (- j) eq_refl ltac:(lia)). nia.
  - rewrite !Z.mul_1_l. rewrite !Z2Pos.id by (apply Z.pow_pos_nonneg; lia).
    apply Z.pow_le_mono_r; lia.
Qed.

Lemma gridExponent_small (n d : positive) :
  (Zpos n # d <= 1024)%Q -> -1074 <= gridExponent n d <= -42.
Proof.
  intros H. unfold gridExponent.
  assert (Hk : ilog2 n d <= 10).
  { destruct (Z.le_gt_cases (ilog2 n d) 10) as [Hle | Hgt]; [exact Hle |].
    exfalso. pose proof (ilog2_lower n d) as Hlow.
    pose proof (@pow2_mono 11 (ilog2 n d) ltac:(lia)) as Hmono.
    assert (Hc : (pow2 11 <= 1024)%Q)
      by (eapply Qle_trans; [exact Hmono |]; eapply Qle_trans; eassumption).
    revert Hc. vm_compute. intros Hc. apply Hc. reflexivity. }
  lia.
Qed.

Lemma roundMagnitude_near (n d : positive) :
  (Zpos n # d <= 1024)%Q ->
  exists r, roundMagnitude false n d = Fin r /\
            (0 <= r)%Q /\ ((Zpos n # d) - eps <= r)%Q /\ (r <= (Zpos n # d) + eps)%Q.
Proof.
  intros H. pose proof (gridExponent_small H) as He.
  unfold roundMagnitude, gridMantissa.
  set (e := gridExponent n d) in *.
  rewrite (Z.max_r 0 (- e)), (Z.max_l 0 e) by lia.
  rewrite Z.pow_0_r, Z.mul_1_r.
  pose proof (Z.pow_pos_nonneg 2 (- e) eq_refl ltac:(lia)) as HP.
  assert (HP42 : 2 ^ 42 <= 2 ^ (- e)) by (apply Z.pow_le_mono_r; lia).
  destruct (@roundHalfEven_near (Zpos n * 2 ^ (- e)) (Zpos d))
    as [Hm0 [Hm1 Hm2]]; [lia | nia |].
  set (m := roundHalfEven (Zpos n * 2 ^ (- e)) (Zpos d)) in *.
  replace (2 ^ e) with 0 by (symmetry; apply Z.pow_neg_r; lia).
  rewrite Z.mul_0_r.
  change (2 ^ 1024 <=? 0) with false. cbv iota.
  eexists. split; [reflexivity |].
  rewrite Qred_correct, pow2_neg_eq by lia.
  set (P := 2 ^ (- e)) in *.
  change (2 ^ 42) with 4398046511104 in HP42.
  clearbody P m.
  unfold eps, Qminus, Qle, Qplus, Qopp, Qmult; cbn [Qnum Qden inject_Z].
  rewrite ?Pos2Z.inj_mul, ?Z2Pos.id by assumption.
  repeat split; nia.
Qed.

Lemma round64_near (q : Q) :
  (0 <= q)%Q -> (q <= 1024)%Q ->
  exists r, round64 q = Fin r /\
            (0 <= r)%Q /\ (q - eps <= r)%Q /\ (r <= q + eps)%Q.
Proof.
  destruct q as [[|n|n] d]; intros H0 H1; unfold round64; cbn [Qnum Qden].
  - exists 0%Q. split; [reflexivity |].
    unfold eps, Qminus, Qle, Qplus, Qopp; cbn. repeat split; lia.
  - apply roundMagnitude_near. exact H1.
  - exfalso. revert H0. unfold Qle; cbn. lia.
Qed.

Lemma obtainedFrom_cons (acc x : number) (l : list number) :
  obtainedFrom acc (ofList (x :: l)) = obtainedFrom (add acc x) (ofList l).
Proof. reflexivity. Qed.

Lemma obtained_near (qs : list Q) :
  Forall inRange qs ->
  forall (acc A : Q) (k : Z),
    0 <= k ->
    (0 <= acc)%Q ->
    (A - inject_Z k * eps <= acc)%Q -> (acc <= A + inject_Z k * eps)%Q ->
    (A + inject_Z (Z.of_nat (List.length qs)) * (100 + eps) + inject_Z k * eps <= 900)%Q ->
    exists s,
      obtainedFrom (Fin acc) (ofList (List.map Fin qs)) = Fin s /\
      (0 <= s)%Q /\
      (A + exactSum qs - inject_Z (k + Z.of_nat (List.length qs)) * eps <= s)%Q /\
      (s <= A + exactSum qs + inject_Z (k + Z.of_nat (List.length qs)) * eps)%Q.
Proof.
  induction 1 as [|q qs [Hq0 Hq1] Hqs IH]; intros acc A k Hk Hacc Hlo Hhi Hcap.
  - exists acc. cbn. rewrite Z.add_0_r. unfold exactSum; cbn.
    repeat split; [exact Hacc | lra | lra].
  - cbn [List.length] in Hcap. rewrite Nat2Z.inj_succ in Hcap.
    unfold Z.succ in Hcap. rewrite inject_Z_plus in Hcap.
    assert (Hlen : (0 <= inject_Z (Z.of_nat (List.length qs)))%Q).
    { rewrite <- (Zle_Qle 0). lia. }
    assert (Hke : (0 <= inject_Z k * eps)%Q).
    { apply Qmult_le_0_compat; [rewrite <- (Zle_Qle 0); lia | unfold eps, Qle; cbn; lia]. }
    change (inject_Z 1) with 1%Q in Hcap.
    destruct (@round64_near (acc + q)%Q) as [r [Hr [Hr0 [Hr1 Hr2]]]];
      [lra | unfold eps in *; lra |].
    destruct (IH r (A + q)%Q (k + 1)) as [s [Hs [Hs0 [Hs1 Hs2]]]].
    + lia.
    + exact Hr0.
    + rewrite inject_Z_plus. change (inject_Z 1) with 1%Q. lra.
    + rewrite inject_Z_plus. change (inject_Z 1) with 1%Q. lra.
    + rewrite inject_Z_plus. change (inject_Z 1) with 1%Q. unfold eps in *. lra.
    + exists s. split.
      * cbn [List.map]. rewrite obtainedFrom_cons. cbn [add].
        rewrite Hr. exact Hs.
      * cbn [List.length]. rewrite Nat2Z.inj_succ. unfold Z.succ.
        replace (k + (Z.of_nat (List.length qs) + 1)) with (k + 1 + Z.of_nat (List.length qs)) by lia.
        unfold exactSum in *. cbn [fold_right].
        repeat split; [exact Hs0 | lra | lra].
Qed.

(** ** Decimal digits *)

Lemma append_assoc (s t u : string) : ((s ++ t) ++ u = s ++ (t ++ u))%string.
Proof. induction s as [|c s IH]; cbn; [reflexivity | rewrite IH; reflexivity]. Qed.

Lemma length_append (s t : string) :
  String.length (s ++ t) = (String.length s + String.length t)%nat.
Proof. induction s as [|c s IH]; cbn; [reflexivity | rewrite IH; reflexivity]. Qed.

Lemma allChars_append (p : ascii -> bool) (s t : string) :
  allChars p (s ++ t) = allChars p s && allChars p t.
Proof.
  induction s as [|c s IH]; cbn; [reflexivity |].
  rewrite IH, Bool.andb_assoc. reflexivity.
Qed.

Lemma digitsValue_append (acc : Z) (s t : string) :
  digitsValue acc (s ++ t) = digitsValue (digitsValue acc s) t.
Proof. revert acc. induction s as [|c s IH]; intros acc; cbn; [reflexivity | apply IH]. Qed.

Lemma code_chr (z : Z) : 0 <= z < 256 -> code (chr z) = z.
Proof.
  intros H. unfold code, chr. rewrite nat_ascii_embedding by lia. lia.
Qed.

Lemma digitChar_spec (d : Z) :
  0 <= d <= 9 -> isDigit (digitChar d) = true /\ code (digitChar d) - 48 = d.
Proof.
  intros H. unfold isDigit, digitChar. rewrite code_chr by lia.
  split; [| lia].
  apply Bool.andb_true_iff. split; apply Z.leb_le; lia.
Qed.

(** The digits [digitsFuel] puts in front of [acc] read back as [n]. *)
Lemma digitsFuel_spec (fuel : nat) :
  forall (n : Z) (acc : string),
    0 <= n < 2 ^ Z.of_nat fuel -> (0 < fuel)%nat ->
    exists ds,
      digitsFuel fuel n acc = (ds ++ acc)%string /\
      (0 < String.length ds)%nat /\
      allChars isDigit ds = true /\
      forall a, digitsValue a ds = a * 10 ^ Z.of_nat (String.length ds) + n.
Proof.
  induction fuel as [|fuel IH]; intros n acc Hn Hfuel; [lia |].
  cbn [digitsFuel].
  pose proof (Z.mod_pos_bound n 10 eq_refl) as Hmod.
  pose proof (Z.div_mod n 10 ltac:(lia)) as Hdm.
  destruct (@digitChar_spec (n mod 10) ltac:(lia)) as [Hd Hv].
  destruct (Z.eqb_spec (n / 10) 0) as [Hz | Hnz].
  - exists (String (digitChar (n mod 10)) EmptyString).
    split; [reflexivity |]. split; [cbn; lia |].
    split; [cbn; rewrite Hd; reflexivity |].
    intros a. cbn. rewrite Hv. lia.
  - assert (Hq : 0 < n / 10) by (pose proof (Z.div_pos n 10); lia).
    rewrite Nat2Z.inj_succ, Z.pow_succ_r in Hn by lia.
    destruct fuel as [|fuel'].
    { change (2 ^ Z.of_nat 0) with 1 in Hn. lia. }
    destruct (IH (n / 10) (String (digitChar (n mod 10)) acc))
      as [ds [Heq [Hlen [Hall Hval]]]]; [lia | lia |].
    exists (ds ++ String (digitChar (n mod 10)) EmptyString)%string.
    split; [rewrite Heq, append_assoc; reflexivity |].
    split; [rewrite length_append; cbn; lia |].
    split; [rewrite allChars_append, Hall; cbn; rewrite Hd; reflexivity |].
    intros a. rewrite digitsValue_append, Hval. cbn [digitsValue].
    rewrite Hv, length_append. cbn [String.length].
    replace (Z.of_nat (String.length ds + 1)) with (Z.succ (Z.of_nat (String.length ds))) by lia.
    rewrite Z.pow_succ_r by lia. lia.
Qed.

Lemma append_empty_r (s : string) : (s ++ EmptyString)%string = s.
Proof. induction s as [|c s IH]; cbn; [reflexivity | rewrite IH; reflexivity]. Qed.

Lemma decimalDigits_spec (n : Z) :
  0 <= n ->
  (0 < String.length (decimalDigits n))%nat /\
  allChars isDigit (decimalDigits n) = true /\
  digitsValue 0 (decimalDigits n) = n.
Proof.
  intros Hn. unfold decimalDigits.
  destruct (@digitsFuel_spec (S (Z.to_nat (Z.log2 n))) n EmptyString)
    as [ds [Heq [Hlen [Hall Hval]]]].
  - split; [exact Hn |].
    rewrite Nat2Z.inj_succ, Z2Nat.id by apply Z.log2_nonneg.
    destruct (Z.eq_dec n 0) as [-> | Hnz]; [reflexivity |].
    apply Z.log2_spec. lia.
  - lia.
  - rewrite Heq, append_empty_r. repeat split; [exact Hlen | exact Hall |].
    rewrite Hval. lia.
Qed.

Lemma zeros_spec (k : nat) :
  String.length (zeros k) = k /\ allChars isDigit (zeros k) = true /\
  forall s, digitsValue 0 (zeros k ++ s) = digitsValue 0 s.
Proof.
  induction k as [|k [IH1 [IH2 IH3]]]; cbn; [auto |].
  repeat split; [f_equal; exact IH1 | exact IH2 | exact IH3].
Qed.

Lemma takeStr_dropStr (k : nat) (s : string) :
  (takeStr k s ++ dropStr k s)%string = s.
Proof.
  revert s. induction k as [|k IH]; intros [|c s]; cbn; try reflexivity.
  rewrite IH. reflexivity.
Qed.

Lemma length_dropStr (k : nat) (s : string) :
  String.length (dropStr k s) = (String.length s - k)%nat.
Proof.
  revert s. induction k as [|k IH]; intros [|c s]; cbn; try reflexivity.
  apply IH.
Qed.

Lemma length_takeStr (k : nat) (s : string) :
  (k <= String.length s)%nat -> String.length (takeStr k s) = k.
Proof.
  revert s. induction k as [|k IH]; intros [|c s] H; cbn in *; try reflexivity; try lia.
  f_equal. apply IH. lia.
Qed.

(** [fixedDigits 2 n]: an integer part of at least one digit, a point, two
    digits; the digits read back as [n]. *)
Lemma fixedDigits_two (n : Z) :
  0 <= n ->
  exists ip frac,
    fixedDigits 2 n = (ip ++ String "." frac)%string /\
    (1 <= String.length ip)%nat /\
    String.length frac = 2%nat /\
    allChars isDigit (ip ++ frac) = true /\
    digitsValue 0 (ip ++ frac) = n.
Proof.
  intros Hn. destruct (decimalDigits_spec Hn) as [Hlen [Hall Hval]].
  unfold fixedDigits.
  set (m := decimalDigits n) in *.
  set (m' := if (String.length m <=? 2)%nat
             then (zeros (2 + 1 - String.length m) ++ m)%string else m).
  assert (Hm' : (3 <= String.length m')%nat /\ allChars isDigit m' = true
                /\ digitsValue 0 m' = n).
  { unfold m'. destruct (Nat.leb_spec (String.length m) 2) as [Hle | Hgt].
    - destruct (zeros_spec (2 + 1 - String.length m)) as [Z1 [Z2 Z3]].
      rewrite length_append, allChars_append, Z1, Z2, Z3.
      repeat split; [lia | exact Hall | exact Hval].
    - repeat split; [lia | exact Hall | exact Hval]. }
  destruct Hm' as [H3 [Hd Hv]].
  exists (takeStr (String.length m' - 2) m'), (dropStr (String.length m' - 2) m').
  split; [reflexivity |].
  split; [rewrite length_takeStr by lia; lia |].
  split; [rewrite length_dropStr; lia |].
  rewrite takeStr_dropStr. split; assumption.
Qed.

(** ** Percentage *)

Lemma calculatePercentage_unfold (marks : array number) :
  calculatePercentage marks = toFixed 2 (percentValue marks).
Proof. reflexivity. Qed.

Lemma exactSum_bounds (qs : list Q) :
  Forall inRange qs ->
  (0 <= exactSum qs)%Q /\
  (exactSum qs <= inject_Z (Z.of_nat (List.length qs)) * 100)%Q.
Proof.
  induction 1 as [|q qs [H0 H1] _ [IH0 IH1]]; unfold exactSum in *; cbn [fold_right List.length].
  - cbn. split; unfold Qle; cbn; lia.
  - rewrite Nat2Z.inj_succ. unfold Z.succ. rewrite inject_Z_plus.
    change (inject_Z 1) with 1%Q. split; lra.
Qed.

Lemma percentValue_near (qs : list Q) :
  List.length qs = 5%nat -> Forall inRange qs ->
  exists x,
    percentValue (ofList (List.map Fin qs)) = Fin x /\
    (0 <= x)%Q /\ (x <= 101)%Q /\
    (exactSum qs / 500 * 100 - percentError <= x)%Q /\
    (x <= exactSum qs / 500 * 100 + percentError)%Q.
Proof.
  intros Hlen Hqs.
  destruct (exactSum_bounds Hqs) as [HS0 HS1]. rewrite Hlen in HS1.
  change (inject_Z (Z.of_nat 5)) with 5%Q in HS1.
  destruct (@obtained_near qs Hqs 0%Q 0%Q 0) as [s [Hs [Hs0 [Hs1 Hs2]]]].
  - lia.
  - lra.
  - change (inject_Z 0) with 0%Q. lra.
  - change (inject_Z 0) with 0%Q. lra.
  - rewrite Hlen. change (inject_Z (Z.of_nat 5)) with 5%Q.
    change (inject_Z 0) with 0%Q. unfold eps. lra.
  - rewrite Hlen in Hs1, Hs2. change (inject_Z (0 + Z.of_nat 5)) with 5%Q in Hs1, Hs2.
    unfold percentValue. rewrite Hs.
    assert (Hdiv : div (Fin s) (Fin 500) = round64 (s / 500)).
    { reflexivity. }
    rewrite Hdiv.
    unfold Qdiv in *. change (/ 500)%Q with (1 # 500)%Q in *.
    destruct (@round64_near (s * (1 # 500))%Q) as [r [Hr [Hr0 [Hr1 Hr2]]]];
      [lra | unfold eps in *; lra |].
    rewrite Hr. cbn [mul].
    destruct (@round64_near (r * 100)%Q) as [x [Hx [Hx0 [Hx1 Hx2]]]];
      [lra | unfold eps in *; lra |].
    exists x. split; [exact Hx |].
    unfold eps, percentError in *. repeat split; lra.
Qed.

Lemma toFixed_small (x : Q) :
  (0 <= x)%Q -> (x <= 101)%Q ->
  toFixed 2 (Fin x) = fixedDigits 2 (nearestScaled 2 x).
Proof.
  destruct x as [n d]. intros H0 H1.
  assert (Hn : 0 <= n) by (revert H0; unfold Qle; cbn; lia).
  unfold toFixed, isNegative, Qabs. cbn [Qnum].
  destruct (Z.ltb_spec n 0) as [Hneg | _]; [lia |].
  rewrite Z.abs_eq by exact Hn.
  destruct (Qle_bool (inject_Z (10 ^ 21)) (n # d)) eqn:Hbig.
  - exfalso. apply Qle_bool_iff in Hbig.
    assert (Hc : (inject_Z (10 ^ 21) <= 101)%Q) by (eapply Qle_trans; eassumption).
    revert Hc. unfold Qle. cbn. lia.
  - reflexivity.
Qed.

Lemma Qfloor_unique (y : Q) (k : Z) :
  (inject_Z k <= y)%Q -> (y < inject_Z (k + 1))%Q -> Qfloor y = k.
Proof.
  intros Hlo Hhi.
  pose proof (Qfloor_le y) as H1. pose proof (Qlt_floor y) as H2.
  assert (Ha : (inject_Z k < inject_Z (Qfloor y + 1))%Q)
    by (eapply Qle_lt_trans; eassumption).
  assert (Hb : (inject_Z (Qfloor y) < inject_Z (k + 1))%Q)
    by (eapply Qle_lt_trans; eassumption).
  rewrite <- Zlt_Qlt in Ha, Hb. lia.
Qed.

(** [nearestScaled 2 x / 100] is [x] rounded to two decimals: at most half
    a hundredth away, the upper neighbour on a tie. *)
Lemma nearestScaled_near (x : Q) :
  (0 <= x)%Q ->
  0 <= nearestScaled 2 x /\
  (x - (1 # 200) < inject_Z (nearestScaled 2 x) / 100)%Q /\
  (inject_Z (nearestScaled 2 x) / 100 <= x + (1 # 200))%Q.
Proof.
  intros H0. unfold nearestScaled.
  change (inject_Z (10 ^ Z.of_nat 2)) with 100%Q.
  set (y := (x * 100 + (1 # 2))%Q).
  pose proof (Qfloor_le y) as H1. pose proof (Qlt_floor y) as H2.
  rewrite inject_Z_plus in H2. change (inject_Z 1) with 1%Q in H2.
  split.
  - change 0 with (Qfloor 0). apply Qfloor_resp_le. unfold y. lra.
  - unfold Qdiv. change (/ 100)%Q with (1 # 100)%Q. unfold y in *. split; lra.
Qed.

Lemma exactSum_integers (zs : list Z) :
  (exactSum (List.map inject_Z zs) == inject_Z (sumZ zs))%Q.
Proof.
  induction zs as [|z zs IH]; unfold exactSum, sumZ in *; cbn [List.map fold_right].
  - reflexivity.
  - rewrite IH, inject_Z_plus. reflexivity.
Qed.

Lemma inRange_integers (zs : list Z) :
  Forall (fun z => 0 <= z <= 100) zs -> Forall inRange (List.map inject_Z zs).
Proof.
  induction 1 as [|z zs [H0 H1] _ IH]; cbn; constructor; [| exact IH].
  split; unfold Qle; cbn; lia.
Qed.

(** C3, as amended. For five marks in [0, 100], [calculatePercentage]
    returns an integer part, a point and two digits; the hundredths [n]
    they spell are the binary64 value [x] of [(obtained / total) * 100]
    rounded to two decimals, and [x] is within [2 ^ -36] of the exact
    [(sum / 500) * 100]. For whole-number marks the string is exactly a
    fifth of the sum. Marks 80, 70, 90, 60, 100 give ["80.00"]; five marks
    of 40 give ["40.00"]. *)
Theorem calculatePercentage_two_decimals :
  (forall qs : list Q,
     List.length qs = 5%nat -> Forall inRange qs ->
     exists (x : Q) (n : Z) (ip frac : string),
       percentValue (ofList (List.map Fin qs)) = Fin x /\
       (exactSum qs / 500 * 100 - percentError <= x)%Q /\
       (x <= exactSum qs / 500 * 100 + percentError)%Q /\
       calculatePercentage (ofList (List.map Fin qs))
       = (ip ++ String "." frac)%string /\
       (1 <= String.length ip)%nat /\ String.length frac = 2%nat /\
       allChars isDigit (ip ++ frac) = true /\
       digitsValue 0 (ip ++ frac) = n /\
       (x - (1 # 200) < inject_Z n / 100)%Q /\
       (inject_Z n / 100 <= x + (1 # 200))%Q) /\
  (forall zs : list Z,
     List.length zs = 5%nat -> Forall (fun z => 0 <= z <= 100) zs ->
     calculatePercentage (ofList (List.map (fun z => Fin (inject_Z z)) zs))
     = fixedDigits 2 (20 * sumZ zs)) /\
  calculatePercentage
    (ofList [Fin 80; Fin 70; Fin 90; Fin 60; Fin 100]) = "80.00"%string /\
  calculatePercentage
    (ofList [Fin 40; Fin 40; Fin 40; Fin 40; Fin 40]) = "40.00"%string.
Proof.
  split; [| split; [| split; vm_compute; reflexivity]].
  - intros qs Hlen Hqs.
    destruct (percentValue_near Hlen Hqs) as [x [Hx [Hx0 [Hx1 [Hlo Hhi]]]]].
    destruct (nearestScaled_near Hx0) as [Hn0 [Hn1 Hn2]].
    destruct (fixedDigits_two Hn0) as [ip [frac [Hfmt [Hip [Hfrac [Hdig Hval]]]]]].
    exists x, (nearestScaled 2 x), ip, frac.
    rewrite calculatePercentage_unfold, Hx, (toFixed_small Hx0 Hx1).
    repeat split; assumption.
  - intros zs Hlen Hzs.
    rewrite <- (List.map_map inject_Z Fin).
    assert (Hlen' : List.length (List.map inject_Z zs) = 5%nat)
      by (rewrite length_map; exact Hlen).
    destruct (percentValue_near Hlen' (inRange_integers Hzs))
      as [x [Hx [Hx0 [Hx1 [Hlo Hhi]]]]].
    rewrite calculatePercentage_unfold, Hx, (toFixed_small Hx0 Hx1).
    f_equal. unfold nearestScaled.
    change (inject_Z (10 ^ Z.of_nat 2)) with 100%Q.
    rewrite exactSum_integers in Hlo, Hhi.
    unfold Qdiv in Hlo, Hhi. change (/ 500)%Q with (1 # 500)%Q in Hlo, Hhi.
    unfold percentError in Hlo, Hhi.
    apply Qfloor_unique.
    + rewrite inject_Z_mult. change (inject_Z 20) with 20%Q. lra.
    + rewrite inject_Z_plus, inject_Z_mult.
      change (inject_Z 20) with 20%Q. change (inject_Z 1) with 1%Q. lra.
Qed.

Lemma calculatePercentage_two_decimals_witness :
  exists (x : Q) (n : Z) (ip frac : string),
    percentValue (ofList (List.map Fin [80; 70; 90; 60; 100]%Q)) = Fin x /\
    calculatePercentage (ofList (List.map Fin [80; 70; 90; 60; 100]%Q))
    = (ip ++ String "." frac)%string /\
    String.length frac = 2%nat /\
    digitsValue 0 (ip ++ frac) = n /\
    (x - (1 # 200) < inject_Z n / 100)%Q /\
    (inject_Z n / 100 <= x + (1 # 200))%Q.
Proof.
  destruct (proj1 calculatePercentage_two_decimals
              [80; 70; 90; 60; 100]%Q)
    as [x [n [ip [frac [H1 [_ [_ [H2 [_ [H3 [_ [H4 [H5 H6]]]]]]]]]]]]].
  - reflexivity.
  - repeat constructor; unfold Qle; cbn; lia.
  - exists x, n, ip, frac. repeat split; assumption.
Defined.

(** C3, as stated, fails where binary64 rounding moves the value across a
    tie. The mark 0.375 is a binary64 value and [(0.375 / 500) * 100] is
    exactly 0.075, which rounds to 0.08, yet the string is ["0.07"]. The
    mark ["0.225"] is read as a binary64 value above 0.225, so the exact
    percentage is above 0.045 and nearer to 0.05, yet the string is
    ["0.04"]. *)
Lemma calculatePercentage_misses_exact_rounding :
  calculatePercentage (ofList [Fin (3 # 8); Fin 0; Fin 0; Fin 0; Fin 0])
  = "0.07"%string /\
  (exactSum [3 # 8; 0; 0; 0; 0] / 500 * 100 == 75 # 1000)%Q /\
  nearestScaled 2 (75 # 1000) = 8 /\
  calculatePercentage
    (ofList [ofString "0.225"; Fin 0; Fin 0; Fin 0; Fin 0])
  = "0.04"%string /\
  (exists q,
     ofString "0.225" = Fin q /\
     (45 # 1000 < exactSum [q; 0; 0; 0; 0] / 500 * 100)%Q /\
     (exactSum [q; 0; 0; 0; 0] / 500 * 100 < 46 # 1000)%Q).
Proof.
  split; [vm_compute; reflexivity |].
  split; [vm_compute; reflexivity |].
  split; [vm_compute; reflexivity |].
  split; [vm_compute; reflexivity |].
  eexists. split; [vm_compute; reflexivity |].
  split; vm_compute; reflexivity.
Qed.

(** ** Substring search *)

Lemma prefix_iff (t s : string) :
  String.prefix t s = true <-> exists post, s = (t ++ post)%string.
Proof.
  revert s. induction t as [|c t IH]; intros s.
  - split; [intros _; exists s; reflexivity | destruct s; reflexivity].
  - destruct s as [|d s]; cbn [String.prefix String.append];
      [split; [discriminate | intros [post H]; discriminate] |].
    destruct (Ascii.ascii_dec c d) as [-> | Hne].
    + rewrite IH. split; intros [post H]; exists post; [rewrite H; reflexivity |].
      inversion H; reflexivity.
    + split; [discriminate | intros [post H]; inversion H; congruence].
Qed.

(** [s.includes(t)] says that [t] occurs in [s]. *)
Lemma includes_iff (s t : string) :
  includes s t = true <-> exists pre post, s = (pre ++ t ++ post)%string.
Proof.
  induction s as [|c s IH]; cbn [includes]; rewrite Bool.orb_true_iff, prefix_iff.
  - split.
    + intros [[post H] | H]; [| discriminate]. exists EmptyString, post. exact H.
    + intros [[|d pre] [post H]]; [left; exists post; exact H | discriminate].
  - rewrite IH. split.
    + intros [[post H] | [pre [post H]]].
      * exists EmptyString, post. exact H.
      * exists (String c pre), post. cbn. rewrite H. reflexivity.
    + intros [[|d pre] [post H]].
      * left. exists post. exact H.
      * right. cbn in H. inversion H. exists pre, post. reflexivity.
Qed.

Lemma includes_empty (s : string) : includes s EmptyString = true.
Proof. destruct s; reflexivity. Qed.

(** ** The rows of a list of records *)

Lemma In_rowsFrom (k : Z) (l : list Student.t) (row : Row) :
  In row (rowsFrom k l) <->
  exists i, nth_error l i = Some (student row)
            /\ originalIndex row = k + Z.of_nat i.
Proof.
  revert k. induction l as [|s l IH]; intros k; cbn [rowsFrom In].
  - split; [intros [] | intros [[|i] [H _]]; discriminate].
  - rewrite IH. split.
    + intros [<- | [i [H1 H2]]].
      * exists 0%nat. cbn. split; [reflexivity | lia].
      * exists (S i). cbn. split; [exact H1 | lia].
    + intros [[|i] [H1 H2]].
      * left. cbn in H1. inversion H1. destruct row; cbn in *. f_equal; lia.
      * right. exists i. cbn in H1. split; [exact H1 | lia].
Qed.

Lemma rowsFrom_increasing (k : Z) (l : list Student.t) :
  StronglySorted (fun a b => originalIndex a < originalIndex b) (rowsFrom k l)
  /\ Forall (fun row => k <= originalIndex row) (rowsFrom k l).
Proof.
  revert k. induction l as [|s l IH]; intros k; cbn [rowsFrom].
  - split; constructor.
  - destruct (IH (k + 1)) as [IH1 IH2]. split.
    + constructor; [exact IH1 |].
      eapply Forall_impl; [| exact IH2]. cbn. intros; lia.
    + constructor; [cbn; lia |].
      eapply Forall_impl; [| exact IH2]. cbn. intros; lia.
Qed.

Lemma StronglySorted_filter {A} (R : A -> A -> Prop) (p : A -> bool) (l : list A) :
  StronglySorted R l -> StronglySorted R (List.filter p l).
Proof.
  induction 1 as [|x l Hs IH Hx]; cbn; [constructor |].
  destruct (p x); [| exact IH].
  constructor; [exact IH |].
  apply Forall_forall. intros y Hy. apply filter_In in Hy.
  rewrite Forall_forall in Hx. apply Hx. tauto.
Qed.

(** On a list of records the first two stages give the rows that match, in
    list order. *)
Lemma filterRows_dense (term : string) (k : Z) (l : list Student.t) :
  filterRows term (mapFrom (fun s i => (s, i)) k (ofList l))
  = Returns (List.filter (matches term) (rowsFrom k l)).
Proof.
  revert k. induction l as [|s l IH]; intros k; [reflexivity |].
  cbn [rowsFrom List.filter]. unfold ofList in *. cbn [List.map mapFrom slotValue filterRows].
  rewrite IH. unfold matches at 2. cbn [student]. reflexivity.
Qed.

(** ** Sorting *)

Section InsertionSort.

Variable cmp : Row -> Row -> number.

(** The comparator agrees, on the rows that satisfy [P], with a total
    preorder [keyLe]. *)
Variable P : Row -> Prop.
Variable keyLe : Row -> Row -> Prop.
Hypothesis keyLe_total : forall x y, P x -> P y -> keyLe x y \/ keyLe y x.
Hypothesis keyLe_trans :
  forall x y z, P x -> P y -> P z -> keyLe x y -> keyLe y z -> keyLe x z.
Hypothesis after_keyLe :
  forall x y, P x -> P y -> (after cmp x y = false <-> keyLe x y).

Lemma insertSorted_perm (x : Row) (l : list Row) :
  Permutation (insertSorted cmp x l) (x :: l).
Proof.
  induction l as [|y l IH]; cbn [insertSorted]; [reflexivity |].
  destruct (lt (Fin 0) (cmp x y)); [| reflexivity].
  rewrite IH. apply perm_swap.
Qed.

Lemma sort_perm (l : list Row) : Permutation (sort cmp l) l.
Proof.
  induction l as [|x l IH]; cbn; [reflexivity |].
  fold (sort cmp l). rewrite insertSorted_perm, IH. reflexivity.
Qed.

Lemma insertSorted_sorted (x : Row) (l : list Row) :
  P x -> Forall P l ->
  StronglySorted (before keyLe) l ->
  Forall (fun y => originalIndex x < originalIndex y) l ->
  StronglySorted (before keyLe) (insertSorted cmp x l).
Proof.
  intros Px. induction l as [|y l IH]; intros Pl Hs Hidx; cbn [insertSorted].
  - repeat constructor.
  - inversion Pl as [|? ? Py Pl']; subst.
    inversion Hs as [|? ? Hs' Hy]; subst.
    inversion Hidx as [|? ? Hxy Hidx']; subst.
    destruct (lt (Fin 0) (cmp x y)) eqn:E; fold (after cmp x y) in E.
    + constructor; [apply IH; assumption |].
      apply (Permutation_Forall (Permutation_sym (insertSorted_perm x l))).
      constructor; [| exact Hy].
      assert (Hnot : ~ keyLe x y).
      { intros H. apply (after_keyLe Px Py) in H. congruence. }
      split; [destruct (keyLe_total Px Py); tauto | tauto].
    + apply (after_keyLe Px Py) in E.
      constructor; [exact Hs |].
      constructor; [split; [exact E | intros _; exact Hxy] |].
      rewrite Forall_forall in *. intros z Hz.
      destruct (Hy z Hz) as [Hyz _].
      split; [| intros _; exact (Hidx' z Hz)].
      exact (keyLe_trans Px Py (Pl' z Hz) E Hyz).
Qed.

Lemma sort_sorted (l : list Row) :
  Forall P l ->
  StronglySorted (fun a b => originalIndex a < originalIndex b) l ->
  StronglySorted (before keyLe) (sort cmp l).
Proof.
  induction l as [|x l IH]; intros Pl Hs; cbn; [constructor |].
  fold (sort cmp l).
  inversion Pl; subst. inversion Hs; subst.
  apply insertSorted_sorted; [assumption | | auto |].
  - apply (Permutation_Forall (Permutation_sym (sort_perm l))). assumption.
  - apply (Permutation_Forall (Permutation_sym (sort_perm l))). assumption.
Qed.

End InsertionSort.

(** ** Order on numbers *)

Lemma le_total (x y : number) :
  isNaN x = false -> isNaN y = false -> le x y = true \/ le y x = true.
Proof.
  destruct x as [| [|] | a], y as [| [|] | b]; cbn; intros Hx Hy;
    try discriminate; auto.
  destruct (Qlt_le_dec b a) as [H | H].
  - right. apply Qle_bool_iff. apply Qlt_le_weak. exact H.
  - left. apply Qle_bool_iff. exact H.
Qed.

Lemma le_trans (x y z : number) :
  le x y = true -> le y z = true -> le x z = true.
Proof.
  destruct x as [| [|] | a], y as [| [|] | b], z as [| [|] | c]; cbn;
    intros H1 H2; try discriminate; auto.
  apply Qle_bool_iff in H1, H2. apply Qle_bool_iff.
  eapply Qle_trans; eassumption.
Qed.

(** ** Binary64 values are multiples of [2 ^ -1074] *)

Lemma pow2_pos (e : Z) : (0 < pow2 e)%Q.
Proof.
  unfold pow2. destruct (Z.leb_spec 0 e); unfold Qlt; cbn.
  - rewrite Z.mul_1_r. apply Z.pow_pos_nonneg; lia.
  - lia.
Qed.

Lemma pow2_add (j k : Z) : (pow2 (j + k) == pow2 j * pow2 k)%Q.
Proof.
  assert (Hp : forall e, 0 <= e -> 0 < 2 ^ e) by (intros; apply Z.pow_pos_nonneg; lia).
  unfold pow2.
  destruct (Z.leb_spec 0 j), (Z.leb_spec 0 k), (Z.leb_spec 0 (j + k)); try lia;
    unfold Qeq, Qmult; cbn [Qnum Qden inject_Z];
    rewrite ?Pos2Z.inj_mul, ?Z2Pos.id by (apply Hp; lia);
    rewrite ?Z.mul_1_r, ?Z.mul_1_l.
  - apply Z.pow_add_r; lia.
  - replace (2 ^ j) with (2 ^ (j + k) * 2 ^ (- k)); [reflexivity |].
    rewrite <- Z.pow_add_r by lia. f_equal. lia.
  - rewrite <- Z.pow_add_r by lia. f_equal. lia.
  - replace (2 ^ k) with (2 ^ (j + k) * 2 ^ (- j)); [reflexivity |].
    rewrite <- Z.pow_add_r by lia. f_equal. lia.
  - rewrite <- Z.pow_add_r by lia. f_equal. lia.
  - rewrite <- Z.pow_add_r by lia. f_equal. lia.
Qed.

Lemma gridExponent_lower (n d : positive) : -1074 <= gridExponent n d.
Proof. unfold gridExponent. lia. Qed.

Lemma onGrid_scaled (m e : Z) :
  -1074 <= e -> onGrid (Qred (inject_Z m * pow2 e)).
Proof.
  intros He. exists (m * 2 ^ (e + 1074)).
  rewrite Qred_correct.
  replace e with ((e + 1074) + -1074) at 1 by lia.
  rewrite pow2_add, (@pow2_nonneg_eq (e + 1074)) by lia.
  rewrite inject_Z_mult. ring.
Qed.

Lemma onGrid_opp (q : Q) : onGrid q -> onGrid (- q).
Proof.
  intros [m H]. exists (- m). rewrite H, inject_Z_opp. ring.
Qed.

Lemma onGrid_zero : onGrid 0.
Proof. exists 0. reflexivity. Qed.

Lemma roundMagnitude_grid (s : bool) (n d : positive) :
  gridNumber (roundMagnitude s n d).
Proof.
  unfold roundMagnitude.
  destruct (2 ^ 1024 <=? gridMantissa n d * 2 ^ gridExponent n d); [exact I |].
  cbn. pose proof (@onGrid_scaled (gridMantissa n d) _ (gridExponent_lower n d)).
  destruct s; [apply onGrid_opp |]; assumption.
Qed.

Lemma round64_grid (q : Q) : gridNumber (round64 q).
Proof.
  unfold round64. destruct (Qnum q).
  - exact onGrid_zero.
  - apply roundMagnitude_grid.
  - apply roundMagnitude_grid.
Qed.

Lemma parseRadix_grid (radix : Z) (s : string) : gridNumber (parseRadix radix s).
Proof.
  unfold parseRadix. destruct (readDigits radix s 0 0) as [[v len] [|c r]]; [| exact I].
  destruct (0 <? len); [apply round64_grid | exact I].
Qed.

Lemma parseDecimal_grid (s : string) : gridNumber (parseDecimal s).
Proof.
  unfold parseDecimal.
  set (p := match s with
            | String "+" t => (false, t)
            | String "-" t => (true, t)
            | _ => (false, s)
            end).
  destruct p as [negative u].
  destruct (String.eqb u "Infinity"); [exact I |].
  destruct (parseUnsignedDecimal u); [apply round64_grid | exact I].
Qed.

Lemma ofString_grid (s : string) : gridNumber (ofString s).
Proof.
  unfold ofString.
  destruct (trim s) as [|a [|c t]].
  - exact onGrid_zero.
  - destruct a as [[] [] [] [] [] [] [] []]; apply parseDecimal_grid.
  - destruct a as [[] [] [] [] [] [] [] []]; try apply parseDecimal_grid.
    repeat match goal with
           | |- context [if ?b then _ else _] => destruct b
           end;
      first [apply parseRadix_grid | apply parseDecimal_grid].
Qed.

Lemma roundHalfEven_positive (N D : Z) :
  0 < D -> D <= N -> 1 <= roundHalfEven N D.
Proof.
  intros HD HN. unfold roundHalfEven.
  assert (Hq : 1 <= N / D) by (apply Z.div_le_lower_bound; lia).
  destruct (2 * (N mod D) ?= D); [destruct (Z.even (N / D)) | |]; lia.
Qed.

Lemma gridExponent_below (n d : positive) :
  (pow2 (-1074) <= Zpos n # d)%Q -> (pow2 (gridExponent n d) <= Zpos n # d)%Q.
Proof.
  intros H. unfold gridExponent.
  destruct (Z.max_spec (ilog2 n d - 52) (-1074)) as [[_ ->] | [_ ->]].
  - exact H.
  - eapply Qle_trans; [| apply ilog2_lower]. apply pow2_mono. lia.
Qed.

Lemma gridMantissa_positive (n d : positive) :
  (pow2 (-1074) <= Zpos n # d)%Q -> 1 <= gridMantissa n d.
Proof.
  intros H. apply gridExponent_below in H. unfold gridMantissa.
  set (e := gridExponent n d) in *.
  assert (Hp : forall k, 0 <= k -> 0 < 2 ^ k) by (intros; apply Z.pow_pos_nonneg; lia).
  apply roundHalfEven_positive.
  - pose proof (Hp (Z.max 0 e) ltac:(lia)). lia.
  - revert H. unfold pow2, Qle. cbn [Qnum Qden].
    destruct (Z.leb_spec 0 e) as [He | He]; cbn [Qnum Qden inject_Z].
    + rewrite (Z.max_l 0 (- e)), (Z.max_r 0 e) by lia.
      rewrite Z.pow_0_r. lia.
    + rewrite (Z.max_r 0 (- e)), (Z.max_l 0 e) by lia.
      rewrite Z2Pos.id by (apply Hp; lia).
      rewrite Z.pow_0_r. lia.
Qed.

(** The sign of a rounded difference of two binary64 values is the sign of
    the exact difference. *)
Lemma round64_positive (q : Q) :
  onGrid q -> lt (Fin 0) (round64 q) = negb (Qle_bool q 0).
Proof.
  intros [k Hk].
  destruct (Qle_bool q 0) eqn:Hle; cbn [negb].
  - apply Qle_bool_iff in Hle. unfold round64.
    assert (Hn : Qnum q <= 0) by (revert Hle; unfold Qle; cbn; lia).
    destruct (Qnum q) as [|n|n] eqn:En; [reflexivity | lia |].
    unfold roundMagnitude.
    destruct (2 ^ 1024 <=? gridMantissa n (Qden q) * 2 ^ gridExponent n (Qden q));
      [reflexivity |].
    cbn [lt]. apply Bool.negb_false_iff, Qle_bool_iff.
    rewrite Qred_correct.
    assert (Hm : 0 <= gridMantissa n (Qden q)).
    { unfold gridMantissa.
      assert (Hp : forall k, 0 <= k -> 0 < 2 ^ k) by (intros; apply Z.pow_pos_nonneg; lia).
      pose proof (Hp (Z.max 0 (gridExponent n (Qden q))) ltac:(lia)).
      pose proof (Hp (Z.max 0 (- gridExponent n (Qden q))) ltac:(lia)).
      apply roundHalfEven_near; nia. }
    pose proof (pow2_pos (gridExponent n (Qden q))) as Hp2.
    assert (H0 : (0 <= inject_Z (gridMantissa n (Qden q)))%Q)
      by (unfold Qle; cbn; lia).
    assert (Hprod := Qmult_le_0_compat _ _ H0 (Qlt_le_weak _ _ Hp2)).
    lra.
  - assert (Hpos : (0 < q)%Q).
    { apply Qnot_le_lt. intros H. apply Qle_bool_iff in H. congruence. }
    assert (Hk1 : 1 <= k).
    { destruct (Z.le_gt_cases 1 k) as [H | H]; [exact H | exfalso].
      assert (Hk0 : (inject_Z k <= 0)%Q) by (unfold Qle; cbn; lia).
      pose proof (pow2_pos (-1074)) as Hp.
      assert (Hc : (inject_Z k * pow2 (-1074) <= 0)%Q).
      { rewrite <- (Qmult_0_l (pow2 (-1074))).
        apply Qmult_le_compat_r; [exact Hk0 | apply Qlt_le_weak; exact Hp]. }
      rewrite <- Hk in Hc. exact (Qlt_not_le _ _ Hpos Hc). }
    assert (Hgrid : (pow2 (-1074) <= q)%Q).
    { rewrite Hk. rewrite <- (Qmult_1_l (pow2 (-1074))) at 1.
      apply Qmult_le_compat_r; [| apply Qlt_le_weak, pow2_pos].
      unfold Qle; cbn; lia. }
    unfold round64. destruct q as [num den]. cbn [Qnum Qden] in *.
    destruct num as [|n|n].
    + exfalso. revert Hpos. unfold Qlt; cbn; lia.
    + unfold roundMagnitude.
      destruct (2 ^ 1024 <=? gridMantissa n den * 2 ^ gridExponent n den);
        [reflexivity |].
      cbn [lt]. apply Bool.negb_true_iff.
      destruct (Qle_bool (Qred (inject_Z (gridMantissa n den) * pow2 (gridExponent n den))) 0)
        eqn:E; [exfalso | reflexivity].
      apply Qle_bool_iff in E. rewrite Qred_correct in E.
      pose proof (gridMantissa_positive Hgrid) as Hm.
      pose proof (pow2_pos (gridExponent n den)) as Hp2.
      assert (H1 : (1 <= inject_Z (gridMantissa n den))%Q) by (unfold Qle; cbn; lia).
      assert (Hc : (1 * pow2 (gridExponent n den)
                    <= inject_Z (gridMantissa n den) * pow2 (gridExponent n den))%Q)
        by (apply Qmult_le_compat_r; [exact H1 | apply Qlt_le_weak; exact Hp2]).
      lra.
    + exfalso. revert Hpos. unfold Qlt; cbn; lia.
Qed.

Lemma sub_positive (x y : number) :
  gridNumber x -> gridNumber y -> isNaN x = false -> isNaN y = false ->
  lt (Fin 0) (sub x y) = negb (le x y).
Proof.
  destruct x as [| [|] | a], y as [| [|] | b]; cbn [isNaN];
    intros Gx Gy Nx Ny; try discriminate; try reflexivity.
  cbn [gridNumber] in *. unfold sub. cbn [neg add le].
  rewrite round64_positive.
  - f_equal. destruct (Qle_bool a b) eqn:E.
    + apply Qle_bool_iff in E. apply Qle_bool_iff. lra.
    + destruct (Qle_bool (a + - b) 0) eqn:E'; [| reflexivity].
      apply Qle_bool_iff in E'.
      assert (Hab : (a <= b)%Q) by lra.
      apply Qle_bool_iff in Hab. congruence.
  - destruct Gx as [ma Ha], Gy as [mb Hb]. exists (ma - mb).
    rewrite Ha, Hb. unfold Z.sub. rewrite inject_Z_plus, inject_Z_opp. ring.
Qed.

(** ** The display order *)

Section DisplayOrder.

Context {host : Host}.

Context {lawful : LawfulHost host}.

Lemma displayOrder_total (key : string) (x y : Row) :
  wellFormedRow x -> wellFormedRow y ->
  displayOrder key x y \/ displayOrder key y x.
Proof.
  intros [_ Hx] [_ Hy]. unfold displayOrder.
  destruct (String.eqb key "name"); [apply collation_total |].
  destruct (String.eqb key "division"); [lia |].
  destruct (le_total _ _ Hx Hy); tauto.
Qed.

Lemma displayOrder_trans (key : string) (x y z : Row) :
  wellFormedRow x -> wellFormedRow y -> wellFormedRow z ->
  displayOrder key x y -> displayOrder key y z -> displayOrder key x z.
Proof.
  intros _ _ _. unfold displayOrder.
  destruct (String.eqb key "name"); [apply collation_trans |].
  destruct (String.eqb key "division"); [lia |].
  intros H1 H2. exact (le_trans _ _ _ H2 H1).
Qed.

Lemma divisionOrder_rank (da db : string) :
  In da divisionLabels -> In db divisionLabels ->
  (lt (Fin 0)
      (sub (orNaN (divisionOrder da)) (orNaN (divisionOrder db))) = false
   <-> divisionRank da <= divisionRank db).
Proof.
  unfold divisionLabels. cbn [In].
  intros [<- | [<- | [<- | [<- | []]]]] [<- | [<- | [<- | [<- | []]]]];
    vm_compute; split; congruence.
Qed.

Lemma after_displayOrder (key : string) (x y : Row) :
  wellFormedRow x -> wellFormedRow y ->
  (after (compareRows key) x y = false <-> displayOrder key x y).
Proof.
  intros [Dx Nx] [Dy Ny]. unfold after, compareRows, displayOrder.
  destruct (String.eqb key "name"); [reflexivity |].
  destruct (String.eqb key "division"); [apply divisionOrder_rank; assumption |].
  rewrite sub_positive by (try apply ofString_grid; assumption).
  rewrite Bool.negb_false_iff. reflexivity.
Qed.

End DisplayOrder.

Lemma codeUnitCompare_after (a b : string) :
  lt (Fin 0) (codeUnitCompare a b) = false <-> String.compare a b <> Gt.
Proof.
  unfold codeUnitCompare. destruct (String.compare a b); cbn; split; congruence.
Qed.

#[export] Instance codeUnitHost_lawful : LawfulHost codeUnitHost.
Proof.
  split; cbn [localeCompare codeUnitHost]; intros a b.
  - rewrite !codeUnitCompare_after. rewrite (String.compare_antisym a b).
    destruct (String.compare b a); cbn; [left | right | left]; congruence.
  - intros c. rewrite !codeUnitCompare_after. intros Hab Hbc Hac.
    apply Hab. clear Hab.
    assert (Hca : String_as_OT.lt c a).
    { apply String_as_OT.cmp_lt. unfold String_as_OT.cmp.
      rewrite String.compare_antisym, Hac. reflexivity. }
    destruct (String.compare b c) eqn:Ebc; [| | congruence].
    + apply String.compare_eq_iff in Ebc. subst c.
      rewrite String.compare_antisym.
      apply String_as_OT.cmp_lt in Hca. unfold String_as_OT.cmp in Hca.
      rewrite Hca. reflexivity.
    + apply String_as_OT.cmp_lt in Ebc.
      pose proof (String_as_OT.lt_trans _ _ _ Ebc Hca) as Hba.
      apply String_as_OT.cmp_lt in Hba. unfold String_as_OT.cmp in Hba.
      rewrite String.compare_antisym, Hba. reflexivity.
Qed.

Lemma length_filter_all {A} (p : A -> bool) (l : list A) :
  (forall x, p x = true) -> List.filter p l = l.
Proof.
  intros H. induction l as [|x l IH]; cbn; [reflexivity |].
  rewrite H, IH. reflexivity.
Qed.

Lemma length_rowsFrom (k : Z) (l : list Student.t) :
  List.length (rowsFrom k l) = List.length l.
Proof.
  revert k. induction l as [|s l IH]; intros k; cbn; [reflexivity |].
  rewrite IH. reflexivity.
Qed.

Lemma StronglySorted_impl_on {A} (P : A -> Prop) (R R' : A -> A -> Prop) (l : list A) :
  (forall a b, P a -> P b -> R a b -> R' a b) ->
  Forall P l -> StronglySorted R l -> StronglySorted R' l.
Proof.
  intros Himp HP Hs. induction Hs as [|x l Hs IH Hx]; [constructor |].
  inversion HP as [|? ? Px Pl]; subst.
  constructor; [apply IH; exact Pl |].
  rewrite Forall_forall in *. intros y Hy. apply Himp; auto.
Qed.

(** ** The reducer on objects *)

Lemma nth_error_app_old {A} (h t : list A) (l : nat) (o : A) :
  nth_error h l = Some o -> nth_error (h ++ t) l = Some o.
Proof.
  intros H. rewrite nth_error_app1; [exact H |].
  apply nth_error_Some. congruence.
Qed.

Lemma nth_error_app_new {A} (h t : list A) (o : A) :
  nth_error (h ++ o :: t) (List.length h) = Some o.
Proof.
  rewrite nth_error_app2 by lia. rewrite Nat.sub_diag. reflexivity.
Qed.

Lemma stateAt_inv (h : Heap.heap) (l : Heap.loc) (st : State) :
  stateAt h l = Some st ->
  exists s ms ss,
    nth_error h l = Some (Heap.StateObject s) /\
    nth_error h (Heap.marks s) = Some (Heap.StringArray ms) /\
    nth_error h (Heap.students s) = Some (Heap.StudentArray ss) /\
    st = mkState (Heap.name s) (Heap.age s) ms ss (Heap.editIndex s)
           (Heap.searchTerm s) (Heap.sortKey s).
Proof.
  unfold stateAt. intros H.
  destruct (nth_error h l) as [[s | |] |] eqn:E1; try discriminate.
  destruct (nth_error h (Heap.marks s)) as [[| ms |] |] eqn:E2;
    try discriminate.
  destruct (nth_error h (Heap.students s)) as [[| | ss] |] eqn:E3;
    try discriminate.
  exists s, ms, ss. inversion H. repeat split; assumption.
Qed.

Lemma stateAt_intro (h : Heap.heap) (l : Heap.loc) (s : Heap.StateFields)
  (ms : array string) (ss : array Student.t) :
  nth_error h l = Some (Heap.StateObject s) ->
  nth_error h (Heap.marks s) = Some (Heap.StringArray ms) ->
  nth_error h (Heap.students s) = Some (Heap.StudentArray ss) ->
  stateAt h l
  = Some (mkState (Heap.name s) (Heap.age s) ms ss (Heap.editIndex s)
            (Heap.searchTerm s) (Heap.sortKey s)).
Proof. intros H1 H2 H3. unfold stateAt. rewrite H1, H2, H3. reflexivity. Qed.

(** Objects added to the heap do not change what a state object stands
    for. *)
Lemma stateAt_extend (h added : Heap.heap) (l : Heap.loc) (st : State) :
  stateAt h l = Some st -> stateAt (h ++ added) l = Some st.
Proof.
  intros H. destruct (stateAt_inv _ _ H) as [s [ms [ss [H1 [H2 [H3 ->]]]]]].
  apply stateAt_intro; apply nth_error_app_old; assumption.
Qed.

Lemma app_cons_assoc {A} (h t : list A) (x : A) :
  (h ++ [x]) ++ t = h ++ x :: t.
Proof. rewrite <- app_assoc. reflexivity. Qed.

Lemma length_app_one {A} (h : list A) (x : A) :
  List.length (h ++ [x]) = S (List.length h).
Proof. rewrite length_app. cbn. lia. Qed.

Lemma nth_error_app_new1 {A} (h t : list A) (x o : A) :
  nth_error (h ++ x :: o :: t) (S (List.length h)) = Some o.
Proof.
  rewrite <- app_cons_assoc, <- (length_app_one h x). apply nth_error_app_new.
Qed.

Lemma nth_error_app_new2 {A} (h t : list A) (x y o : A) :
  nth_error (h ++ x :: y :: o :: t) (S (S (List.length h))) = Some o.
Proof.
  rewrite <- app_cons_assoc, <- (length_app_one h x). apply nth_error_app_new1.
Qed.

Lemma update_app_new (h : Heap.heap) (o o' : Heap.object) :
  Heap.update (h ++ [o]) (List.length h) o' = h ++ [o'].
Proof. induction h as [|x h IH]; cbn; [reflexivity | rewrite IH; reflexivity]. Qed.

Lemma length_app_comm {A} (h t : list A) :
  List.length (h ++ t) = (List.length t + List.length h)%nat.
Proof. rewrite length_app. lia. Qed.

(** Reading through the heap as the reducer leaves it. *)
Ltac heap_read :=
  repeat first
    [ progress (rewrite <- app_assoc; cbn [app])
    | progress (rewrite length_app_comm; cbn [List.length Nat.add])
    | rewrite nth_error_app_new
    | rewrite nth_error_app_new1
    | rewrite nth_error_app_new2
    | rewrite update_app_new
    | match goal with
      | H : nth_error ?h ?l = Some _ |- context [nth_error ?h ?l] => rewrite H
      end
    | erewrite nth_error_app_old by eassumption ].

Ltac heap_step :=
  cbv beta iota delta
    [Heap.reducer Heap.bind Heap.getState Heap.getStrings Heap.getStudents
     Heap.new Heap.put Heap.ret Heap.throw];
  repeat (heap_read; cbv beta iota).

Ltac state_read :=
  unfold stateAt; heap_read;
  cbn [Heap.setField Heap.marks Heap.students Heap.name Heap.age
       Heap.editIndex Heap.searchTerm Heap.sortKey];
  heap_read; reflexivity.

(** [EDIT_STUDENT] returns exactly when its index names a record: on a list
    of records, when the index is in range; otherwise it throws, reading
    [name] of [undefined]. *)
Lemma edit_student_returns_iff_in_range
  (st : State) (l : list Student.t) (index : Z) :
  students st = ofList l ->
  ((exists st', reducer st (EDIT_STUDENT index) = Returns st')
   <-> 0 <= index < Z.of_nat (List.length l))
  /\ (reducer st (EDIT_STUDENT index) = Throws
      <-> index < 0 \/ Z.of_nat (List.length l) <= index).
Proof.
  intros Hl. cbn [reducer]. rewrite Hl.
  destruct (Z.ltb_spec index 0) as [Hneg | Hpos].
  - rewrite get_negative by exact Hneg. split; split.
    + intros [st' H]. discriminate.
    + lia.
    + intros _. left. exact Hneg.
    + reflexivity.
  - rewrite get_ofList by exact Hpos.
    destruct (nth_error l (Z.to_nat index)) as [s|] eqn:Hn.
    + assert (Hlt : (Z.to_nat index < List.length l)%nat)
        by (apply nth_error_Some; congruence).
      split; split.
      * intros _. lia.
      * intros _. eexists. reflexivity.
      * discriminate.
      * lia.
    + apply nth_error_None in Hn. split; split.
      * intros [st' H]. discriminate.
      * lia.
      * intros _. right. lia.
      * reflexivity.
Qed.

Lemma edit_student_returns_iff_in_range_witness :
  reducer (Samples.withStudents Samples.five) (EDIT_STUDENT 5) = Throws
  /\ exists st',
       reducer (Samples.withStudents Samples.five) (EDIT_STUDENT 4)
       = Returns st'.
Proof.
  destruct (@edit_student_returns_iff_in_range
              (Samples.withStudents Samples.five) Samples.five 5 eq_refl)
    as [_ [_ H5]].
  destruct (@edit_student_returns_iff_in_range
              (Samples.withStudents Samples.five) Samples.five 4 eq_refl)
    as [[_ H4] _].
  split; [apply H5; right; cbn; lia | apply H4; cbn; lia].
Defined.

(** ** A stale edit index *)

(** [UPDATE_STUDENT] does not check [editIndex] against the list: after two
    deletions it writes past the end and leaves a hole. On that list a
    [DELETE_STUDENT] out of range drops the hole, so the list changes, and
    [EDIT_STUDENT] of the hole's index throws although the index is below
    the length. *)
Lemma stale_edit_index_leaves_a_hole :
  exists st,
    afterStaleEdit = Returns st /\
    students st = [Elem Samples.studentC; Hole; Elem Samples.studentE] /\
    (exists st',
       reducer st (DELETE_STUDENT 7) = Returns st' /\
       students st' = [Elem Samples.studentC; Elem Samples.studentE]) /\
    reducer st (EDIT_STUDENT 1) = Throws.
Proof.
  eexists. split; [reflexivity |].
  split; [reflexivity |].
  split; [eexists; split; reflexivity | reflexivity].
Qed.

(** ** The rounding model against the kernel's binary64 *)

(** On every quotient [a / b] with [0 <= a < 12] and [1 <= b <= 12], also
    scaled into the subnormal range and combined with a product and a sum,
    [round64] gives the value the kernel's binary64 arithmetic gives. *)
Lemma round64_agrees_with_binary64 :
  forallb
    (fun '(a, b) =>
       sameNumber (ofFloat (floatOfZ a / floatOfZ b))
         (div (ofZ a) (ofZ b))
       && sameNumber
            (ofFloat (floatOfZ a / floatOfZ b * (floatOfZ a / 500)
                      + floatOfZ b / 3))
            (add (mul (div (ofZ a) (ofZ b)) (div (ofZ a) (Fin 500)))
               (div (ofZ b) (Fin 3)))
       && sameNumber
            (ofFloat (floatOfZ a * 0x1p-1060 / floatOfZ b))
            (div (mul (ofZ a) (Fin (pow2 (-1060)))) (ofZ b)))
    (quotientGrid 12)
  = true.
Proof. vm_compute. reflexivity. Qed.

(** Overflow, ties at the largest finite value, subnormal results, signs,
    zero divisors and parsed literals. *)
Lemma binary64_edges :
  forallb (fun '(f, x) => sameNumber (ofFloat f) x)
    [ (0x1.fffffffffffffp1023 + 0x1.fffffffffffffp1023,
       add (Fin (inject_Z (2 ^ 1024 - 2 ^ 971)))
         (Fin (inject_Z (2 ^ 1024 - 2 ^ 971))));
      (0x1.fffffffffffffp1023 + 0x1p970,
       round64 (inject_Z (2 ^ 1024 - 2 ^ 970)));
      (0x1.fffffffffffffp1023 + 0x1p969,
       round64 (inject_Z (2 ^ 1024 - 2 ^ 971 + 2 ^ 969)));
      (0x1p-1074 / 2, round64 (pow2 (-1075)));
      (0x1p-1074 * 3 / 2, round64 (3 * pow2 (-1075)));
      (0x1p-1074 * 5 / 7, round64 (5 * pow2 (-1074) / 7));
      (0x1.999999999999ap-4 + 0x1.999999999999ap-3, add (ofString "0.1") (ofString "0.2"));
      (0x1.0147ae147ae14p+0 * 100, mul (ofString "1.005") (Fin 100));
      (- (1 / 3) - 0x1p60, sub (neg (div (Fin 1) (Fin 3))) (Fin (pow2 60)));
      (0 / 0, div (Fin 0) (Fin 0));
      (1 / 0, div (Fin 1) (Fin 0));
      (infinity - infinity, sub (Inf false) (Inf false)) ]%float
  = true.
Proof. vm_compute. reflexivity. Qed.

(** [String(x)], [x.toFixed(2)] and [Number(s)] on values whose results in
    JavaScript are well known. *)
Lemma toString_examples :
  List.map toString
    [ofString "0.1"; div (Fin 1) (Fin 3); Fin 100; Fin (91 # 2);
     Fin (inject_Z (10 ^ 21)); ofString "1e23"; ofString "1e-7";
     ofString "0.000001"; ofString "123456789012345678";
     add (ofString "0.1") (ofString "0.2"); Fin (pow2 (-1074));
     Fin (- (5 # 4)); NaN; Inf true]
  = ["0.1"; "0.3333333333333333"; "100"; "45.5"; "1e+21"; "1e+23"; "1e-7";
     "0.000001"; "123456789012345680"; "0.30000000000000004"; "5e-324";
     "-1.25"; "NaN"; "-Infinity"]%string.
Proof. vm_compute. reflexivity. Qed.

Lemma toFixed_examples :
  List.map (toFixed 2)
    [ofString "1.005"; ofString "1.255"; ofString "0.005"; ofString "9.995";
     Fin (1 # 8); Fin 80; ofString "-0.001"; Fin (inject_Z (10 ^ 21));
     NaN]
  = ["1.00"; "1.25"; "0.01"; "9.99"; "0.13"; "80.00"; "-0.00"; "1e+21";
     "NaN"]%string.
Proof. vm_compute. reflexivity. Qed.

Lemma ofString_examples :
  List.map (fun s => toString (ofString s))
    ["101"; " 42 "; "1e2"; ".5"; "5."; "."; "-12.25"; "0x1F"; "0b101";
     "-0x10"; "Infinity"; "infinity"; "12abc"; "1e"; "00012"; "1_000";
     "1e400"; "1e-400"]%string
  = ["101"; "42"; "100"; "0.5"; "5"; "NaN"; "-12.25"; "31"; "5"; "NaN";
     "Infinity"; "NaN"; "NaN"; "NaN"; "12"; "NaN"; "Infinity"; "0"]%string
  /\ ofString EmptyString = Fin 0.
Proof. split; vm_compute; reflexivity. Qed.

(** For the whole sums of marks 0, 5, 10, ... 500 the number that
    [calculatePercentage] formats is the kernel's binary64 value of
    [(sum / 500) * 100]; so it is for the mark 0.375. *)
Lemma percentValue_agrees_with_binary64 :
  forallb
    (fun s =>
       sameNumber (ofFloat (floatOfZ s / 500 * 100))
         (percentValue (ofList [ofZ s; Fin 0; Fin 0; Fin 0; Fin 0])))
    (List.map (fun k => 5 * Z.of_nat k) (seq 0 101))
  = true
  /\ sameNumber (ofFloat ((0 + 0.375 + 0 + 0 + 0 + 0) / 500 * 100))
       (percentValue (ofList [Fin (3 # 8); Fin 0; Fin 0; Fin 0; Fin 0]))
     = true.
Proof. split; vm_compute; reflexivity. Qed.

(** ** Arrays with holes *)

Lemma get_nth_error {A} (arr : array A) (n : nat) (a : A) :
  nth_error arr n = Some (Elem a) -> get arr (Z.of_nat n) = Some a.
Proof.
  intros H. unfold get.
  destruct (Z.ltb_spec (Z.of_nat n) 0); [lia |].
  rewrite Nat2Z.id, H. reflexivity.
Qed.

Lemma In_spread {A} (arr : array A) (a : A) :
  In (Elem a) (spread arr) <-> In (Elem a) arr.
Proof.
  unfold spread. rewrite in_map_iff. split.
  - intros [[| |b] [H1 H2]]; try discriminate. inversion H1. subst. exact H2.
  - intros H. exists (Elem a). split; [reflexivity | exact H].
Qed.

Lemma Undefined_spread {A} (arr : array A) :
  In Undefined (spread arr) <-> In Undefined arr \/ In Hole arr.
Proof.
  unfold spread. rewrite in_map_iff. split.
  - intros [[| |b] [H1 H2]]; try discriminate; tauto.
  - intros [H | H]; [exists Undefined | exists Hole]; split; trivial.
Qed.

Lemma In_replaceAt {A} (arr : array A) (n : nat) (v a : A) :
  In (Elem a) (replaceAt arr n v) -> a = v \/ In (Elem a) arr.
Proof.
  revert n. induction arr as [|s r IH]; intros n; cbn; [tauto |].
  destruct n as [|n]; cbn.
  - intros [H | H]; [inversion H; tauto | tauto].
  - intros [H | H]; [tauto |]. destruct (IH _ H); tauto.
Qed.

Lemma In_set {A} (arr : array A) (i : Z) (v a : A) :
  In (Elem a) (set arr i v) -> a = v \/ In (Elem a) arr.
Proof.
  unfold set. destruct ((i <? 0) || (maxLength <=? i)); [tauto |].
  destruct (i <? Z.of_nat (List.length arr)).
  - apply In_replaceAt.
  - rewrite !in_app_iff. intros [H | [H | [H | []]]].
    + tauto.
    + apply repeat_spec in H. discriminate.
    + inversion H. tauto.
Qed.

Lemma In_filterFrom {A} (p : option A -> Z -> bool) (k : Z) (arr : array A)
  (s : slot A) :
  In s (filterFrom p k arr) -> In s arr.
Proof.
  revert k. induction arr as [|[| |b] r IH]; intros k; cbn; [tauto | | |].
  - intros H. right. exact (IH _ H).
  - destruct (p None k); cbn; [intros [H | H] |]; eauto.
  - destruct (p (Some b) k); cbn; [intros [H | H] |]; eauto.
Qed.

Lemma indicesFrom_ofList {A} (k : Z) (l : list A) (n : nat) (i : Z) :
  nth_error (indicesFrom k (ofList l)) n = Some i ->
  i = k + Z.of_nat n /\ (n < List.length l)%nat.
Proof.
  revert k n. unfold ofList.
  induction l as [|x l IH]; intros k n; cbn [List.map indicesFrom List.length].
  - destruct n; discriminate.
  - destruct n as [|n]; cbn [nth_error].
    + intros H. inversion H. split; lia.
    + intros H. destruct (IH _ _ H). split; lia.
Qed.

(** ** Rows of a list with holes *)

Lemma filterRows_sound (term : string) (arr : array Student.t) :
  forall (k : Z) (rows : list Row),
    filterRows term (mapFrom (fun s i => (s, i)) k arr) = Returns rows ->
    forall row, In row rows ->
      exists n, nth_error arr n = Some (Elem (student row))
                /\ originalIndex row = k + Z.of_nat n
                /\ matches term row = true.
Proof.
  induction arr as [|[| |s] r IH]; intros k rows; cbn [mapFrom slotValue filterRows].
  - intros H. inversion H. intros row [].
  - intros H row Hin. destruct (IH _ _ H row Hin) as [n [H1 [H2 H3]]].
    exists (S n). cbn [nth_error]. repeat split; [exact H1 | lia | exact H3].
  - discriminate.
  - destruct (filterRows term (mapFrom _ (k + 1) r)) as [kept|] eqn:E;
      [| discriminate].
    intros H row Hin. inversion H. subst rows. clear H.
    assert (Hrest : In row kept ->
                    exists n, nth_error (Elem s :: r) n = Some (Elem (student row))
                              /\ originalIndex row = k + Z.of_nat n
                              /\ matches term row = true).
    { intros Hk. destruct (IH _ _ E row Hk) as [n [H1 [H2 H3]]].
      exists (S n). cbn [nth_error]. repeat split; [exact H1 | lia | exact H3]. }
    destruct (includes (toLowerCase (Student.name s)) (toLowerCase term)) eqn:Ek;
      [| exact (Hrest Hin)].
    destruct Hin as [<- | Hin]; [| exact (Hrest Hin)].
    exists 0%nat. cbn. repeat split; [lia | exact Ek].
Qed.

Lemma filterRows_complete (term : string) (arr : array Student.t) :
  forall (k : Z) (rows : list Row),
    filterRows term (mapFrom (fun s i => (s, i)) k arr) = Returns rows ->
    forall (n : nat) (s : Student.t),
      nth_error arr n = Some (Elem s) ->
      matches term (mkRow s (k + Z.of_nat n)) = true ->
      In (mkRow s (k + Z.of_nat n)) rows.
Proof.
  induction arr as [|[| |s0] r IH]; intros k rows; cbn [mapFrom slotValue filterRows].
  - intros _ [|n] s H; discriminate.
  - intros H [|n] s Hn Hm; cbn [nth_error] in Hn; [discriminate |].
    replace (k + Z.of_nat (S n)) with (k + 1 + Z.of_nat n) in * by lia.
    exact (IH _ _ H n s Hn Hm).
  - discriminate.
  - destruct (filterRows term (mapFrom _ (k + 1) r)) as [kept|] eqn:E;
      [| discriminate].
    intros H [|n] s Hn Hm; cbn [nth_error] in Hn; inversion H; subst rows; clear H.
    + inversion Hn. subst s0. replace (k + Z.of_nat 0) with k in * by lia.
      unfold matches in Hm. cbn [student] in Hm. rewrite Hm. left. reflexivity.
    + replace (k + Z.of_nat (S n)) with (k + 1 + Z.of_nat n) in * by lia.
      pose proof (IH _ _ E n s Hn Hm) as Hin.
      destruct (includes _ _); [right |]; exact Hin.
Qed.

Lemma filterRows_throws (term : string) (arr : array Student.t) (k : Z) :
  filterRows term (mapFrom (fun s i => (s, i)) k arr) = Throws
  <-> In Undefined arr.
Proof.
  revert k. induction arr as [|[| |s] r IH]; intros k;
    cbn [mapFrom slotValue filterRows In].
  - split; [discriminate | tauto].
  - rewrite IH. split; [tauto | intros [H | H]; [discriminate | exact H]].
  - split; [tauto | reflexivity].
  - destruct (filterRows term (mapFrom _ (k + 1) r)) as [kept|] eqn:E.
    + split; [discriminate |]. intros [H | H]; [discriminate |].
      apply (IH (k + 1)) in H. congruence.
    + split; [| reflexivity]. intros _. right. apply (IH (k + 1)). exact E.
Qed.

Section RowsOfTheView.

Context {host : Host}.

Lemma In_sort (cmp : Row -> Row -> number) (l : list Row) (row : Row) :
  In row (sort cmp l) <-> In row l.
Proof.
  split; apply Permutation_in;
    [apply sort_perm | apply Permutation_sym, sort_perm].
Qed.

Lemma filteredSortedData_inv (st : State) (rows : list Row) :
  filteredSortedData st = Returns rows ->
  exists kept,
    filterRows (searchTerm st) (annotate (students st)) = Returns kept
    /\ rows = sort (compareRows (sortKey st)) kept.
Proof.
  unfold filteredSortedData.
  destruct (filterRows _ _) as [kept|]; [| discriminate].
  intros H. inversion H. eauto.
Qed.

Lemma row_points_back (st : State) (rows : list Row) (row : Row) :
  filteredSortedData st = Returns rows -> In row rows ->
  get (students st) (originalIndex row) = Some (student row)
  /\ 0 <= originalIndex row < Z.of_nat (List.length (students st))
  /\ nth_error (students st) (Z.to_nat (originalIndex row))
     = Some (Elem (student row))
  /\ matches (searchTerm st) row = true.
Proof.
  intros H Hin. destruct (filteredSortedData_inv _ H) as [kept [Hk ->]].
  apply In_sort in Hin.
  destruct (filterRows_sound _ _ _ Hk row Hin) as [n [H1 [H2 H3]]].
  rewrite H2. cbn. rewrite (get_nth_error _ _ H1), Nat2Z.id.
  assert (n < List.length (students st))%nat
    by (apply nth_error_Some; congruence).
  repeat split; try assumption; lia.
Qed.

Lemma filteredSortedData_throws (st : State) :
  filteredSortedData st = Throws <-> In Undefined (students st).
Proof.
  unfold filteredSortedData, annotate, map.
  rewrite <- (filterRows_throws (searchTerm st) (students st) 0).
  destruct (filterRows _ _); split; congruence.
Qed.

End RowsOfTheView.

(** ** Trimming *)

Lemma trimEnd_head (c : ascii) (s : string) :
  isWhiteSpace c = false -> trimEnd (String c s) = String c (trimEnd s).
Proof.
  intros H. cbn [trimEnd]. rewrite H. destruct (trimEnd s); reflexivity.
Qed.

Lemma trimEnd_idempotent (s : string) : trimEnd (trimEnd s) = trimEnd s.
Proof.
  induction s as [|c s IH]; [reflexivity |].
  cbn [trimEnd]. destruct (trimEnd s) as [|a t] eqn:E.
  - destruct (isWhiteSpace c) eqn:Ec; [reflexivity |].
    cbn [trimEnd]. rewrite Ec. reflexivity.
  - cbn [trimEnd] in *. rewrite IH. reflexivity.
Qed.

Lemma trimStart_head (s : string) :
  trimStart s = EmptyString
  \/ exists c r, trimStart s = String c r /\ isWhiteSpace c = false.
Proof.
  induction s as [|c s IH]; [left; reflexivity |].
  cbn [trimStart]. destruct (isWhiteSpace c) eqn:E; [exact IH |].
  right. eauto.
Qed.

Lemma trim_idempotent (s : string) : trim (trim s) = trim s.
Proof.
  unfold trim. destruct (trimStart_head s) as [-> | [c [r [-> Hc]]]];
    [reflexivity |].
  rewrite trimEnd_head by exact Hc. cbn [trimStart]. rewrite Hc.
  rewrite trimEnd_head by exact Hc. rewrite trimEnd_idempotent. reflexivity.
Qed.

Lemma trimEnd_last (s : string) (c : ascii) :
  isWhiteSpace c = false ->
  trimEnd (s ++ String c EmptyString) = (s ++ String c EmptyString)%string.
Proof.
  intros Hc. induction s as [|a s IH]; cbn [String.append trimEnd].
  - rewrite Hc. reflexivity.
  - cbn [String.append] in IH. rewrite IH.
    destruct s; reflexivity.
Qed.

Lemma isDigit_not_white (c : ascii) : isDigit c = true -> isWhiteSpace c = false.
Proof.
  unfold isDigit, isWhiteSpace. cbv zeta. intros H.
  apply Bool.andb_true_iff in H. destruct H as [H1 H2].
  apply Z.leb_le in H1. apply Z.leb_le in H2.
  destruct (Z.leb_spec 9 (code c)), (Z.leb_spec (code c) 13),
    (Z.eqb_spec (code c) 32), (Z.eqb_spec (code c) 160); cbn; lia || reflexivity.
Qed.

(** ** Reading a decimal string *)

Lemma digitValue_digit (c : ascii) :
  isDigit c = true -> digitValue 10 c = Some (code c - 48).
Proof.
  unfold isDigit, digitValue. cbv zeta. intros H. rewrite H.
  apply Bool.andb_true_iff in H. destruct H as [H1 H2].
  apply Z.leb_le in H1. apply Z.leb_le in H2.
  destruct (Z.ltb_spec (code c - 48) 10); [reflexivity | lia].
Qed.

Lemma readDigits_digits (ds rest : string) :
  allChars isDigit ds = true ->
  match rest with
  | String c _ => digitValue 10 c = None
  | EmptyString => True
  end ->
  forall acc len,
    readDigits 10 (ds ++ rest) acc len
    = (digitsValue acc ds, len + Z.of_nat (String.length ds), rest).
Proof.
  intros Hds Hrest. induction ds as [|c ds IH]; intros acc len.
  - cbn [String.append digitsValue String.length]. rewrite Z.add_0_r.
    destruct rest as [|c r]; [reflexivity |]. cbn [readDigits]. rewrite Hrest.
    reflexivity.
  - cbn [allChars] in Hds. apply Bool.andb_true_iff in Hds.
    destruct Hds as [Hc Hds].
    cbn [String.append readDigits digitsValue String.length].
    rewrite digitValue_digit by exact Hc. rewrite (IH Hds). f_equal. f_equal. lia.
Qed.

Lemma parseUnsignedDecimal_fixed (ip frac : string) :
  (1 <= String.length ip)%nat ->
  allChars isDigit (ip ++ frac) = true ->
  parseUnsignedDecimal (ip ++ String "." frac)
  = Some (inject_Z (digitsValue 0 (ip ++ frac))
          * pow10 (0 - (0 + Z.of_nat (String.length frac))))%Q.
Proof.
  intros Hip Hd. rewrite allChars_append in Hd.
  apply Bool.andb_true_iff in Hd. destruct Hd as [Hd1 Hd2].
  unfold parseUnsignedDecimal.
  rewrite (readDigits_digits ip (String "." frac) Hd1 eq_refl).
  cbv iota beta.
  rewrite <- (append_empty_r frac) at 1.
  rewrite (readDigits_digits frac EmptyString Hd2 I).
  cbv iota beta. rewrite digitsValue_append.
  destruct (Z.ltb_spec 0 (0 + Z.of_nat (String.length ip))); [| lia].
  reflexivity.
Qed.

(** A string that starts with a digit, goes on with a digit or a point and
    has no white space at its ends is read as a decimal literal. *)
Lemma ofString_decimal (c0 : ascii) (rest : string) :
  isDigit c0 = true ->
  match rest with
  | String c _ => isDigit c = true \/ c = "."%char
  | EmptyString => True
  end ->
  trim (String c0 rest) = String c0 rest ->
  ofString (String c0 rest)
  = match parseUnsignedDecimal (String c0 rest) with
    | Some q => round64 q
    | None => NaN
    end.
Proof.
  intros H0 Hrest Htrim. unfold ofString. rewrite Htrim.
  assert (Hnext :
    match rest with
    | String c _ =>
        (code c =? 120) || (code c =? 88) = false
        /\ (code c =? 111) || (code c =? 79) = false
        /\ (code c =? 98) || (code c =? 66) = false
    | EmptyString => True
    end).
  { destruct rest as [|c t]; [exact I |].
    destruct Hrest as [Hc | ->]; [| repeat split; reflexivity].
    unfold isDigit in Hc. apply Bool.andb_true_iff in Hc.
    destruct Hc as [H1 H2]. apply Z.leb_le in H1. apply Z.leb_le in H2.
    repeat split; apply Bool.orb_false_iff; split; apply Z.eqb_neq; lia. }
  set (u := parseUnsignedDecimal (String c0 rest)).
  destruct c0 as [[] [] [] [] [] [] [] []];
    try (vm_compute in H0; discriminate H0);
    unfold parseDecimal; cbn [String.eqb Ascii.eqb Bool.eqb];
    try reflexivity.
  destruct rest as [|c t]; [reflexivity |].
  destruct Hnext as [-> [-> ->]]. reflexivity.
Qed.

Lemma ofString_fixed (ip frac : string) :
  (1 <= String.length ip)%nat ->
  String.length frac = 2%nat ->
  allChars isDigit (ip ++ frac) = true ->
  ofString (ip ++ String "." frac)
  = round64 (inject_Z (digitsValue 0 (ip ++ frac)) * pow10 (-2)).
Proof.
  intros Hip Hfrac Hd.
  pose proof (parseUnsignedDecimal_fixed ip frac Hip Hd) as Hparse.
  rewrite Hfrac in Hparse. change (0 - (0 + Z.of_nat 2)) with (-2) in Hparse.
  pose proof Hd as Hd'. rewrite allChars_append in Hd'.
  apply Bool.andb_true_iff in Hd'. destruct Hd' as [Hd1 Hd2].
  destruct ip as [|c0 ip']; [cbn in Hip; lia |].
  destruct frac as [|d1 [|d2 [|? ?]]]; try discriminate Hfrac.
  cbn [allChars] in Hd1, Hd2.
  apply Bool.andb_true_iff in Hd1. destruct Hd1 as [Hc0 Hip'].
  apply Bool.andb_true_iff in Hd2. destruct Hd2 as [Hd1 Hd2].
  apply Bool.andb_true_iff in Hd2. destruct Hd2 as [Hd2 _].
  cbn [String.append] in *.
  rewrite ofString_decimal.
  - rewrite Hparse. reflexivity.
  - exact Hc0.
  - destruct ip' as [|c1 ip'']; cbn [String.append]; [right; reflexivity |].
    left. cbn [allChars] in Hip'. apply Bool.andb_true_iff in Hip'. tauto.
  - unfold trim. cbn [trimStart]. rewrite isDigit_not_white by exact Hc0.
    change (String c0 (ip' ++ String "." (String d1 (String d2 EmptyString))))
      with (String c0 (ip' ++ String "." (String d1 EmptyString
                                            ++ String d2 EmptyString)))%string.
    change (String "." (String d1 EmptyString ++ String d2 EmptyString))%string
      with (String "." (String d1 EmptyString) ++ String d2 EmptyString)%string.
    rewrite <- append_assoc.
    change (String c0 ((ip' ++ String "." (String d1 EmptyString))
                       ++ String d2 EmptyString))%string
      with (String c0 (ip' ++ String "." (String d1 EmptyString))
            ++ String d2 EmptyString)%string.
    apply trimEnd_last. apply isDigit_not_white. exact Hd2.
Qed.

(** ** What the checks of [handleSubmit] establish *)

Lemma mapFrom_ofList {A B} (g : option A -> B) (k : Z) (l : list A) :
  mapFrom (fun m _ => g m) k (ofList l)
  = ofList (List.map (fun x => g (Some x)) l).
Proof.
  revert k. unfold ofList. induction l as [|x l IH]; intros k; [reflexivity |].
  cbn [List.map mapFrom slotValue]. rewrite IH. reflexivity.
Qed.

Lemma some_ofList {A} (p : option A -> bool) (l : list A) :
  some p (ofList l) = existsb (fun x => p (Some x)) l.
Proof.
  unfold ofList. induction l as [|x l IH]; [reflexivity |].
  cbn [List.map some slotValue existsb]. rewrite IH. reflexivity.
Qed.

Lemma inRange_of_check (x : number) :
  markOutOfRange (Some x) = false -> exists q, x = Fin q /\ inRange q.
Proof.
  unfold markOutOfRange, orNaN, gt.
  intros H. apply Bool.orb_false_iff in H. destruct H as [H H3].
  apply Bool.orb_false_iff in H. destruct H as [H1 H2].
  destruct x as [|[]|q]; try discriminate.
  exists q. split; [reflexivity |]. cbn in H2, H3.
  apply Bool.negb_false_iff in H2, H3.
  apply Qle_bool_iff in H2, H3. split; assumption.
Qed.

Lemma validMarks_of_check (ms : list string) :
  List.length ms = 5%nat ->
  some markOutOfRange (map (fun m _ => markToNumber m) (ofList ms)) = false ->
  validMarks (map (fun m _ => markToNumber m) (ofList ms)).
Proof.
  intros Hlen. unfold map. rewrite mapFrom_ofList, some_ofList.
  change (fun x : string => markToNumber (Some x)) with ofString.
  intros H.
  assert (Hqs : exists qs, List.map ofString ms = List.map Fin qs
                           /\ List.length qs = List.length ms
                           /\ Forall inRange qs).
  { clear Hlen. induction ms as [|m ms IH].
    - exists []. repeat split. constructor.
    - cbn [List.map existsb] in H. apply Bool.orb_false_iff in H.
      destruct H as [Hm H]. destruct (IH H) as [qs [E [L F]]].
      destruct (inRange_of_check _ Hm) as [q [Eq Hq]].
      exists (q :: qs). cbn [List.map List.length]. rewrite E, Eq, L.
      repeat split. constructor; assumption. }
  destruct Hqs as [qs [E [L F]]]. exists qs. rewrite E.
  repeat split; [congruence | exact F].
Qed.

Lemma validAge_of_check (age : string) :
  isNaN (ofString age) || le (ofString age) (Fin 0)
  || gt (ofString age) (Fin 100) = false ->
  validAge age.
Proof.
  unfold validAge, gt. intros H.
  apply Bool.orb_false_iff in H. destruct H as [H H3].
  apply Bool.orb_false_iff in H. destruct H as [H1 H2].
  destruct (ofString age) as [|[]|a]; try discriminate.
  exists a. split; [reflexivity |]. cbn in H2, H3.
  apply Bool.negb_false_iff in H3. apply Qle_bool_iff in H3.
  split; [| exact H3].
  apply Qnot_le_lt. intros Hle. apply Qle_bool_iff in Hle. congruence.
Qed.

(** A draft of five marks that passes the four checks gives a valid
    record. *)
Lemma studentOf_valid (st : State) (ms : list string) :
  marks st = ofList ms -> List.length ms = 5%nat ->
  checkName st = false -> checkMarks st = false -> checkAge st = false ->
  validRecord (studentOf st).
Proof.
  intros Hms Hlen Hn Hm Ha. unfold validRecord, studentOf.
  cbn [Student.name Student.age Student.marks Student.percentage
       Student.division].
  unfold checkName in Hn. apply Bool.negb_false_iff in Hn.
  unfold checkMarks in Hm. rewrite Hms in Hm |- *.
  repeat split.
  - exact Hn.
  - apply trim_idempotent.
  - apply validAge_of_check. exact Ha.
  - apply validMarks_of_check; assumption.
Qed.

(** ** The percentage string read back as a number *)

Lemma round64_not_NaN (q : Q) : isNaN (round64 q) = false.
Proof.
  unfold round64, roundMagnitude.
  destruct (Qnum q); [reflexivity | |];
    destruct (2 ^ 1024 <=? _); reflexivity.
Qed.

Lemma hundredths_bound (x : Q) :
  (0 <= x)%Q -> (x <= 100 + percentError)%Q ->
  0 <= nearestScaled 2 x <= 10000.
Proof.
  intros H0 H1. split; [apply nearestScaled_near; exact H0 |].
  unfold nearestScaled. change (inject_Z (10 ^ Z.of_nat 2)) with 100%Q.
  set (y := (x * 100 + (1 # 2))%Q).
  pose proof (Qfloor_le y) as Hf.
  assert (Hy : (inject_Z (Qfloor y) < inject_Z 10001)%Q).
  { eapply Qle_lt_trans; [exact Hf |]. unfold y, percentError in *.
    change (inject_Z 10001) with 10001%Q. lra. }
  rewrite <- Zlt_Qlt in Hy. lia.
Qed.

(** The percentage of five valid marks: its hundredths [n] are at most
    10000, and the string reads back as the binary64 value of [n / 100]. *)
Lemma percentage_hundredths (qs : list Q) :
  List.length qs = 5%nat -> Forall inRange qs ->
  exists (n : Z) (ip frac : string),
    calculatePercentage (ofList (List.map Fin qs))
    = (ip ++ String "." frac)%string
    /\ (1 <= String.length ip)%nat /\ String.length frac = 2%nat
    /\ allChars isDigit (ip ++ frac) = true
    /\ digitsValue 0 (ip ++ frac) = n
    /\ 0 <= n <= 10000
    /\ ofString (calculatePercentage (ofList (List.map Fin qs)))
       = round64 (inject_Z n * pow10 (-2)).
Proof.
  intros Hlen Hqs.
  destruct (percentValue_near Hlen Hqs) as [x [Hx [Hx0 [Hx1 [Hlo Hhi]]]]].
  assert (Hb : (x <= 100 + percentError)%Q).
  { destruct (exactSum_bounds Hqs) as [_ Hs]. rewrite Hlen in Hs.
    change (inject_Z (Z.of_nat 5)) with 5%Q in Hs.
    unfold Qdiv in Hhi. change (/ 500)%Q with (1 # 500)%Q in Hhi.
    unfold percentError in *. lra. }
  pose proof (hundredths_bound Hx0 Hb) as Hn.
  destruct Hn as [Hn0 Hn1].
  destruct (fixedDigits_two Hn0) as [ip [frac [Hfmt [Hip [Hfrac [Hdig Hval]]]]]].
  exists (nearestScaled 2 x), ip, frac.
  rewrite calculatePercentage_unfold, Hx, (toFixed_small Hx0 Hx1), Hfmt.
  repeat split; try assumption.
  rewrite (ofString_fixed _ _ Hip Hfrac Hdig), Hval. reflexivity.
Qed.

Lemma hundredths_near (n : Z) :
  0 <= n <= 10000 ->
  exists r, round64 (inject_Z n * pow10 (-2)) = Fin r
            /\ (inject_Z n * (1 # 100) - eps <= r)%Q
            /\ (r <= inject_Z n * (1 # 100) + eps)%Q.
Proof.
  intros [H0 H1].
  change (pow10 (-2)) with (1 # 100)%Q.
  assert (Ha : (0 <= inject_Z n)%Q) by (rewrite <- (Zle_Qle 0); exact H0).
  assert (Hb : (inject_Z n <= inject_Z 10000)%Q) by (rewrite <- Zle_Qle; exact H1).
  change (inject_Z 10000) with 10000%Q in Hb.
  destruct (@round64_near (inject_Z n * (1 # 100))%Q) as [r [E [_ [Hlo Hhi]]]];
    [lra | lra |].
  exists r. repeat split; assumption.
Qed.

Lemma getDivision_of_hundredths (s : string) (n : Z) :
  0 <= n <= 10000 ->
  ofString s = round64 (inject_Z n * pow10 (-2)) ->
  getDivision (VString s) = divisionOfHundredths n.
Proof.
  intros Hn Hs. unfold getDivision, divisionOfHundredths, ToNumber.
  rewrite Hs.
  assert (Hth : forall t : Z,
             0 < t <= 100 ->
             round64 (inject_Z (100 * t) * pow10 (-2)) = Fin (inject_Z t) ->
             ge (round64 (inject_Z n * pow10 (-2))) (Fin (inject_Z t))
             = (100 * t <=? n)).
  { intros t Ht Hexact.
    destruct (Z.leb_spec (100 * t) n) as [Hle | Hlt].
    - destruct (Z.eq_dec n (100 * t)) as [-> | Hne].
      + rewrite Hexact. apply ge_Fin. apply Qle_refl.
      + destruct (hundredths_near Hn) as [r [-> [Hlo _]]].
        apply ge_Fin.
        assert (Hq : (inject_Z (100 * t + 1) <= inject_Z n)%Q)
          by (rewrite <- Zle_Qle; lia).
        rewrite inject_Z_plus, inject_Z_mult in Hq.
        change (inject_Z 100) with 100%Q in Hq.
        change (inject_Z 1) with 1%Q in Hq.
        unfold eps in Hlo. lra.
    - destruct (hundredths_near Hn) as [r [-> [_ Hhi]]].
      apply ge_Fin_false.
      assert (Hq : (inject_Z (n + 1) <= inject_Z (100 * t))%Q)
        by (rewrite <- Zle_Qle; lia).
      rewrite inject_Z_plus, inject_Z_mult in Hq.
      change (inject_Z 100) with 100%Q in Hq.
      change (inject_Z 1) with 1%Q in Hq.
      unfold eps in Hhi. lra. }
  change (Fin 60) with (Fin (inject_Z 60)).
  change (Fin 50) with (Fin (inject_Z 50)).
  change (Fin 35) with (Fin (inject_Z 35)).
  rewrite (Hth 60), (Hth 50), (Hth 35);
    try lia; try (vm_compute; reflexivity).
Qed.

Lemma validRecord_wellFormed (s : Student.t) : validRecord s -> wellFormed s.
Proof.
  intros [_ [_ [_ [[qs [Hm [Hlen Hqs]]] [Hp Hd]]]]]. split.
  - rewrite Hd. unfold getDivision, divisionLabels.
    destruct (ge _ (Fin 60)); [cbn; tauto |].
    destruct (ge _ (Fin 50)); [cbn; tauto |].
    destruct (ge _ (Fin 35)); cbn; tauto.
  - rewrite Hp, Hm.
    destruct (percentage_hundredths Hlen Hqs)
      as [n [ip [frac [_ [_ [_ [_ [_ [_ ->]]]]]]]]].
    apply round64_not_NaN.
Qed.

(** ** Events of the page *)

Section PageEvents.

Context {host : Host}.

Lemma consistent_frame (st st' : State) :
  consistent st ->
  marks st' = marks st -> students st' = students st ->
  sortKey st' = sortKey st ->
  consistent st'.
Proof.
  unfold consistent. intros H Hm Hs Hk. rewrite Hm, Hs, Hk. exact H.
Qed.

Lemma consistent_setMark (st : State) (n : nat) (i : Z) (value : string) :
  consistent st ->
  nth_error (indicesFrom 0 (marks st)) n = Some i ->
  consistent
    (mkState (name st) (age st) (set (spread (marks st)) i value)
       (students st) (editIndex st) (searchTerm st) (sortKey st)).
Proof.
  intros [[ms [Hms Hlen]] [Hrec Hkey]] Hi. rewrite Hms in Hi |- *.
  destruct (@indicesFrom_ofList _ _ _ _ _ Hi) as [-> Hn].
  split; [| split; assumption]. cbn [marks].
  rewrite spread_ofList, set_ofList by (unfold maxLength; lia).
  eexists. split; [reflexivity |].
  rewrite length_replaceNth by lia. exact Hlen.
Qed.

Lemma consistent_emptyMarks :
  exists ms, emptyMarks = ofList ms /\ List.length ms = 5%nat.
Proof. eexists. split; reflexivity. Qed.

Lemma consistent_submit (st : State) :
  consistent st ->
  exists st', runEffects st (handleSubmit st) = Returns st' /\ consistent st'.
Proof.
  intros Hc. pose proof Hc as [[ms [Hms Hlen]] [Hrec Hkey]].
  rewrite handleSubmit_cascade.
  destruct (checkMissing st); [exists st; split; [reflexivity | exact Hc] |].
  destruct (checkName st) eqn:En; [exists st; split; [reflexivity | exact Hc] |].
  destruct (checkMarks st) eqn:Em; [exists st; split; [reflexivity | exact Hc] |].
  destruct (checkAge st) eqn:Ea; [exists st; split; [reflexivity | exact Hc] |].
  pose proof (@studentOf_valid st ms Hms Hlen En Em Ea) as Hv.
  destruct (editIndex st) as [i|] eqn:Ei.
  - eexists. split; [cbn [runEffects reducer]; reflexivity |].
    split; [exact consistent_emptyMarks |]. split; [| exact Hkey].
    cbn [students]. rewrite Ei. cbn [setKey]. intros s Hs.
    apply In_set in Hs. destruct Hs as [-> | Hs]; [exact Hv |].
    apply Hrec. apply In_spread. exact Hs.
  - eexists. split; [cbn [runEffects reducer]; reflexivity |].
    split; [exact consistent_emptyMarks |]. split; [| exact Hkey].
    cbn [students]. intros s Hs. apply in_app_iff in Hs.
    destruct Hs as [Hs | [Hs | []]].
    + apply Hrec. apply In_spread. exact Hs.
    + inversion Hs. subst s. exact Hv.
Qed.

Lemma consistent_edit (st : State) (rows : list Row) (row : Row) :
  consistent st ->
  filteredSortedData st = Returns rows -> In row rows ->
  exists st',
    reducer st (EDIT_STUDENT (originalIndex row)) = Returns st'
    /\ consistent st'.
Proof.
  intros [_ [Hrec Hkey]] Hrows Hin.
  destruct (@row_points_back _ _ _ _ Hrows Hin) as [Hget [_ [Hnth _]]].
  eexists. split; [cbn [reducer]; rewrite Hget; reflexivity |].
  split; [| split; assumption]. cbn [marks].
  apply nth_error_In in Hnth.
  destruct (Hrec _ Hnth) as [_ [_ [_ [[qs [-> [Hlen _]]] _]]]].
  unfold map. rewrite mapFrom_ofList. eexists. split; [reflexivity |].
  rewrite !length_map. exact Hlen.
Qed.

Lemma consistent_delete (st : State) (i : Z) :
  consistent st ->
  consistent
    (mkState (name st) (age st) (marks st)
       (filter (fun _ j => negb (j =? i)) (students st))
       (editIndex st) (searchTerm st) (sortKey st)).
Proof.
  intros [Hms [Hrec Hkey]]. split; [exact Hms |]. split; [| exact Hkey].
  cbn [students]. intros s Hs. apply Hrec.
  unfold filter in Hs. eapply In_filterFrom. exact Hs.
Qed.

Lemma fire_consistent (st : State) (e : Event) (res : result State) :
  consistent st -> fire st e = Some res ->
  exists st', res = Returns st' /\ consistent st'.
Proof.
  intros Hc. unfold fire, handler.
  destruct (filteredSortedData st) as [rows|] eqn:Hrows; [| discriminate].
  destruct e as [v | v | n v | v | n | | k | k].
  - intros H. inversion H. eexists. split; [reflexivity |].
    eapply consistent_frame; [exact Hc | reflexivity ..].
  - intros H. inversion H. eexists. split; [reflexivity |].
    eapply consistent_frame; [exact Hc | reflexivity ..].
  - destruct (nth_error (indicesFrom 0 (marks st)) n) as [i|] eqn:Hi;
      [| discriminate].
    intros H. inversion H. eexists. split; [reflexivity |].
    eapply consistent_setMark; eassumption.
  - intros H. inversion H. eexists. split; [reflexivity |].
    eapply consistent_frame; [exact Hc | reflexivity ..].
  - destruct (nth_error sortOptions n) as [v|] eqn:Hv; [| discriminate].
    intros H. inversion H. eexists. split; [reflexivity |].
    destruct Hc as [Hms [Hrec _]]. split; [exact Hms |].
    split; [exact Hrec |]. cbn [sortKey]. eapply nth_error_In. exact Hv.
  - intros H. injection H as <-. apply consistent_submit. exact Hc.
  - destruct (nth_error rows k) as [row|] eqn:Hk; [| discriminate].
    intros H. injection H as <-. apply nth_error_In in Hk.
    destruct (@consistent_edit _ _ _ Hc Hrows Hk) as [st' [Hst' Hc']].
    exists st'. cbn [reducer] in Hst'. rewrite Hst'. split; [reflexivity | exact Hc'].
  - destruct (nth_error rows k) as [row|] eqn:Hk; [| discriminate].
    intros H. inversion H. eexists. split; [reflexivity |].
    apply consistent_delete. exact Hc.
Qed.

Lemma run_consistent (events : list Event) :
  forall (st : State) (res : result State),
    consistent st -> run st events = Some res ->
    exists st', res = Returns st' /\ consistent st'.
Proof.
  induction events as [|e events IH]; intros st res Hc; cbn [run].
  - intros H. inversion H. eauto.
  - destruct (fire st e) as [r|] eqn:Hf; [| discriminate].
    destruct (@fire_consistent _ _ _ Hc Hf) as [st' [-> Hc']].
    apply IH. exact Hc'.
Qed.

End PageEvents.

(** ** The buttons of a table row *)

(** The [Edit] button of a displayed row, whatever the search and the sort
    key: the row's index names the row's own record in [students], and the
    click loads that record into the draft and opens the edit at that
    index; the list, the search term and the sort key stay. *)
Theorem edit_button_loads_its_row
  {host : Host} (st : State) (rows : list Row) (k : nat) (row : Row) :
  filteredSortedData st = Returns rows ->
  nth_error rows k = Some row ->
  get (students st) (originalIndex row) = Some (student row)
  /\ matches (searchTerm st) row = true
  /\ fire st (ClickEdit k)
     = Some (Returns
               (mkState (Student.name (student row))
                  (Student.age (student row))
                  (map (fun m _ => markToString m)
                     (Student.marks (student row)))
                  (students st) (Some (originalIndex row))
                  (searchTerm st) (sortKey st))).
Proof.
  intros Hrows Hk.
  destruct (@row_points_back _ _ _ _ Hrows (nth_error_In _ _ Hk))
    as [Hget [_ [_ Hm]]].
  split; [exact Hget |]. split; [exact Hm |].
  unfold fire, handler. rewrite Hrows, Hk.
  cbn [runEffects reducer]. rewrite Hget. reflexivity.
Qed.

Lemma edit_button_loads_its_row_witness :
  fire (stateAB "b" "percentage") (ClickEdit 0)
  = Some (Returns
            (mkState "B" "20" (ofList ["40"; "40"; "40"; "40"; "40"]%string)
               (ofList [Samples.studentA; Samples.studentB]) (Some 1)
               "b" "percentage")).
Proof.
  exact (proj2 (proj2
    (@edit_button_loads_its_row codeUnitHost (stateAB "b" "percentage")
       [mkRow Samples.studentB 1] 0 (mkRow Samples.studentB 1)
       eq_refl eq_refl))).
Defined.

(** The [Delete] button of a displayed row, on a list of records: the
    click removes from the list exactly the record the row displays, and
    nothing else in the state changes. *)
Theorem delete_button_removes_its_row
  {host : Host} (st : State) (l : list Student.t) (rows : list Row)
  (k : nat) (row : Row) :
  students st = ofList l ->
  filteredSortedData st = Returns rows ->
  nth_error rows k = Some row ->
  nth_error l (Z.to_nat (originalIndex row)) = Some (student row)
  /\ fire st (ClickDelete k)
     = Some (Returns
               (mkState (name st) (age st) (marks st)
                  (ofList (removeAt (Z.to_nat (originalIndex row)) l))
                  (editIndex st) (searchTerm st) (sortKey st))).
Proof.
  intros Hl Hrows Hk.
  destruct (@row_points_back _ _ _ _ Hrows (nth_error_In _ _ Hk))
    as [_ [Hi [Hnth _]]].
  split.
  - rewrite Hl in Hnth. unfold ofList in Hnth. rewrite nth_error_map in Hnth.
    destruct (nth_error l (Z.to_nat (originalIndex row))) as [s|];
      [| discriminate].
    cbn in Hnth. inversion Hnth. reflexivity.
  - unfold fire, handler. rewrite Hrows, Hk.
    cbn [runEffects reducer]. unfold filter.
    rewrite Hl, filterFrom_ofList_remove by lia.
    rewrite Z.sub_0_r. reflexivity.
Qed.

Lemma delete_button_removes_its_row_witness :
  fire (stateAB "b" "percentage") (ClickDelete 0)
  = Some (Returns
            (mkState EmptyString EmptyString emptyMarks
               (ofList [Samples.studentA]) None "b" "percentage")).
Proof.
  exact (proj2
    (@delete_button_removes_its_row codeUnitHost (stateAB "b" "percentage")
       [Samples.studentA; Samples.studentB]
       [mkRow Samples.studentB 1] 0 (mkRow Samples.studentB 1)
       eq_refl eq_refl eq_refl)).
Defined.

(** ** When the view raises *)

(** Deriving the view raises exactly when the list holds [undefined] at
    some index; holes are passed over. *)
Theorem view_throws_iff_undefined_slot {host : Host} (st : State) :
  filteredSortedData st = Throws <-> In Undefined (students st).
Proof.
  unfold filteredSortedData, annotate, map.
  rewrite <- (filterRows_throws (searchTerm st) (students st) 0).
  destruct (filterRows _ _); split; congruence.
Qed.

(** The rows of the view, for a list that may have holes: when the view
    is derived, a record is displayed with an index exactly when the list
    holds that record at that index and its name matches the search; so no
    row is invented, none is lost, and a hole shifts no index. *)
Theorem view_rows_are_the_matching_records
  {host : Host} (st : State) (rows : list Row) :
  filteredSortedData st = Returns rows ->
  forall (s : Student.t) (i : Z),
    In (mkRow s i) rows
    <-> 0 <= i
        /\ nth_error (students st) (Z.to_nat i) = Some (Elem s)
        /\ matches (searchTerm st) (mkRow s i) = true.
Proof.
  intros Hrows s i. split.
  - intros Hin.
    destruct (@row_points_back _ _ _ _ Hrows Hin) as [_ [Hi [Hnth Hm]]].
    cbn [originalIndex student] in *. repeat split; [lia | assumption ..].
  - intros [Hi [Hnth Hm]].
    destruct (filteredSortedData_inv _ Hrows) as [kept [Hk ->]].
    apply In_sort.
    pose proof (filterRows_complete _ _ _ Hk _ Hnth) as Hc.
    replace (0 + Z.of_nat (Z.to_nat i)) with i in Hc by lia.
    exact (Hc Hm).
Qed.

Lemma view_rows_are_the_matching_records_witness :
  In (mkRow Samples.studentE 2)
    [mkRow Samples.studentC 0; mkRow Samples.studentE 2].
Proof.
  apply (@view_rows_are_the_matching_records codeUnitHost
           (mkState EmptyString EmptyString emptyMarks
              [Elem Samples.studentC; Hole; Elem Samples.studentE] None
              EmptyString "name")
           [mkRow Samples.studentC 0; mkRow Samples.studentE 2] eq_refl
           Samples.studentE 2).
  split; [lia |]. split; reflexivity.
Defined.

(** ** Writing outside the list *)

Lemma set_beyond {A} (l : list A) (i : Z) (v : A) :
  Z.of_nat (List.length l) <= i < maxLength ->
  set (ofList l) i v
  = ofList l ++ repeat Hole (Z.to_nat i - List.length l) ++ [Elem v].
Proof.
  intros Hi. unfold set.
  destruct (Z.ltb_spec i 0); [lia |].
  destruct (Z.leb_spec maxLength i); [lia |]. cbn [orb].
  rewrite length_ofList.
  destruct (Z.ltb_spec i (Z.of_nat (List.length l))); [lia | reflexivity].
Qed.

Lemma set_outside {A} (arr : array A) (i : Z) (v : A) :
  i < 0 \/ maxLength <= i -> set arr i v = arr.
Proof.
  intros Hi. unfold set.
  destruct (Z.ltb_spec i 0); [reflexivity |].
  destruct (Z.leb_spec maxLength i); [reflexivity | lia].
Qed.

(** [UPDATE_STUDENT] on a list of records when [editIndex] names none of
    them. With [editIndex] [null] or negative the payload is stored under a
    property that is no index: the list is as before and the record is
    lost. With [editIndex] at or past the length the list grows to
    [editIndex + 1] entries, holes between the old end and the record. In
    each case the draft is cleared and [editIndex] is [null]. *)
Theorem update_student_outside_the_list
  (st : State) (l : list Student.t) (r : Student.t) :
  students st = ofList l ->
  exists st',
    reducer st (UPDATE_STUDENT r) = Returns st'
    /\ name st' = EmptyString /\ age st' = EmptyString
    /\ marks st' = emptyMarks /\ editIndex st' = None
    /\ (editIndex st = None -> students st' = ofList l)
    /\ (forall i, editIndex st = Some i -> i < 0 -> students st' = ofList l)
    /\ (forall i, editIndex st = Some i ->
          Z.of_nat (List.length l) <= i < maxLength ->
          students st'
          = ofList l ++ repeat Hole (Z.to_nat i - List.length l) ++ [Elem r]
          /\ Z.of_nat (List.length (students st')) = i + 1).
Proof.
  intros Hl. eexists. split; [reflexivity |].
  cbn [name age marks editIndex students]. rewrite Hl, spread_ofList.
  do 4 (split; [reflexivity |]).
  split; [intros ->; reflexivity |].
  split; [intros i -> Hneg; apply set_outside; left; exact Hneg |].
  intros i -> Hi. cbn [setKey]. rewrite set_beyond by exact Hi.
  split; [reflexivity |].
  rewrite !length_app, repeat_length, length_ofList. cbn [List.length]. lia.
Qed.

Lemma update_student_outside_the_list_witness :
  exists st',
    reducer
      (mkState EmptyString EmptyString emptyMarks
         (ofList [Samples.studentA]) (Some 2) EmptyString "name")
      (UPDATE_STUDENT Samples.studentE) = Returns st'
    /\ students st' = [Elem Samples.studentA; Hole; Elem Samples.studentE].
Proof.
  destruct (@update_student_outside_the_list
              (mkState EmptyString EmptyString emptyMarks
                 (ofList [Samples.studentA]) (Some 2) EmptyString "name")
              [Samples.studentA] Samples.studentE eq_refl)
    as [st' [H1 [_ [_ [_ [_ [_ [_ H2]]]]]]]].
  exists st'. split; [exact H1 |].
  destruct (H2 2 eq_refl) as [H3 _]; [cbn; unfold maxLength; lia |].
  exact H3.
Defined.

Lemma filterRows_holes (term : string) (n : nat)
  (rest : array (option Student.t * Z)) :
  filterRows term (repeat Hole n ++ rest) = filterRows term rest.
Proof. induction n as [|n IH]; [reflexivity | exact IH]. Qed.

Lemma mapFrom_app {A B} (f : option A -> Z -> B) (a b : array A) (k : Z) :
  mapFrom f k (a ++ b)
  = mapFrom f k a ++ mapFrom f (k + Z.of_nat (List.length a)) b.
Proof.
  revert k. induction a as [|[| |x] a IH]; intros k;
    cbn [app mapFrom List.length].
  - rewrite Z.add_0_r. reflexivity.
  - rewrite IH. do 3 f_equal. lia.
  - rewrite IH. do 3 f_equal. lia.
  - rewrite IH. do 3 f_equal. lia.
Qed.

Lemma mapFrom_holes {A B} (f : option A -> Z -> B) (n : nat) (k : Z) :
  mapFrom f k (repeat Hole n) = repeat Hole n.
Proof.
  revert k. induction n as [|n IH]; intros k; [reflexivity |].
  cbn [repeat mapFrom]. rewrite IH. reflexivity.
Qed.

Lemma filterRows_app_returns (term : string)
  (a b : array (option Student.t * Z)) (ra rb : list Row) :
  filterRows term a = Returns ra -> filterRows term b = Returns rb ->
  filterRows term (a ++ b) = Returns (ra ++ rb).
Proof.
  revert ra. induction a as [|[| |[[s|] i]] a IH]; intros ra;
    cbn [app filterRows]; try discriminate.
  - intros H. inversion H. trivial.
  - apply IH.
  - destruct (filterRows term a) as [kept|]; [| discriminate].
    intros H Hb. inversion H. rewrite (IH kept eq_refl Hb).
    destruct (includes _ _); reflexivity.
Qed.

(** An edit saved after its record's index has left the list breaks the
    page. On a list of records with [editIndex] past the length,
    [UPDATE_STUDENT] leaves a hole, which the view still passes over; the
    next [ADD_STUDENT] copies the list, the hole becomes [undefined], and
    deriving the view raises. *)
Theorem stale_update_then_add_breaks_the_view
  {host : Host} (st : State) (l : list Student.t) (i : Z)
  (r r' : Student.t) :
  students st = ofList l ->
  editIndex st = Some i ->
  Z.of_nat (List.length l) < i < maxLength ->
  exists st1 st2 rows,
    reducer st (UPDATE_STUDENT r) = Returns st1
    /\ In Hole (students st1)
    /\ filteredSortedData st1 = Returns rows
    /\ reducer st1 (ADD_STUDENT r') = Returns st2
    /\ filteredSortedData st2 = Throws.
Proof.
  intros Hl Hi Hrange.
  assert (Hupd : setKey (spread (students st)) (editIndex st) r
                 = ofList l ++ repeat Hole (Z.to_nat i - List.length l)
                   ++ [Elem r]).
  { rewrite Hl, Hi, spread_ofList. cbn [setKey]. apply set_beyond. lia. }
  assert (Hhole : In Hole (repeat (@Hole Student.t)
                             (Z.to_nat i - List.length l))).
  { destruct (Z.to_nat i - List.length l)%nat eqn:E; [lia | left; reflexivity]. }
  destruct (filterRows (searchTerm st)
              (mapFrom (fun s k => (s, k))
                 (0 + Z.of_nat (List.length (ofList l))
                  + Z.of_nat (List.length
                       (repeat (@Hole Student.t) (Z.to_nat i - List.length l))))
                 [Elem r])) as [last|] eqn:Hlast;
    [| cbn in Hlast; discriminate].
  exists (mkState EmptyString EmptyString emptyMarks
            (setKey (spread (students st)) (editIndex st) r) None
            (searchTerm st) (sortKey st)).
  do 2 eexists. split; [reflexivity |].
  cbn [students]. rewrite Hupd.
  split; [rewrite !in_app_iff; tauto |].
  split.
  - unfold filteredSortedData. cbn [students searchTerm sortKey].
    unfold annotate, map.
    rewrite !mapFrom_app, mapFrom_holes.
    rewrite (filterRows_app_returns _ _ _ (filterRows_dense _ _ _)
               (eq_trans (filterRows_holes _ _ _) Hlast)).
    reflexivity.
  - split; [reflexivity |].
    apply filteredSortedData_throws. cbn [students].
    apply in_app_iff. left. apply Undefined_spread.
    right. rewrite !in_app_iff. tauto.
Qed.

Lemma stale_update_then_add_breaks_the_view_witness :
  exists st1 st2 rows,
    reducer
      (mkState EmptyString EmptyString emptyMarks
         (ofList [Samples.studentA]) (Some 2) EmptyString "name")
      (UPDATE_STUDENT Samples.studentE) = Returns st1
    /\ filteredSortedData st1 = Returns rows
    /\ reducer st1 (ADD_STUDENT Samples.studentB) = Returns st2
    /\ filteredSortedData st2 = Throws.
Proof.
  destruct (@stale_update_then_add_breaks_the_view codeUnitHost
              (mkState EmptyString EmptyString emptyMarks
                 (ofList [Samples.studentA]) (Some 2) EmptyString "name")
              [Samples.studentA] 2 Samples.studentE Samples.studentB
              eq_refl eq_refl)
    as [st1 [st2 [rows [H1 [_ [H2 [H3 H4]]]]]]].
  - cbn. unfold maxLength. lia.
  - exists st1, st2, rows. repeat split; assumption.
Defined.

(** The page reaches such a state by typing and clicking alone: there is
    a sequence of events, each on an element the page shows, that runs
    from the initial state without an error and leaves a state whose view
    raises. Three students are added, the third is opened for editing, the
    other two are deleted, the edit is saved, a fourth student is added. *)
Theorem page_reaches_a_view_that_throws :
  exists (events : list Event) (st : State),
    run (host := codeUnitHost) initialState events = Some (Returns st)
    /\ In Undefined (students st)
    /\ filteredSortedData (host := codeUnitHost) st = Throws.
Proof.
  exists staleEditScript. eexists.
  split; [vm_compute; reflexivity |].
  split; [right; left; reflexivity | vm_compute; reflexivity].
Qed.

(** ** The draft *)

(** [SET_MARK] on a draft with a mark at every index: an index of the
    draft replaces that mark and no other; an index at or past the length
    makes the draft longer, holes before the new mark; a negative index, or
    one that is no array index, leaves the marks as they are. The other
    fields stay. *)
Theorem set_mark_by_index
  (st : State) (ms : list string) (i : Z) (value : string) :
  marks st = ofList ms ->
  Z.of_nat (List.length ms) <= maxLength ->
  exists st',
    reducer st (SET_MARK i value) = Returns st'
    /\ name st' = name st /\ age st' = age st
    /\ students st' = students st /\ editIndex st' = editIndex st
    /\ searchTerm st' = searchTerm st /\ sortKey st' = sortKey st
    /\ (0 <= i < Z.of_nat (List.length ms) ->
        marks st' = ofList (replaceNth (Z.to_nat i) value ms)
        /\ List.length (marks st') = List.length ms
        /\ get (marks st') i = Some value
        /\ forall j, j <> i -> get (marks st') j = get (marks st) j)
    /\ (Z.of_nat (List.length ms) <= i < maxLength ->
        marks st'
        = ofList ms ++ repeat Hole (Z.to_nat i - List.length ms)
          ++ [Elem value])
    /\ (i < 0 \/ maxLength <= i -> marks st' = ofList ms).
Proof.
  intros Hms Hmax. eexists. split; [reflexivity |].
  cbn [name age marks students editIndex searchTerm sortKey].
  do 6 (split; [reflexivity |]).
  rewrite Hms, spread_ofList.
  split; [| split].
  - intros Hi. rewrite set_ofList by assumption.
    split; [reflexivity |].
    split; [rewrite length_ofList; apply length_replaceNth; lia |].
    split; [rewrite get_ofList by lia; apply nth_error_replaceNth_same; lia |].
    intros j Hj. destruct (Z.ltb_spec j 0) as [Hneg | Hpos].
    + rewrite !get_negative by assumption. reflexivity.
    + rewrite !get_ofList by lia. apply nth_error_replaceNth_other; lia.
  - intros Hi. apply set_beyond. exact Hi.
  - intros Hi. apply set_outside. exact Hi.
Qed.

Lemma set_mark_by_index_witness :
  exists st',
    reducer initialState (SET_MARK 2 "75") = Returns st'
    /\ marks st'
       = ofList [EmptyString; EmptyString; "75"%string; EmptyString;
                 EmptyString].
Proof.
  destruct (@set_mark_by_index initialState
              [EmptyString; EmptyString; EmptyString; EmptyString; EmptyString]
              2 "75" eq_refl)
    as [st' [H1 [_ [_ [_ [_ [_ [_ [H2 _]]]]]]]]].
  - cbn. unfold maxLength. lia.
  - exists st'. split; [exact H1 |].
    destruct H2 as [H2 _]; [cbn; lia | exact H2].
Defined.

(** [SET_FIELD] writes the field it names and no other, so the list, the
    marks and [editIndex] stay; a second [SET_FIELD] of the same field
    overrides the first, and two of different fields give the same state
    in either order. *)
Theorem set_field_laws (st : State) (f g : Field) (v w : string) :
  (exists st',
     reducer st (SET_FIELD f v) = Returns st'
     /\ fieldOf f st' = v
     /\ (g <> f -> fieldOf g st' = fieldOf g st)
     /\ marks st' = marks st /\ students st' = students st
     /\ editIndex st' = editIndex st)
  /\ runEffects st [Dispatch (SET_FIELD f v); Dispatch (SET_FIELD f w)]
     = reducer st (SET_FIELD f w)
  /\ (g <> f ->
      runEffects st [Dispatch (SET_FIELD f v); Dispatch (SET_FIELD g w)]
      = runEffects st [Dispatch (SET_FIELD g w); Dispatch (SET_FIELD f v)]).
Proof.
  split; [| split].
  - eexists. split; [reflexivity |].
    destruct f, g; cbn; repeat split; congruence.
  - destruct f; reflexivity.
  - destruct f, g; intros H; try reflexivity; congruence.
Qed.

Lemma set_field_laws_witness :
  runEffects initialState
    [Dispatch (SET_FIELD F_name "A"); Dispatch (SET_FIELD F_sortKey "division")]
  = runEffects initialState
      [Dispatch (SET_FIELD F_sortKey "division"); Dispatch (SET_FIELD F_name "A")].
Proof.
  apply (proj2 (proj2 (set_field_laws initialState F_name F_sortKey
                         "A" "division"))).
  discriminate.
Defined.

(** ** Division *)

(** [getDivision] gives one of the four labels, ["Fail"] for what is not a
    number, and a higher percentage never gives a lower division. *)
Theorem getDivision_monotone :
  (forall v, In (getDivision v) divisionLabels)
  /\ getDivision (VNumber NaN) = "Fail"%string
  /\ (forall p q,
        le p q = true ->
        divisionRank (getDivision (VNumber q))
        <= divisionRank (getDivision (VNumber p))).
Proof.
  split; [| split; [reflexivity |]].
  - intros v. unfold getDivision, divisionLabels.
    destruct (ge _ (Fin 60)); [cbn; tauto |].
    destruct (ge _ (Fin 50)); [cbn; tauto |].
    destruct (ge _ (Fin 35)); cbn; tauto.
  - intros p q Hpq. unfold getDivision, ToNumber, ge.
    assert (Hup : forall t, le t p = true -> le t q = true)
      by (intros t Ht; exact (le_trans _ _ _ Ht Hpq)).
    destruct (le (Fin 60) p) eqn:E60.
    { rewrite (Hup _ E60). cbn. lia. }
    destruct (le (Fin 50) p) eqn:E50.
    { rewrite (Hup _ E50). destruct (le (Fin 60) q); cbn; lia. }
    destruct (le (Fin 35) p) eqn:E35.
    { rewrite (Hup _ E35).
      destruct (le (Fin 60) q); [cbn; lia |].
      destruct (le (Fin 50) q); cbn; lia. }
    destruct (le (Fin 60) q); [cbn; lia |].
    destruct (le (Fin 50) q); [cbn; lia |].
    destruct (le (Fin 35) q); cbn; lia.
Qed.

Lemma getDivision_monotone_witness :
  divisionRank (getDivision (VNumber (Fin 75)))
  <= divisionRank (getDivision (VNumber (Fin 40))).
Proof.
  apply (proj2 (proj2 getDivision_monotone) (Fin 40) (Fin 75)).
  reflexivity.
Defined.

(** For five marks in [0, 100] the division [handleSubmit] stores is the
    one the percentage string itself falls in: the string spells some [n]
    hundredths with [n] at most 10000, and the division is first from
    ["60.00"], second from ["50.00"], pass from ["35.00"] and fail below,
    although [getDivision] is handed the string and not the number. *)
Theorem division_follows_the_displayed_percentage (qs : list Q) :
  List.length qs = 5%nat -> Forall inRange qs ->
  exists (n : Z) (ip frac : string),
    calculatePercentage (ofList (List.map Fin qs))
    = (ip ++ String "." frac)%string
    /\ String.length frac = 2%nat
    /\ digitsValue 0 (ip ++ frac) = n
    /\ 0 <= n <= 10000
    /\ getDivision (VString (calculatePercentage (ofList (List.map Fin qs))))
       = divisionOfHundredths n.
Proof.
  intros Hlen Hqs.
  destruct (percentage_hundredths Hlen Hqs)
    as [n [ip [frac [Hfmt [_ [Hfrac [_ [Hval [Hn Hread]]]]]]]]].
  exists n, ip, frac. repeat split; try assumption; try apply Hn.
  apply getDivision_of_hundredths; assumption.
Qed.

Lemma division_follows_the_displayed_percentage_witness :
  exists (n : Z) (ip frac : string),
    calculatePercentage (ofList (List.map Fin [60; 60; 60; 59; 60]%Q))
    = (ip ++ String "." frac)%string
    /\ digitsValue 0 (ip ++ frac) = n
    /\ getDivision
         (VString
            (calculatePercentage (ofList (List.map Fin [60; 60; 60; 59; 60]%Q))))
       = divisionOfHundredths n.
Proof.
  destruct (@division_follows_the_displayed_percentage
              [60; 60; 60; 59; 60]%Q eq_refl)
    as [n [ip [frac [H1 [_ [H2 [_ H3]]]]]]].
  - repeat constructor; unfold Qle; cbn; lia.
  - exists n, ip, frac. repeat split; assumption.
Defined.

(** ** Submissions that pass *)

Lemma checks_pass (st : State) :
  ~ Rules.violated st ->
  checkMissing st = false /\ checkName st = false
  /\ checkMarks st = false /\ checkAge st = false.
Proof.
  intros Hv. unfold Rules.violated in Hv.
  repeat split.
  - eapply not_true_false; [apply checkMissing_iff | tauto].
  - eapply not_true_false; [apply checkName_iff | tauto].
  - eapply not_true_false; [apply checkMarks_iff | tauto].
  - eapply not_true_false; [apply checkAge_iff | tauto].
Qed.

Lemma handleSubmit_accepted (st : State) :
  ~ Rules.violated st ->
  handleSubmit st =
  PreventDefault ::
  match editIndex st with
  | Some _ =>
      [Dispatch (UPDATE_STUDENT (studentOf st));
       ToastSuccess "Student updated!"]
  | None =>
      [Dispatch (ADD_STUDENT (studentOf st)); ToastSuccess "Student added!"]
  end.
Proof.
  intros Hv. destruct (checks_pass Hv) as [H1 [H2 [H3 H4]]].
  rewrite handleSubmit_cascade, H1, H2, H3, H4. reflexivity.
Qed.

Lemma ofList_app {A} (l l' : list A) : ofList (l ++ l') = ofList l ++ ofList l'.
Proof. unfold ofList. apply map_app. Qed.

(** A draft that violates no rule is stored, on a list of records: with
    no edit open the record built from the draft is appended; with an edit
    open at an index of the list it replaces the record there. The record
    has the trimmed name, the age as typed and the marks as numbers. Either
    way the draft is cleared, [editIndex] is [null] and a success toast is
    shown. *)
Theorem accepted_submission_stores_the_record
  (st : State) (l : list Student.t) :
  ~ Rules.violated st ->
  students st = ofList l ->
  Z.of_nat (List.length l) <= maxLength ->
  (forall ms, marks st = ofList ms -> List.length ms = 5%nat ->
              validRecord (studentOf st))
  /\ Student.name (studentOf st) = trim (name st)
  /\ Student.age (studentOf st) = age st
  /\ stored (Student.marks (studentOf st))
     = List.map (fun m => Some (markToNumber m)) (stored (marks st))
  /\ (editIndex st = None ->
      handleSubmit st
      = [PreventDefault; Dispatch (ADD_STUDENT (studentOf st));
         ToastSuccess "Student added!"]
      /\ submit st
         = Returns (mkState EmptyString EmptyString emptyMarks
                      (ofList (l ++ [studentOf st])) None
                      (searchTerm st) (sortKey st)))
  /\ (forall i,
        editIndex st = Some i -> 0 <= i < Z.of_nat (List.length l) ->
        handleSubmit st
        = [PreventDefault; Dispatch (UPDATE_STUDENT (studentOf st));
           ToastSuccess "Student updated!"]
        /\ submit st
           = Returns (mkState EmptyString EmptyString emptyMarks
                        (ofList (replaceNth (Z.to_nat i) (studentOf st) l))
                        None (searchTerm st) (sortKey st))).
Proof.
  intros Hv Hl Hmax. pose proof (handleSubmit_accepted Hv) as Hs.
  split.
  { intros ms Hms Hlen. destruct (checks_pass Hv) as [_ [H2 [H3 H4]]].
    exact (@studentOf_valid st ms Hms Hlen H2 H3 H4). }
  split; [reflexivity |]. split; [reflexivity |].
  split; [apply stored_mapFrom |].
  split.
  - intros Hi. rewrite Hi in Hs. split; [exact Hs |].
    unfold submit. rewrite Hs. cbn [runEffects reducer].
    rewrite Hl, spread_ofList, ofList_app. reflexivity.
  - intros i Hi Hrange. rewrite Hi in Hs. split; [exact Hs |].
    unfold submit. rewrite Hs. cbn [runEffects reducer].
    rewrite Hl, Hi, spread_ofList. cbn [setKey].
    rewrite set_ofList by assumption. reflexivity.
Qed.

Lemma accepted_submission_stores_the_record_witness :
  submit (draftState " Asha " "20" ["80"; "70"; "90"; "60"; "100"]%string)
  = Returns
      (mkState EmptyString EmptyString emptyMarks
         (ofList [Student.mk "Asha" "20"
                    (ofList [Fin 80; Fin 70; Fin 90; Fin 60; Fin 100])
                    "80.00" "First Division"])
         None EmptyString "name").
Proof.
  pose (st := draftState " Asha " "20" ["80"; "70"; "90"; "60"; "100"]%string).
  assert (Hok : ~ Rules.violated st).
  { intros H.
    assert (Hc : checkMissing st || checkName st || checkMarks st
                 || checkAge st = true).
    { destruct H as [H | [H | [H | H]]].
      - apply checkMissing_iff in H. rewrite H. reflexivity.
      - apply checkName_iff in H. rewrite H. apply Bool.orb_true_iff. left.
        apply Bool.orb_true_iff. left. apply Bool.orb_true_r.
      - apply checkMarks_iff in H. rewrite H. apply Bool.orb_true_iff. left.
        apply Bool.orb_true_r.
      - apply checkAge_iff in H. rewrite H. apply Bool.orb_true_r. }
    vm_compute in Hc. discriminate Hc. }
  destruct (@accepted_submission_stores_the_record st [] Hok eq_refl)
    as [_ [_ [_ [_ [H _]]]]].
  - cbn. unfold maxLength. lia.
  - exact (proj2 (H eq_refl)).
Defined.

(** ** Adding and deleting *)

Lemma removeAt_last {A} (l : list A) (x : A) :
  removeAt (List.length l) (l ++ [x]) = l.
Proof.
  unfold removeAt.
  rewrite firstn_app, Nat.sub_diag, firstn_all, app_nil_r.
  rewrite skipn_all2; [apply app_nil_r | rewrite length_app; cbn; lia].
Qed.

(** On a list of records, [ADD_STUDENT] and then [DELETE_STUDENT] of the
    last index give the list back; the draft that [ADD_STUDENT] cleared
    stays cleared. *)
Theorem add_then_delete_last_restores_list
  (st : State) (l : list Student.t) (r : Student.t) :
  students st = ofList l ->
  exists st1 st2,
    reducer st (ADD_STUDENT r) = Returns st1
    /\ reducer st1 (DELETE_STUDENT (Z.of_nat (List.length l))) = Returns st2
    /\ students st2 = students st
    /\ name st2 = EmptyString /\ age st2 = EmptyString
    /\ marks st2 = emptyMarks /\ editIndex st2 = None
    /\ searchTerm st2 = searchTerm st /\ sortKey st2 = sortKey st.
Proof.
  intros Hl. do 2 eexists. split; [reflexivity |]. split; [reflexivity |].
  cbn [students name age marks editIndex searchTerm sortKey].
  split; [| repeat split].
  rewrite Hl, spread_ofList.
  change [Elem r] with (ofList [r]). rewrite <- ofList_app.
  unfold filter. rewrite filterFrom_ofList_remove by lia.
  rewrite Z.sub_0_r, Nat2Z.id, removeAt_last. reflexivity.
Qed.

Lemma add_then_delete_last_restores_list_witness :
  exists st1 st2,
    reducer (Samples.withStudents Samples.five) (ADD_STUDENT Samples.studentA)
    = Returns st1
    /\ reducer st1 (DELETE_STUDENT 5) = Returns st2
    /\ students st2 = ofList Samples.five.
Proof.
  destruct (@add_then_delete_last_restores_list
              (Samples.withStudents Samples.five) Samples.five
              Samples.studentA eq_refl)
    as [st1 [st2 [H1 [H2 [H3 _]]]]].
  exists st1, st2. repeat split; assumption.
Defined.

(** ** Opening an edit and saving it unchanged *)

Lemma sameValue_eq (x y : number) : sameValue x y = true -> x = y.
Proof.
  destruct x as [|s|[a b]], y as [|t|[c d]]; cbn; try discriminate.
  - reflexivity.
  - intros H. apply Bool.eqb_prop in H. congruence.
  - intros H. apply Bool.andb_true_iff in H. destruct H as [H1 H2].
    apply Z.eqb_eq in H1. apply Pos.eqb_eq in H2. congruence.
Qed.

Lemma wholeMarks_checked :
  forallb
    (fun z =>
       sameValue (ofString (toString (Fin (inject_Z z)))) (Fin (inject_Z z))
       && negb (isEmpty (toString (Fin (inject_Z z)))))
    wholeMarks = true.
Proof. vm_compute. reflexivity. Qed.

(** A whole mark is printed and read back as itself. *)
Lemma whole_mark_round_trip (z : Z) :
  0 <= z <= 100 ->
  ofString (toString (Fin (inject_Z z))) = Fin (inject_Z z)
  /\ isEmpty (toString (Fin (inject_Z z))) = false.
Proof.
  intros Hz. pose proof wholeMarks_checked as H.
  rewrite forallb_forall in H.
  assert (Hin : In z wholeMarks).
  { unfold wholeMarks. apply in_map_iff. exists (Z.to_nat z).
    split; [lia | apply in_seq; lia]. }
  specialize (H z Hin). apply Bool.andb_true_iff in H. destruct H as [H1 H2].
  split; [apply sameValue_eq; exact H1 | apply Bool.negb_true_iff; exact H2].
Qed.

Lemma replaceNth_same {A} (n : nat) (x : A) (l : list A) :
  nth_error l n = Some x -> replaceNth n x l = l.
Proof.
  unfold replaceNth. revert n. induction l as [|y l IH]; intros [|n] H;
    try discriminate.
  - cbn in H. inversion H. reflexivity.
  - cbn in H. cbn [firstn skipn app]. f_equal. apply IH. exact H.
Qed.

Lemma validAge_checkAge (age : string) :
  validAge age ->
  isNaN (ofString age) || le (ofString age) (Fin 0)
  || gt (ofString age) (Fin 100) = false
  /\ isEmpty age = false.
Proof.
  intros [a [Ha [H0 H1]]]. split.
  - rewrite Ha. unfold gt. cbn [isNaN le lt orb].
    apply Bool.orb_false_iff. split.
    + destruct (Qle_bool a 0) eqn:E; [| reflexivity].
      apply Qle_bool_iff in E. exfalso. apply (Qlt_not_le _ _ H0). exact E.
    + apply Bool.negb_false_iff. apply Qle_bool_iff. exact H1.
  - destruct age; [| reflexivity]. exfalso.
    change (ofString EmptyString) with (Fin 0) in Ha. inversion Ha. subst a.
    revert H0. unfold Qlt. cbn. lia.
Qed.

Lemma whole_marks_pass (zs : list Z) :
  Forall (fun z => 0 <= z <= 100) zs ->
  List.map ofString (List.map (fun z => toString (Fin (inject_Z z))) zs)
  = List.map (fun z => Fin (inject_Z z)) zs
  /\ existsb (fun x => isEmptyMark (Some x))
       (List.map (fun z => toString (Fin (inject_Z z))) zs) = false
  /\ existsb (fun x => markOutOfRange (Some x))
       (List.map (fun z => Fin (inject_Z z)) zs) = false.
Proof.
  induction 1 as [|z zs Hz _ [IH1 [IH2 IH3]]]; [repeat split |].
  destruct (whole_mark_round_trip Hz) as [Hr He].
  cbn [List.map existsb]. rewrite IH1, IH2, IH3, Hr.
  cbn [isEmptyMark]. rewrite He.
  repeat split.
  unfold markOutOfRange, orNaN, gt. cbn [isNaN lt orb].
  rewrite Bool.orb_false_r. apply Bool.orb_false_iff.
  split; apply Bool.negb_false_iff; apply Qle_bool_iff;
    unfold Qle; cbn; lia.
Qed.

(** Opening a record for editing and submitting the form as loaded stores
    the record again unchanged. For a record the form built whose marks are
    whole numbers, on a list of records: [EDIT_STUDENT] loads a draft that
    passes every check, the record built from that draft is the record
    itself, and the submission leaves the list as it was, with the draft
    cleared and [editIndex] [null]. *)
Theorem edit_then_submit_keeps_the_record
  (st : State) (l : list Student.t) (i : Z) (r : Student.t) (zs : list Z) :
  students st = ofList l ->
  Z.of_nat (List.length l) <= maxLength ->
  0 <= i ->
  nth_error l (Z.to_nat i) = Some r ->
  validRecord r ->
  Student.marks r = ofList (List.map (fun z => Fin (inject_Z z)) zs) ->
  Forall (fun z => 0 <= z <= 100) zs ->
  exists st1,
    reducer st (EDIT_STUDENT i) = Returns st1
    /\ studentOf st1 = r
    /\ handleSubmit st1
       = [PreventDefault; Dispatch (UPDATE_STUDENT r);
          ToastSuccess "Student updated!"]
    /\ submit st1
       = Returns (mkState EmptyString EmptyString emptyMarks (students st)
                    None (searchTerm st) (sortKey st)).
Proof.
  intros Hl Hmax Hi Hnth [Hname [Htrim [Hage [_ [Hpct Hdiv]]]]] Hmarks Hzs.
  assert (Hlen : (Z.to_nat i < List.length l)%nat)
    by (apply nth_error_Some; congruence).
  assert (Hget : get (students st) i = Some r)
    by (rewrite Hl, get_ofList by lia; exact Hnth).
  destruct (whole_marks_pass Hzs) as [Hread [Hfilled Hrange]].
  destruct (validAge_checkAge Hage) as [Hcheck Hnonempty].
  set (strings := List.map (fun z => toString (Fin (inject_Z z))) zs) in *.
  set (st1 := mkState (Student.name r) (Student.age r) (ofList strings)
                (students st) (Some i) (searchTerm st) (sortKey st)).
  assert (Hst1 : reducer st (EDIT_STUDENT i) = Returns st1).
  { cbn [reducer]. rewrite Hget, Hmarks. unfold map.
    rewrite mapFrom_ofList, List.map_map. reflexivity. }
  assert (Hnums : map (fun m _ => markToNumber m) (marks st1) = Student.marks r).
  { cbn [marks st1]. unfold map. rewrite mapFrom_ofList.
    change (fun x : string => markToNumber (Some x)) with ofString.
    rewrite Hread, Hmarks. reflexivity. }
  assert (Hrec : studentOf st1 = r).
  { unfold studentOf. rewrite Hnums. cbn [name age st1].
    rewrite Htrim, <- Hpct, <- Hdiv. destruct r; reflexivity. }
  assert (Hsub : handleSubmit st1
                 = [PreventDefault; Dispatch (UPDATE_STUDENT r);
                    ToastSuccess "Student updated!"]).
  { rewrite handleSubmit_cascade, Hrec.
    unfold checkMissing, checkName, checkMarks, checkAge.
    rewrite Hnums. cbn [name age marks editIndex st1].
    rewrite Htrim, Hname, Hcheck, Hnonempty, Hmarks, !some_ofList, Hfilled,
      Hrange.
    destruct (Student.name r); [discriminate Hname | reflexivity]. }
  exists st1. split; [exact Hst1 |]. split; [exact Hrec |].
  split; [exact Hsub |].
  unfold submit. rewrite Hsub. cbn [runEffects reducer].
  cbn [students editIndex searchTerm sortKey st1].
  rewrite Hl, spread_ofList. cbn [setKey].
  rewrite set_ofList by lia. rewrite (replaceNth_same _ _ Hnth). reflexivity.
Qed.

Lemma edit_then_submit_keeps_the_record_witness :
  exists st1,
    reducer (Samples.withStudents Samples.five) (EDIT_STUDENT 1) = Returns st1
    /\ submit st1 = Returns (Samples.withStudents Samples.five).
Proof.
  destruct (@edit_then_submit_keeps_the_record
              (Samples.withStudents Samples.five) Samples.five 1
              Samples.studentB [40; 40; 40; 40; 40] eq_refl)
    as [st1 [H1 [_ [_ H2]]]].
  - cbn. unfold maxLength. lia.
  - lia.
  - reflexivity.
  - split; [reflexivity |]. split; [reflexivity |].
    split; [exists 20%Q; split; [vm_compute; reflexivity |];
            split; [reflexivity | unfold Qle; cbn; lia] |].
    split; [exists [40; 40; 40; 40; 40]%Q; split; [reflexivity |];
            split; [reflexivity |];
            repeat constructor; unfold Qle; cbn; lia |].
    split; vm_compute; reflexivity.
  - reflexivity.
  - repeat constructor; lia.
  - exists st1. split; [exact H1 | exact H2].
Defined.

(** ** States the page can be in *)

(** From a state whose draft has five marks, whose records are records the
    form builds and whose sort key is an option of the selector (the
    initial state is one), no sequence of events on elements the page shows
    makes the reducer throw, and the state it leaves is such a state again:
    every record has a trimmed name of letters and spaces, an age in
    (0, 100], five marks in [0, 100], the percentage of its marks and the
    division of its percentage; so its division is one of the four labels
    and its percentage reads as a number. *)
Theorem page_events_keep_the_state_consistent
  {host : Host} (st : State) (events : list Event) (res : result State) :
  consistent st ->
  run st events = Some res ->
  exists st',
    res = Returns st' /\ consistent st'
    /\ forall s, In (Elem s) (students st') -> wellFormed s.
Proof.
  intros Hc Hrun.
  destruct (@run_consistent _ events st res Hc Hrun) as [st' [E Hc']].
  exists st'. split; [exact E |]. split; [exact Hc' |].
  intros s Hs. apply validRecord_wellFormed. apply Hc'. exact Hs.
Qed.

Lemma page_events_keep_the_state_consistent_witness :
  exists st',
    run (host := codeUnitHost) initialState
      (typeStudent "A" "20" "80" "70" "90" "60" "100" ++ [ClickEdit 0])
    = Some (Returns st')
    /\ consistent st'.
Proof.
  pose (res :=
    match run (host := codeUnitHost) initialState
            (typeStudent "A" "20" "80" "70" "90" "60" "100" ++ [ClickEdit 0])
    with
    | Some r => r
    | None => Throws
    end).
  destruct (@page_events_keep_the_state_consistent codeUnitHost initialState
              (typeStudent "A" "20" "80" "70" "90" "60" "100" ++ [ClickEdit 0])
              res)
    as [st' [E [Hc _]]].
  - split; [eexists; split; reflexivity |].
    split; [intros s [] | left; reflexivity].
  - vm_compute. reflexivity.
  - exists st'. split; [| exact Hc]. rewrite <- E. vm_compute. reflexivity.
Defined.

(** ** Saving the list *)

(** Which transitions make the saving effect run. An action that sets a
    field or a mark, opens an edit or is not recognized keeps the reference
    of the list, so nothing is written to the storage; [ADD_STUDENT],
    [UPDATE_STUDENT] and [DELETE_STUDENT] put a new array in its place, so
    the list is written again, also when the deletion removed nothing;
    [SET_STUDENTS] puts the payload in its place. *)
Theorem list_is_saved_when_replaced
  (h : Heap.heap) (state : Heap.loc) (action : Heap.Action) (st : State)
  (state' : Heap.loc) (h' : Heap.heap) :
  stateAt h state = Some st ->
  Heap.reducer state action h = Returns (state', h') ->
  match action with
  | Heap.SET_FIELD _ _ | Heap.SET_MARK _ _ | Heap.EDIT_STUDENT _
  | Heap.OTHER _ =>
      savesAfter h' state state' = false
  | Heap.ADD_STUDENT _ | Heap.UPDATE_STUDENT _ | Heap.DELETE_STUDENT _ =>
      savesAfter h' state state' = true
      /\ studentsRef h' state' = Some (List.length h)
  | Heap.SET_STUDENTS payload =>
      studentsRef h' state' = Some payload
  end.
Proof.
  intros Hst.
  destruct (stateAt_inv _ _ Hst) as [s [ms [ss [Hs [Hms [Hss Heq]]]]]].
  assert (Hlt : (Heap.students s < List.length h)%nat)
    by (apply nth_error_Some; congruence).
  assert (Hne : Nat.eqb (Heap.students s) (List.length h) = false)
    by (apply Nat.eqb_neq; lia).
  destruct action as [f v | i v | p | r | r | i | i | t]; heap_step.
  - intros H. inversion H. unfold savesAfter, studentsRef. heap_read.
    destruct f; cbn [Heap.setField Heap.students]; rewrite Nat.eqb_refl;
      reflexivity.
  - intros H. inversion H. unfold savesAfter, studentsRef. heap_read.
    cbn [Heap.students]. rewrite Nat.eqb_refl. reflexivity.
  - intros H. inversion H. unfold studentsRef. heap_read. reflexivity.
  - intros H. inversion H. unfold savesAfter, studentsRef. heap_read.
    cbn [Heap.students]. rewrite Hne. split; reflexivity.
  - intros H. inversion H. unfold savesAfter, studentsRef. heap_read.
    cbn [Heap.students]. rewrite Hne. split; reflexivity.
  - intros H. inversion H. unfold savesAfter, studentsRef. heap_read.
    cbn [Heap.students]. rewrite Hne. split; reflexivity.
  - destruct (get ss i) as [student|]; [| discriminate].
    heap_step. intros H. inversion H. unfold savesAfter, studentsRef.
    heap_read. cbn [Heap.students]. rewrite Nat.eqb_refl. reflexivity.
  - intros H. inversion H. subst. unfold savesAfter, studentsRef. rewrite Hs.
    rewrite Nat.eqb_refl. reflexivity.
Qed.

Lemma list_is_saved_when_replaced_witness :
  exists state' h',
    Heap.reducer 2%nat (Heap.DELETE_STUDENT 7) sampleHeap = Returns (state', h')
    /\ savesAfter h' 2%nat state' = true
    /\ stateAt h' state' = Some (Samples.withStudents Samples.five).
Proof.
  pose (res := Heap.reducer 2%nat (Heap.DELETE_STUDENT 7) sampleHeap).
  exists 4%nat,
    (sampleHeap
     ++ [Heap.StudentArray (ofList Samples.five);
         Heap.StateObject
           (Heap.mkFields EmptyString EmptyString 0%nat 3%nat None
              EmptyString "name")]).
  split; [reflexivity |]. split; [| reflexivity].
  exact (proj1
    (@list_is_saved_when_replaced sampleHeap 2%nat (Heap.DELETE_STUDENT 7)
       (Samples.withStudents Samples.five) 4%nat _ eq_refl eq_refl)).
Defined.

(** ** A list with holes *)

Lemma filterFrom_app {A} (p : option A -> Z -> bool) (a b : array A) (k : Z) :
  filterFrom p k (a ++ b)
  = filterFrom p k a ++ filterFrom p (k + Z.of_nat (List.length a)) b.
Proof.
  revert k. induction a as [|[| |x] a IH]; intros k;
    cbn [app filterFrom List.length slotValue].
  - rewrite Z.add_0_r. reflexivity.
  - rewrite IH. do 2 f_equal. lia.
  - rewrite IH. replace (k + 1 + Z.of_nat (List.length a))
      with (k + Z.of_nat (S (List.length a))) by lia.
    destruct (p None k); reflexivity.
  - rewrite IH. replace (k + 1 + Z.of_nat (List.length a))
      with (k + Z.of_nat (S (List.length a))) by lia.
    destruct (p (Some x) k); reflexivity.
Qed.

Lemma filterFrom_holes {A} (p : option A -> Z -> bool) (n : nat) (k : Z) :
  filterFrom p k (repeat Hole n) = [].
Proof.
  revert k. induction n as [|n IH]; intros k; [reflexivity |].
  cbn [repeat filterFrom]. apply IH.
Qed.

Lemma filterFrom_ofList_miss {A} (t k : Z) (l : list A) :
  t < k \/ k + Z.of_nat (List.length l) <= t ->
  filterFrom (fun _ j => negb (j =? t)) k (ofList l) = ofList l.
Proof.
  intros [H | H].
  - apply filterFrom_ofList_skip. exact H.
  - rewrite filterFrom_ofList_remove by lia.
    rewrite removeAt_beyond by lia. reflexivity.
Qed.

Lemma get_hole {A} (a b : array A) (n : nat) (j : Z) :
  Z.of_nat (List.length a) <= j < Z.of_nat (List.length a) + Z.of_nat n ->
  get (a ++ repeat Hole n ++ b) j = None.
Proof.
  intros Hj. unfold get. destruct (Z.ltb_spec j 0); [reflexivity |].
  rewrite nth_error_app2 by lia.
  rewrite nth_error_app1 by (rewrite repeat_length; lia).
  rewrite nth_error_repeat by lia. reflexivity.
Qed.

(** A list with holes, as a stale update leaves it: records, then holes,
    then a record. The indices of the holes are below the length, yet
    [EDIT_STUDENT] at one of them throws; and [DELETE_STUDENT] with an
    index outside the list is not the identity: the holes are dropped, and
    the last record moves down to the end of the first ones. *)
Theorem holes_defeat_edit_and_delete
  (st : State) (l : list Student.t) (n : nat) (r : Student.t) :
  students st = ofList l ++ repeat Hole n ++ [Elem r] ->
  (0 < n)%nat ->
  (forall j,
     Z.of_nat (List.length l) <= j < Z.of_nat (List.length l) + Z.of_nat n ->
     j < Z.of_nat (List.length (students st))
     /\ reducer st (EDIT_STUDENT j) = Throws)
  /\ (forall k,
        k < 0 \/ Z.of_nat (List.length (students st)) <= k ->
        exists st',
          reducer st (DELETE_STUDENT k) = Returns st'
          /\ students st' = ofList (l ++ [r])
          /\ (List.length (students st') < List.length (students st))%nat).
Proof.
  intros Hs Hn.
  assert (Hlen : List.length (students st) = (List.length l + n + 1)%nat).
  { rewrite Hs, !length_app, repeat_length, length_ofList. cbn. lia. }
  split.
  - intros j Hj. split; [lia |].
    cbn [reducer]. rewrite Hs, get_hole by (rewrite length_ofList; exact Hj).
    reflexivity.
  - intros k Hk. eexists. split; [reflexivity |].
    cbn [students]. unfold filter.
    rewrite Hs, !filterFrom_app, filterFrom_holes, length_ofList, repeat_length.
    rewrite filterFrom_ofList_miss by lia.
    cbn [filterFrom slotValue app].
    destruct (Z.eqb_spec (0 + Z.of_nat (List.length l) + Z.of_nat n) k) as [E | _];
      [lia |].
    cbn [negb]. rewrite ofList_app. split; [reflexivity |].
    rewrite !length_app, repeat_length, !length_ofList. cbn [List.length]. lia.
Qed.

Lemma holes_defeat_edit_and_delete_witness :
  reducer
    (mkState EmptyString EmptyString emptyMarks
       [Elem Samples.studentC; Hole; Elem Samples.studentE] None
       EmptyString "name")
    (EDIT_STUDENT 1) = Throws
  /\ exists st',
       reducer
         (mkState EmptyString EmptyString emptyMarks
            [Elem Samples.studentC; Hole; Elem Samples.studentE] None
            EmptyString "name")
         (DELETE_STUDENT 7) = Returns st'
       /\ students st' = ofList [Samples.studentC; Samples.studentE].
Proof.
  destruct (@holes_defeat_edit_and_delete
              (mkState EmptyString EmptyString emptyMarks
                 [Elem Samples.studentC; Hole; Elem Samples.studentE] None
                 EmptyString "name")
              [Samples.studentC] 1 Samples.studentE eq_refl)
    as [H1 H2].
  - lia.
  - split.
    + apply (H1 1). cbn. lia.
    + destruct (H2 7) as [st' [H3 [H4 _]]]; [cbn; lia |].
      exists st'. split; [exact H3 | exact H4].
Defined.

(** ** Sorting by division *)

Lemma divisionOrder_unknown (d : string) :
  ~ In d divisionLabels -> divisionOrder d = None.
Proof.
  intros H. unfold divisionOrder, divisionLabels in *. cbn [In] in H.
  destruct (String.eqb_spec d "First Division"); [exfalso; apply H; auto |].
  destruct (String.eqb_spec d "Second Division"); [exfalso; apply H; auto |].
  destruct (String.eqb_spec d "Pass"); [exfalso; apply H; auto |].
  destruct (String.eqb_spec d "Fail"); [exfalso; apply H; auto |].
  reflexivity.
Qed.

Lemma sub_NaN_r (x : number) : sub x NaN = NaN.
Proof. destruct x; reflexivity. Qed.

(** [divisionOrder] has a rank, 1 to 4, for every division [getDivision]
    can return, so the sort by division compares two records of the form
    by a whole difference of ranks; for a division outside the four labels
    the comparator is [NaN] on either side. *)
Theorem divisionOrder_ranks_every_division {host : Host} :
  (forall v,
     divisionOrder (getDivision v)
     = Some (Fin (inject_Z (divisionRank (getDivision v))))
     /\ 1 <= divisionRank (getDivision v) <= 4)
  /\ (forall v w a b,
        Student.division (student a) = getDivision v ->
        Student.division (student b) = getDivision w ->
        compareRows "division" a b
        = Fin (inject_Z (divisionRank (getDivision v)
                         - divisionRank (getDivision w))))
  /\ (forall a b,
        ~ In (Student.division (student a)) divisionLabels ->
        compareRows "division" a b = NaN
        /\ compareRows "division" b a = NaN).
Proof.
  assert (Hrank : forall v,
            divisionOrder (getDivision v)
            = Some (Fin (inject_Z (divisionRank (getDivision v))))
            /\ 1 <= divisionRank (getDivision v) <= 4).
  { intros v. unfold getDivision.
    destruct (ge _ (Fin 60)); [split; [reflexivity | cbn; lia] |].
    destruct (ge _ (Fin 50)); [split; [reflexivity | cbn; lia] |].
    destruct (ge _ (Fin 35)); split; try reflexivity; cbn; lia. }
  split; [exact Hrank |]. split.
  - intros v w a b Ha Hb. unfold compareRows.
    cbn [String.eqb Ascii.eqb Bool.eqb]. rewrite Ha, Hb.
    unfold getDivision.
    destruct (ge (ToNumber v) (Fin 60)), (ge (ToNumber v) (Fin 50)),
      (ge (ToNumber v) (Fin 35)), (ge (ToNumber w) (Fin 60)),
      (ge (ToNumber w) (Fin 50)), (ge (ToNumber w) (Fin 35));
      vm_compute; reflexivity.
  - intros a b Ha. unfold compareRows. cbn [String.eqb Ascii.eqb Bool.eqb].
    rewrite (divisionOrder_unknown Ha). cbn [orNaN].
    split; [reflexivity | apply sub_NaN_r].
Qed.

Lemma divisionOrder_ranks_every_division_witness :
  compareRows (host := codeUnitHost) "division"
    (mkRow Samples.studentB 1) (mkRow Samples.studentA 0)
  = Fin (inject_Z (3 - 1)).
Proof.
  exact (proj1 (proj2 (@divisionOrder_ranks_every_division codeUnitHost))
           (VString "40.00") (VString "80.00")
           (mkRow Samples.studentB 1) (mkRow Samples.studentA 0)
           eq_refl eq_refl).
Defined.

(** ** A mark that is missing *)

Lemma obtainedFrom_NaN (marks : array number) : obtainedFrom NaN marks = NaN.
Proof.
  unfold obtainedFrom.
  induction marks as [|[| |x] r IH]; cbn [reduce slotValue orNaN add];
    try exact IH; reflexivity.
Qed.

Lemma add_NaN_r (x : number) : add x NaN = NaN.
Proof. destruct x; reflexivity. Qed.

(** [calculatePercentage] does not check its marks: one mark that is
    [undefined] or [NaN] makes the sum [NaN], and the result is the string
    ["NaN"], for which [getDivision] says ["Fail"]; holes are passed over;
    without any mark the result is ["0.00"]. *)
Theorem calculatePercentage_of_a_missing_mark :
  (forall marks : array number,
     In Undefined marks \/ In (Elem NaN) marks ->
     calculatePercentage marks = "NaN"%string
     /\ getDivision (VString (calculatePercentage marks)) = "Fail"%string)
  /\ (forall (marks : array number) (n : nat),
        calculatePercentage (repeat Hole n ++ marks)
        = calculatePercentage marks)
  /\ calculatePercentage [] = "0.00"%string.
Proof.
  split; [| split; [| vm_compute; reflexivity]].
  - intros marks Hin.
    assert (Hsum : forall acc, obtainedFrom acc marks = NaN).
    { induction marks as [|s r IH]; intros acc; [destruct Hin as [[] | []] |].
      destruct s as [| |x].
      - apply IH. destruct Hin as [[H | H] | [H | H]];
          try discriminate; tauto.
      - change (obtainedFrom acc (Undefined :: r))
          with (obtainedFrom (add acc NaN) r).
        rewrite add_NaN_r. apply obtainedFrom_NaN.
      - change (obtainedFrom acc (Elem x :: r))
          with (obtainedFrom (add acc x) r).
        destruct Hin as [[H | H] | [H | H]]; try discriminate.
        + apply IH. tauto.
        + inversion H. subst x. rewrite add_NaN_r. apply obtainedFrom_NaN.
        + apply IH. tauto. }
    assert (Hp : calculatePercentage marks = "NaN"%string).
    { rewrite calculatePercentage_unfold. unfold percentValue.
      rewrite Hsum. reflexivity. }
    rewrite Hp. split; [reflexivity | vm_compute; reflexivity].
  - intros marks n. unfold calculatePercentage.
    induction n as [|n IH]; [reflexivity | exact IH].
Qed.

Lemma calculatePercentage_of_a_missing_mark_witness :
  calculatePercentage [Elem (Fin 80); Undefined; Elem (Fin 70)]
  = "NaN"%string.
Proof.
  apply (proj1 calculatePercentage_of_a_missing_mark).
  left. right. left. reflexivity.
Defined.

(** * Lists with holes

    The list of a state can hold a hole or [undefined] at an index: a
    saved edit whose index has left the list leaves a hole, the next copy
    of the list turns it into [undefined], and the page reaches both. The
    transitions and the view are therefore described for every list, with
    what they do on a list of records as a part. *)

(** ** Deleting from a list with holes *)


Lemma compact_no_hole {A} (arr : array A) :
  ~ In Hole arr -> compact arr = arr.
Proof.
  unfold compact. induction arr as [|s r IH]; [reflexivity |].
  intros H. cbn [List.filter].
  destruct s; cbn [isHole negb];
    try (f_equal; apply IH; intros Hr; apply H; right; exact Hr).
  exfalso. apply H. left. reflexivity.
Qed.

Lemma filterFrom_miss {A} (i k : Z) (arr : array A) :
  i < k -> filterFrom (fun _ j => negb (j =? i)) k arr = compact arr.
Proof.
  unfold compact. revert k. induction arr as [|s r IH]; intros k Hk;
    [reflexivity |].
  destruct s; cbn [filterFrom slotValue List.filter isHole negb].
  - apply IH. lia.
  - destruct (Z.eqb_spec k i); [lia |]. cbn [negb]. f_equal. apply IH. lia.
  - destruct (Z.eqb_spec k i); [lia |]. cbn [negb]. f_equal. apply IH. lia.
Qed.

Lemma filterFrom_removeAt {A} (i k : Z) (arr : array A) :
  k <= i ->
  filterFrom (fun _ j => negb (j =? i)) k arr
  = compact (removeAt (Z.to_nat (i - k)) arr).
Proof.
  revert k. induction arr as [|s r IH]; intros k Hk.
  - unfold removeAt. rewrite firstn_nil, skipn_nil. reflexivity.
  - destruct (Z.eq_dec k i) as [-> | Hne].
    + rewrite Z.sub_diag. change (removeAt (Z.to_nat 0) (s :: r)) with r.
      destruct s; cbn [filterFrom slotValue]; rewrite ?Z.eqb_refl;
        cbn [negb]; apply filterFrom_miss; lia.
    + replace (Z.to_nat (i - k)) with (S (Z.to_nat (i - (k + 1)))) by lia.
      change (removeAt (S (Z.to_nat (i - (k + 1)))) (s :: r))
        with (s :: removeAt (Z.to_nat (i - (k + 1))) r).
      unfold compact. cbn [List.filter].
      destruct s; cbn [filterFrom slotValue isHole negb].
      * apply IH. lia.
      * destruct (Z.eqb_spec k i); [lia |]. cbn [negb]. f_equal. apply IH. lia.
      * destruct (Z.eqb_spec k i); [lia |]. cbn [negb]. f_equal. apply IH. lia.
Qed.








(** C10, as amended. For every state and every index outside the list,
    negative or at least the length, [DELETE_STUDENT(index)] returns
    without an error, and the list it leaves holds the entries that are
    not holes, in order; nothing else in the state changes. On a list
    without a hole, so on every list of records, the state is returned as
    it was. *)
Theorem delete_student_out_of_range (st : State) (index : Z) :
  index < 0 \/ Z.of_nat (List.length (students st)) <= index ->
  (exists st',
     reducer st (DELETE_STUDENT index) = Returns st' /\
     students st' = compact (students st) /\
     name st' = name st /\ age st' = age st /\ marks st' = marks st /\
     editIndex st' = editIndex st /\
     searchTerm st' = searchTerm st /\ sortKey st' = sortKey st) /\
  (~ In Hole (students st) ->
   reducer st (DELETE_STUDENT index) = Returns st) /\
  (forall l,
     students st = ofList l ->
     reducer st (DELETE_STUDENT index) = Returns st /\
     (forall st', reducer st (DELETE_STUDENT index) = Returns st' ->
                  students st' = ofList l)).
Proof.
  intros Hout.
  assert (Hlist : filter (fun _ j => negb (j =? index)) (students st)
                  = compact (students st)).
  { unfold filter. destruct Hout as [Hneg | Hbig].
    - apply filterFrom_miss. exact Hneg.
    - rewrite filterFrom_removeAt by lia.
      rewrite removeAt_beyond by lia. reflexivity. }
  assert (Hid : ~ In Hole (students st) ->
                reducer st (DELETE_STUDENT index) = Returns st).
  { intros Hno. cbn [reducer].
    rewrite Hlist, (compact_no_hole _ Hno), state_eta. reflexivity. }
  split; [| split; [exact Hid |]].
  - eexists. split; [reflexivity |].
    cbn [students name age marks editIndex searchTerm sortKey].
    split; [exact Hlist | repeat split].
  - intros l Hl.
    assert (Hred : reducer st (DELETE_STUDENT index) = Returns st).
    { apply Hid. rewrite Hl. unfold ofList. rewrite in_map_iff.
      intros [x [Hx _]]. discriminate. }
    split; [exact Hred |].
    intros st' Hst'. rewrite Hred in Hst'. inversion Hst'; subst. exact Hl.
Qed.

Lemma delete_student_out_of_range_witness :
  reducer (Samples.withStudents Samples.five) (DELETE_STUDENT 5)
  = Returns (Samples.withStudents Samples.five)
  /\ reducer (Samples.withStudents Samples.five) (DELETE_STUDENT (-1))
     = Returns (Samples.withStudents Samples.five).
Proof.
  split.
  - destruct (@delete_student_out_of_range
                (Samples.withStudents Samples.five) 5) as [_ [_ H]].
    + right. change (5 <= 5). lia.
    + exact (proj1 (H Samples.five eq_refl)).
  - destruct (@delete_student_out_of_range
                (Samples.withStudents Samples.five) (-1)) as [_ [_ H]].
    + left. lia.
    + exact (proj1 (H Samples.five eq_refl)).
Defined.

(** C10, as stated, fails on a list with a hole, which the page reaches:
    after [holeScript], [DELETE_STUDENT(7)], far outside the list, leaves
    a list of two entries where there were three: the hole is gone and the
    record behind it has moved from index 2 to index 1. *)
Lemma delete_student_out_of_range_drops_the_holes :
  exists st st',
    run (host := codeUnitHost) initialState holeScript = Some (Returns st)
    /\ students st = [Elem Samples.studentC; Hole; Elem Samples.studentC]
    /\ reducer st (DELETE_STUDENT 7) = Returns st'
    /\ students st' = [Elem Samples.studentC; Elem Samples.studentC]
    /\ students st' <> students st
    /\ get (students st) 2 = Some Samples.studentC
    /\ get (students st') 2 = None.
Proof.
  do 2 eexists. split; [vm_compute; reflexivity |].
  split; [reflexivity |]. split; [reflexivity |].
  split; [reflexivity |]. split; [discriminate |].
  split; reflexivity.
Qed.

(** ** Writing at an index of a list with holes *)

Lemma length_replaceAt {A} (arr : array A) (n : nat) (v : A) :
  List.length (replaceAt arr n v) = List.length arr.
Proof.
  revert n. induction arr as [|s r IH]; intros [|n]; cbn; try reflexivity.
  rewrite IH. reflexivity.
Qed.

Lemma nth_error_replaceAt_same {A} (arr : array A) (n : nat) (v : A) :
  (n < List.length arr)%nat -> nth_error (replaceAt arr n v) n = Some (Elem v).
Proof.
  revert n. induction arr as [|s r IH]; intros [|n] Hn; cbn in *;
    try lia; [reflexivity |].
  apply IH. lia.
Qed.

Lemma nth_error_replaceAt_other {A} (arr : array A) (n m : nat) (v : A) :
  m <> n -> nth_error (replaceAt arr n v) m = nth_error arr m.
Proof.
  revert n m. induction arr as [|s r IH]; intros [|n] [|m] Hm; cbn;
    try reflexivity; try lia.
  apply IH. lia.
Qed.

Lemma get_Some_lt {A} (arr : array A) (i : Z) (a : A) :
  get arr i = Some a -> 0 <= i < Z.of_nat (List.length arr).
Proof.
  unfold get. destruct (Z.ltb_spec i 0); [discriminate |].
  destruct (nth_error arr (Z.to_nat i)) eqn:E; [| discriminate].
  intros _. assert (Z.to_nat i < List.length arr)%nat
    by (apply nth_error_Some; congruence).
  lia.
Qed.

Lemma set_inside {A} (arr : array A) (i : Z) (v : A) :
  0 <= i < Z.of_nat (List.length arr) ->
  Z.of_nat (List.length arr) <= maxLength ->
  set arr i v = replaceAt arr (Z.to_nat i) v.
Proof.
  intros Hi Hmax. unfold set.
  destruct (Z.ltb_spec i 0); [lia |].
  destruct (Z.leb_spec maxLength i); [lia |]. cbn [orb].
  destruct (Z.ltb_spec i (Z.of_nat (List.length arr))); [reflexivity | lia].
Qed.

Lemma get_replaceAt_same {A} (arr : array A) (i : Z) (v : A) :
  0 <= i < Z.of_nat (List.length arr) ->
  get (replaceAt arr (Z.to_nat i) v) i = Some v.
Proof.
  intros Hi. unfold get. destruct (Z.ltb_spec i 0); [lia |].
  rewrite nth_error_replaceAt_same by lia. reflexivity.
Qed.

Lemma get_replaceAt_other {A} (arr : array A) (i j : Z) (v : A) :
  0 <= i -> j <> i -> get (replaceAt arr (Z.to_nat i) v) j = get arr j.
Proof.
  intros Hi Hj. unfold get. destruct (Z.ltb_spec j 0); [reflexivity |].
  rewrite nth_error_replaceAt_other by lia. reflexivity.
Qed.

(** C8, as amended. For every state whose list is no longer than an array
    can be, every index [i] at which the list holds a record, and every
    record [r]: [EDIT_STUDENT(i)] returns and sets [editIndex] to [i], and
    [UPDATE_STUDENT(r)] after it leaves a list of the same length that
    holds [r] at [i] and reads at every other index as the original list
    does; [editIndex] is [null] again and the draft is empty. On a list of
    records, where every index below the length holds one, it is the list
    with [r] in the place of the record at [i]. *)
Theorem edit_then_update_replaces_entry
  (st : State) (i : Z) (s r : Student.t) :
  get (students st) i = Some s ->
  Z.of_nat (List.length (students st)) <= maxLength ->
  exists st1 st2,
    reducer st (EDIT_STUDENT i) = Returns st1 /\
    editIndex st1 = Some i /\
    students st1 = students st /\
    reducer st1 (UPDATE_STUDENT r) = Returns st2 /\
    0 <= i < Z.of_nat (List.length (students st)) /\
    List.length (students st2) = List.length (students st) /\
    get (students st2) i = Some r /\
    (forall j, j <> i -> get (students st2) j = get (students st) j) /\
    editIndex st2 = None /\
    name st2 = EmptyString /\ age st2 = EmptyString /\
    marks st2 =
      ofList [EmptyString; EmptyString; EmptyString; EmptyString; EmptyString] /\
    searchTerm st2 = searchTerm st /\ sortKey st2 = sortKey st /\
    (forall l,
       students st = ofList l ->
       0 <= i < Z.of_nat (List.length l) /\
       students st2 = ofList (replaceNth (Z.to_nat i) r l) /\
       List.length (students st2) = List.length l).
Proof.
  intros Hs Hmax. pose proof (get_Some_lt _ _ Hs) as Hi.
  assert (Hi' : 0 <= i < Z.of_nat (List.length (spread (students st))))
    by (rewrite length_spread; exact Hi).
  assert (Hmax' : Z.of_nat (List.length (spread (students st))) <= maxLength)
    by (rewrite length_spread; exact Hmax).
  do 2 eexists. split; [cbn [reducer]; rewrite Hs; reflexivity |].
  split; [reflexivity |]. split; [reflexivity |]. split; [reflexivity |].
  cbn [students editIndex name age marks searchTerm sortKey setKey].
  split; [exact Hi |].
  rewrite set_inside by assumption.
  split; [rewrite length_replaceAt; apply length_spread |].
  split; [apply get_replaceAt_same; exact Hi' |].
  split.
  { intros j Hj. rewrite get_replaceAt_other by lia. apply get_spread. }
  do 6 (split; [reflexivity |]).
  intros l Hl. rewrite Hl in *. rewrite length_ofList in Hi.
  split; [exact Hi |].
  rewrite spread_ofList. rewrite replaceAt_ofList by lia.
  split; [reflexivity |].
  rewrite length_ofList. apply length_replaceNth. lia.
Qed.

Lemma edit_then_update_replaces_entry_witness :
  exists st1 st2,
    reducer (Samples.withStudents Samples.five) (EDIT_STUDENT 1) = Returns st1 /\
    reducer st1 (UPDATE_STUDENT Samples.studentE) = Returns st2 /\
    students st2 =
      ofList [Samples.studentA; Samples.studentE; Samples.studentC;
              Samples.studentD; Samples.studentE] /\
    editIndex st2 = None.
Proof.
  destruct (@edit_then_update_replaces_entry
              (Samples.withStudents Samples.five) 1 Samples.studentB
              Samples.studentE eq_refl)
    as [st1 [st2 [H1 [_ [_ [H2 [_ [_ [_ [_ [H4 [_ [_ [_ [_ [_ Hl]]]]]]]]]]]]]]]].
  - change (5 <= maxLength). unfold maxLength. lia.
  - destruct (Hl Samples.five eq_refl) as [_ [H3 _]].
    exists st1, st2. repeat split; assumption.
Defined.

(** C8, as stated, fails at an index of the list that holds no record:
    after [holeScript], which the page reaches, index 1 is below the
    length 3 and [EDIT_STUDENT(1)] throws, reading [name] of [undefined],
    so there is no list with [r] at index 1. *)
Lemma edit_student_at_a_hole_throws :
  exists st,
    run (host := codeUnitHost) initialState holeScript = Some (Returns st)
    /\ students st = [Elem Samples.studentC; Hole; Elem Samples.studentC]
    /\ 0 <= 1 < Z.of_nat (List.length (students st))
    /\ reducer st (EDIT_STUDENT 1) = Throws.
Proof.
  eexists. split; [vm_compute; reflexivity |].
  split; [reflexivity |].
  split; [vm_compute; split; [discriminate | reflexivity] | reflexivity].
Qed.

(** ** The reducer on objects, on every list *)

(** C1, as amended. For every state object and every dispatched action,
    recognized or not: the reducer returns unless the action is
    [EDIT_STUDENT] with an index that names no record of the list, and
    then it throws. An index in [0, len) names a record on a list of
    records, not on every list. When it returns, the heap it leaves is the
    heap it found with new objects added after it, so the previous state
    object and its arrays read exactly as before; the object it returns
    stands for the state the transition function gives; for a recognized
    action that object is a new one, for any other action it is the state
    object itself. *)
Theorem reducer_total_without_mutation
  (h : Heap.heap) (state : Heap.loc) (action : Heap.Action)
  (st : State) (a : Action) :
  stateAt h state = Some st ->
  actionAt h action = Some a ->
  (precondition st a ->
   exists (state' : Heap.loc) (h' : Heap.heap) (st' : State),
     Heap.reducer state action h = Returns (state', h') /\
     reducer st a = Returns st' /\
     (exists added, h' = h ++ added) /\
     stateAt h' state = Some st /\
     stateAt h' state' = Some st' /\
     (if recognized a then (List.length h <= state')%nat else state' = state))
  /\ (~ precondition st a ->
      Heap.reducer state action h = Throws /\ reducer st a = Throws)
  /\ (forall l index,
        a = EDIT_STUDENT index -> students st = ofList l ->
        0 <= index < Z.of_nat (List.length l) ->
        precondition st a).
Proof.
  intros Hst Hact.
  destruct (stateAt_inv _ _ Hst) as [s [ms [ss [Hs [Hms [Hss Heq]]]]]].
  assert (Hold : forall added, stateAt (h ++ added) state = Some st)
    by (intros; apply stateAt_extend; exact Hst).
  split; [| split].
  - intros Hpre.
    destruct action as [f v | i v | p | r | r | i | i | t];
      cbn [actionAt] in Hact.
    + (* SET_FIELD *)
      inversion Hact; subst a; clear Hact.
      heap_step.
      do 3 eexists. split; [reflexivity |]. split; [reflexivity |].
      split; [eexists; reflexivity |]. split; [apply Hold |].
      split; [| cbn; lia].
      rewrite Heq. destruct f; state_read.
    + (* SET_MARK *)
      inversion Hact; subst a; clear Hact.
      heap_step.
      do 3 eexists. split; [reflexivity |]. split; [reflexivity |].
      split; [eexists; reflexivity |]. split; [apply Hold |].
      split; [| cbn; lia].
      rewrite Heq. state_read.
    + (* SET_STUDENTS *)
      destruct (nth_error h p) as [[| | ps] |] eqn:Hp; try discriminate.
      inversion Hact; subst a; clear Hact.
      heap_step.
      do 3 eexists. split; [reflexivity |]. split; [reflexivity |].
      split; [eexists; reflexivity |]. split; [apply Hold |].
      split; [| cbn; lia].
      rewrite Heq. state_read.
    + (* ADD_STUDENT *)
      inversion Hact; subst a; clear Hact.
      heap_step.
      do 3 eexists. split; [reflexivity |]. split; [reflexivity |].
      split; [eexists; reflexivity |]. split; [apply Hold |].
      split; [| cbn; lia].
      rewrite Heq. state_read.
    + (* UPDATE_STUDENT *)
      inversion Hact; subst a; clear Hact.
      heap_step.
      do 3 eexists. split; [reflexivity |]. split; [reflexivity |].
      split; [eexists; reflexivity |]. split; [apply Hold |].
      split; [| cbn; lia].
      rewrite Heq. state_read.
    + (* DELETE_STUDENT *)
      inversion Hact; subst a; clear Hact.
      heap_step.
      do 3 eexists. split; [reflexivity |]. split; [reflexivity |].
      split; [eexists; reflexivity |]. split; [apply Hold |].
      split; [| cbn; lia].
      rewrite Heq. state_read.
    + (* EDIT_STUDENT *)
      inversion Hact; subst a; clear Hact.
      destruct Hpre as [student Hget].
      subst st. cbn [students] in Hget.
      heap_step. rewrite Hget. heap_step.
      do 3 eexists. split; [reflexivity |].
      split; [cbn [reducer students]; rewrite Hget; reflexivity |].
      split; [eexists; reflexivity |]. split; [apply Hold |].
      split; [| cbn; lia].
      state_read.
    + (* an action the reducer does not recognize *)
      inversion Hact; subst a; clear Hact.
      heap_step.
      exists state, h, st. split; [reflexivity |]. split; [reflexivity |].
      split; [exists []; symmetry; apply app_nil_r |].
      repeat split; assumption.
  - intros Hnot.
    destruct action as [f v | i v | p | r | r | i | i | t];
      cbn [actionAt] in Hact;
      try (inversion Hact; subst a; exfalso; apply Hnot; exact I).
    + destruct (nth_error h p) as [[| | ps] |]; try discriminate.
      inversion Hact; subst a. exfalso. apply Hnot. exact I.
    + inversion Hact; subst a; clear Hact.
      assert (Hget : get ss i = None).
      { destruct (get ss i) as [student|] eqn:E; [| reflexivity].
        exfalso. apply Hnot. exists student. subst st. exact E. }
      heap_step. rewrite Hget. split; [reflexivity |].
      subst st. cbn [reducer students]. rewrite Hget. reflexivity.
  - intros l index -> Hl Hi. cbn [precondition]. rewrite Hl.
    rewrite get_ofList by lia.
    destruct (nth_error l (Z.to_nat index)) as [x|] eqn:Hn; [eauto |].
    apply nth_error_None in Hn. lia.
Qed.

Lemma reducer_total_without_mutation_witness :
  exists (state' : Heap.loc) (h' : Heap.heap) (st' : State),
    Heap.reducer 2%nat (Heap.EDIT_STUDENT 1) sampleHeap = Returns (state', h') /\
    reducer (Samples.withStudents Samples.five) (EDIT_STUDENT 1) = Returns st' /\
    (exists added, h' = sampleHeap ++ added) /\
    stateAt h' 2%nat = Some (Samples.withStudents Samples.five) /\
    stateAt h' state' = Some st'.
Proof.
  destruct (@reducer_total_without_mutation sampleHeap 2%nat
              (Heap.EDIT_STUDENT 1) (Samples.withStudents Samples.five)
              (EDIT_STUDENT 1) eq_refl eq_refl)
    as [H _].
  destruct H as [state' [h' [st' [H1 [H2 [H3 [H4 [H5 _]]]]]]]].
  - exists Samples.studentB. reflexivity.
  - exists state', h', st'. repeat split; assumption.
Defined.

(** C1, as stated, fails twice. For an action the reducer does not
    recognize, the reference it returns is the state object it was given,
    not a new aggregate, and nothing is allocated. And a transition
    throws within the table's precondition: after [holeScript], which the
    page reaches, index 1 is in [0, len) and [EDIT_STUDENT(1)] throws, on
    the state and on the heap that holds it. *)
Lemma reducer_returns_the_state_object_or_throws :
  Heap.reducer 2%nat (Heap.OTHER "RESET") sampleHeap
  = Returns (2%nat, sampleHeap)
  /\ exists st,
       run (host := codeUnitHost) initialState holeScript = Some (Returns st)
       /\ students st = [Elem Samples.studentC; Hole; Elem Samples.studentC]
       /\ 0 <= 1 < Z.of_nat (List.length (students st))
       /\ reducer st (EDIT_STUDENT 1) = Throws
       /\ stateAt (heapOf st) 2%nat = Some st
       /\ Heap.reducer 2%nat (Heap.EDIT_STUDENT 1) (heapOf st) = Throws.
Proof.
  split; [reflexivity |].
  eexists. split; [vm_compute; reflexivity |].
  split; [reflexivity |].
  split; [vm_compute; split; [discriminate | reflexivity] |].
  split; [reflexivity |]. split; reflexivity.
Qed.

(** ** The rows of a list with holes *)

Lemma rowsOf_ofList (k : Z) (l : list Student.t) :
  rowsOf k (ofList l) = rowsFrom k l.
Proof.
  revert k. unfold ofList. induction l as [|s l IH]; intros k; [reflexivity |].
  cbn [List.map rowsOf rowsFrom]. rewrite IH. reflexivity.
Qed.

Lemma In_rowsOf (k : Z) (arr : array Student.t) (row : Row) :
  In row (rowsOf k arr) <->
  exists i, nth_error arr i = Some (Elem (student row))
            /\ originalIndex row = k + Z.of_nat i.
Proof.
  revert k. induction arr as [|s r IH]; intros k.
  - cbn [rowsOf In]. split; [intros [] | intros [[|i] [H _]]; discriminate].
  - assert (Hskip : (exists i, nth_error r i = Some (Elem (student row))
                               /\ originalIndex row = k + 1 + Z.of_nat i)
                    -> exists i, nth_error (s :: r) i = Some (Elem (student row))
                                 /\ originalIndex row = k + Z.of_nat i).
    { intros [i [H1 H2]]. exists (S i). cbn [nth_error].
      split; [exact H1 | lia]. }
    assert (Hrest : forall i,
               nth_error (s :: r) (S i) = Some (Elem (student row)) ->
               originalIndex row = k + Z.of_nat (S i) ->
               exists j, nth_error r j = Some (Elem (student row))
                         /\ originalIndex row = k + 1 + Z.of_nat j).
    { intros i H1 H2. exists i. cbn [nth_error] in H1.
      split; [exact H1 | lia]. }
    destruct s as [| |x]; cbn [rowsOf In]; rewrite ?IH.
    + split; [exact Hskip |].
      intros [[|i] [H1 H2]]; [discriminate | eauto].
    + split; [exact Hskip |].
      intros [[|i] [H1 H2]]; [discriminate | eauto].
    + split.
      * intros [<- | H]; [| exact (Hskip H)].
        exists 0%nat. cbn. split; [reflexivity | lia].
      * intros [[|i] [H1 H2]]; [| right; eauto].
        left. cbn in H1. inversion H1. destruct row; cbn in *.
        f_equal. lia.
Qed.

Lemma rowsOf_increasing (k : Z) (arr : array Student.t) :
  StronglySorted (fun a b => originalIndex a < originalIndex b) (rowsOf k arr)
  /\ Forall (fun row => k <= originalIndex row) (rowsOf k arr).
Proof.
  revert k. induction arr as [|s r IH]; intros k.
  - split; constructor.
  - destruct (IH (k + 1)) as [IH1 IH2].
    assert (Hle : Forall (fun row => k <= originalIndex row) (rowsOf (k + 1) r))
      by (eapply Forall_impl; [| exact IH2]; cbn; intros; lia).
    destruct s as [| |x]; cbn [rowsOf]; try (split; assumption).
    split.
    + constructor; [exact IH1 |].
      eapply Forall_impl; [| exact IH2]. cbn. intros; lia.
    + constructor; [cbn; lia | exact Hle].
Qed.

(** On a list without [undefined] the first two stages give the rows of
    the records that match, in list order. *)
Lemma filterRows_rowsOf (term : string) (arr : array Student.t) (k : Z) :
  ~ In Undefined arr ->
  filterRows term (mapFrom (fun s i => (s, i)) k arr)
  = Returns (List.filter (matches term) (rowsOf k arr)).
Proof.
  revert k. induction arr as [|s r IH]; intros k Hno; [reflexivity |].
  assert (Hr : ~ In Undefined r) by (intros H; apply Hno; right; exact H).
  destruct s as [| |x]; cbn [mapFrom slotValue filterRows rowsOf List.filter].
  - apply IH. exact Hr.
  - exfalso. apply Hno. left. reflexivity.
  - rewrite (IH (k + 1) Hr). unfold matches at 2. cbn [student]. reflexivity.
Qed.

(** ** The view pipeline on objects *)

Lemma update_new (h : HeapView.heap) (o o' : HeapView.object) :
  HeapView.update (h ++ [o]) (List.length h) o' = h ++ [o'].
Proof. induction h as [|x h IH]; cbn; [reflexivity | rewrite IH; reflexivity]. Qed.

Lemma viewHeap_read (h : Heap.heap) (l : nat) (o : Heap.object) :
  nth_error h l = Some o ->
  nth_error (viewHeap h) l = Some (HeapView.Of o).
Proof.
  intros H. unfold viewHeap. rewrite nth_error_map, H. reflexivity.
Qed.

(** The pipeline on objects gives the rows of [filteredSortedData] in a
    new array and leaves every object it found in place. *)
Lemma view_on_objects {host : Host}
  (h : Heap.heap) (state : Heap.loc) (st : State) :
  stateAt h state = Some st ->
  HeapView.filteredSortedData state (viewHeap h)
  = match filteredSortedData st with
    | Returns rows =>
        Returns (S (List.length h),
                 viewHeap h
                 ++ [HeapView.AnnotatedArray (annotate (students st));
                     HeapView.RowArray rows])
    | Throws => Throws
    end.
Proof.
  intros Hst.
  destruct (stateAt_inv _ _ Hst) as [s [ms [ss [Hs [Hms [Hss ->]]]]]].
  assert (Hlen : List.length (viewHeap h) = List.length h)
    by (unfold viewHeap; apply length_map).
  unfold HeapView.filteredSortedData, HeapView.bind, HeapView.getState,
    HeapView.getStudents, HeapView.new, HeapView.getAnnotated.
  rewrite (@viewHeap_read _ _ _ Hs), (@viewHeap_read _ _ _ Hss), nth_error_app_new.
  unfold filteredSortedData. cbn [students searchTerm sortKey].
  destruct (filterRows (Heap.searchTerm s) (annotate ss)) as [kept|];
    [| reflexivity].
  unfold HeapView.getRows, HeapView.put, HeapView.ret.
  rewrite nth_error_app_new, update_new.
  rewrite length_app, Hlen. cbn [List.length].
  rewrite <- app_assoc. cbn [app].
  replace (List.length h + 1)%nat with (S (List.length h)) by lia.
  reflexivity.
Qed.

(** ** The view, for every list *)

(** C9, as amended. Deriving the view gives rows exactly for a list that
    holds no [undefined]; for a list that holds one it throws. For a list
    without [undefined] whose records are well formed, a host whose
    collation is a consistent comparator, every search term and every sort
    key: the displayed rows are the records of the list paired with their
    index in the list, holes passed over, restricted to those whose
    lower-cased name includes the lower-cased search term (all of them for
    the empty term), in display order: ascending in the collation for the
    key ["name"], ascending in division rank for ["division"], descending
    in percentage for any other key, equal keys in list order. The list of
    the state is not written: on objects, the pipeline leaves the heap it
    found with two arrays added, the annotated copy and the array of rows
    that [filter] built and [sort] ordered. With the students A
    (["80.00"]) and B (["40.00"]), sorting by percentage gives [A, B] and
    searching ["b"] gives [B]. *)
Theorem filteredSortedData_reference :
  (forall (host : Host), LawfulHost host ->
   forall st : State,
     ~ In Undefined (students st) ->
     (forall s, In (Elem s) (students st) -> wellFormed s) ->
     exists rows,
       filteredSortedData st = Returns rows /\
       Permutation rows
         (List.filter (matches (searchTerm st)) (rowsOf 0 (students st))) /\
       (forall row,
          In row rows <->
          exists i,
            nth_error (students st) i = Some (Elem (student row)) /\
            originalIndex row = Z.of_nat i /\
            exists pre post,
              toLowerCase (Student.name (student row))
              = (pre ++ toLowerCase (searchTerm st) ++ post)%string) /\
       (searchTerm st = EmptyString ->
        Permutation rows (rowsOf 0 (students st))) /\
       StronglySorted (before (displayOrder (sortKey st))) rows /\
       (forall l,
          students st = ofList l ->
          Permutation rows
            (List.filter (matches (searchTerm st)) (rowsFrom 0 l)) /\
          (forall row,
             In row rows <->
             exists i,
               nth_error l i = Some (student row) /\
               originalIndex row = Z.of_nat i /\
               exists pre post,
                 toLowerCase (Student.name (student row))
                 = (pre ++ toLowerCase (searchTerm st) ++ post)%string) /\
          (searchTerm st = EmptyString ->
           List.length rows = List.length l))) /\
  (forall (host : Host) (st : State),
     In Undefined (students st) -> filteredSortedData st = Throws) /\
  (forall (host : Host) (h : Heap.heap) (state : Heap.loc) (st : State),
     stateAt h state = Some st ->
     match filteredSortedData st with
     | Returns rows =>
         HeapView.filteredSortedData state (viewHeap h)
         = Returns (S (List.length h),
                    viewHeap h
                    ++ [HeapView.AnnotatedArray (annotate (students st));
                        HeapView.RowArray rows])
     | Throws => HeapView.filteredSortedData state (viewHeap h) = Throws
     end) /\
  (forall host : Host,
     filteredSortedData (stateAB EmptyString "percentage")
     = Returns [mkRow Samples.studentA 0; mkRow Samples.studentB 1]) /\
  (forall host : Host,
     filteredSortedData (stateAB "b" "percentage")
     = Returns [mkRow Samples.studentB 1]).
Proof.
  split; [| split; [| split; [| split; intros host; vm_compute; reflexivity]]].
  - intros host lawful st Hno Hwf.
    unfold filteredSortedData, annotate, map.
    rewrite (@filterRows_rowsOf _ _ 0 Hno).
    set (all := rowsOf 0 (students st)).
    set (kept := List.filter (matches (searchTerm st)) all).
    set (cmp := compareRows (sortKey st)).
    assert (Hperm : Permutation (sort cmp kept) kept) by apply sort_perm.
    assert (Hin : forall row,
               In row kept <->
               exists i,
                 nth_error (students st) i = Some (Elem (student row)) /\
                 originalIndex row = Z.of_nat i /\
                 exists pre post,
                   toLowerCase (Student.name (student row))
                   = (pre ++ toLowerCase (searchTerm st) ++ post)%string).
    { intros row. unfold kept, all. rewrite filter_In, In_rowsOf.
      unfold matches. rewrite includes_iff. split.
      - intros [[i [H1 H2]] H3]. exists i.
        repeat split; [exact H1 | lia | exact H3].
      - intros [i [H1 [H2 H3]]].
        split; [exists i; split; [exact H1 | lia] | exact H3]. }
    assert (Hkept_wf : Forall wellFormedRow kept).
    { apply Forall_forall. intros row Hrow. apply Hin in Hrow.
      destruct Hrow as [i [Hnth _]]. unfold wellFormedRow.
      apply Hwf. eapply nth_error_In. exact Hnth. }
    assert (Hall : searchTerm st = EmptyString -> kept = all).
    { intros Hterm. unfold kept. rewrite Hterm. apply length_filter_all.
      intros row. unfold matches. cbn [toLowerCase]. apply includes_empty. }
    exists (sort cmp kept). split; [reflexivity |].
    split; [exact Hperm |].
    split.
    { intros row. rewrite <- Hin. split; apply Permutation_in;
        [exact Hperm | apply Permutation_sym; exact Hperm]. }
    split.
    { intros Hterm. rewrite <- (Hall Hterm). exact Hperm. }
    split.
    { apply (@sort_sorted cmp wellFormedRow (displayOrder (sortKey st))).
      - intros x y. apply displayOrder_total.
      - intros x y z. apply displayOrder_trans.
      - intros x y. apply after_displayOrder.
      - exact Hkept_wf.
      - unfold kept, all. apply StronglySorted_filter. apply rowsOf_increasing. }
    intros l Hl.
    assert (Hrows : all = rowsFrom 0 l)
      by (unfold all; rewrite Hl; apply rowsOf_ofList).
    assert (Hkept : List.filter (matches (searchTerm st)) (rowsFrom 0 l) = kept)
      by (unfold kept; rewrite Hrows; reflexivity).
    split; [rewrite Hkept; exact Hperm |].
    split.
    { intros row.
      assert (Hsorted : In row (sort cmp kept) <-> In row kept)
        by (split; apply Permutation_in;
            [exact Hperm | apply Permutation_sym; exact Hperm]).
      rewrite Hsorted, Hin, Hl.
      split; intros [i [H1 H2]]; exists i; (split; [| exact H2]).
      - unfold ofList in H1. rewrite nth_error_map in H1.
        destruct (nth_error l i); [| discriminate].
        cbn in H1. inversion H1. reflexivity.
      - unfold ofList. rewrite nth_error_map, H1. reflexivity. }
    intros Hterm. rewrite (Permutation_length Hperm), (Hall Hterm), Hrows.
    apply length_rowsFrom.
  - intros host st Hin. apply filteredSortedData_throws. exact Hin.
  - intros host h state st Hst. rewrite (@view_on_objects _ _ _ _ Hst).
    destruct (filteredSortedData st); reflexivity.
Qed.

Lemma filteredSortedData_reference_witness :
  (exists rows,
     filteredSortedData (stateFive EmptyString "percentage") = Returns rows /\
     Permutation rows (rowsFrom 0 Samples.five) /\
     StronglySorted (before (displayOrder "percentage")) rows /\
     List.map originalIndex rows = [0; 4; 2; 1; 3]) /\
  (exists rows,
     filteredSortedData
       (mkState EmptyString EmptyString emptyMarks
          [Elem Samples.studentC; Hole; Elem Samples.studentA] None
          EmptyString "name")
     = Returns rows /\
     StronglySorted (before (displayOrder "name")) rows /\
     rows = [mkRow Samples.studentA 2; mkRow Samples.studentC 0]).
Proof.
  split.
  - destruct (proj1 filteredSortedData_reference codeUnitHost
                codeUnitHost_lawful (stateFive EmptyString "percentage"))
      as [rows [H1 [_ [_ [H2 [H3 _]]]]]].
    + intros H. unfold stateFive, ofList, Samples.five in H. cbn in H.
      repeat (destruct H as [H | H]; [discriminate H |]). exact H.
    + intros s H. unfold stateFive, ofList, Samples.five in H. cbn in H.
      repeat (destruct H as [H | H];
              [inversion H; split; vm_compute; tauto |]).
      destruct H.
    + exists rows. split; [exact H1 |].
      split; [exact (H2 eq_refl) |]. split; [exact H3 |].
      vm_compute in H1. inversion H1. reflexivity.
  - destruct (proj1 filteredSortedData_reference codeUnitHost
                codeUnitHost_lawful
                (mkState EmptyString EmptyString emptyMarks
                   [Elem Samples.studentC; Hole; Elem Samples.studentA] None
                   EmptyString "name"))
      as [rows [H1 [_ [_ [_ [H3 _]]]]]].
    + intros H. cbn in H.
      repeat (destruct H as [H | H]; [discriminate H |]). exact H.
    + intros s H. cbn in H.
      repeat (destruct H as [H | H];
              [try discriminate H; inversion H; split; vm_compute; tauto |]).
      destruct H.
    + exists rows. split; [exact H1 |]. split; [exact H3 |].
      vm_compute in H1. inversion H1. reflexivity.
Defined.

(** C9, as stated, fails for a list the page reaches: after
    [undefinedScript] (three students added, the third opened for editing,
    the other two deleted, the edit saved, a fourth student added) the
    list holds [undefined] at index 1, and deriving the view throws, so
    nothing is displayed. *)
Lemma view_of_a_reachable_list_throws :
  exists st,
    run (host := codeUnitHost) initialState undefinedScript
    = Some (Returns st)
    /\ List.map slotValue (students st)
       = [Some Samples.studentC; None; Some Samples.studentC;
          Some Samples.studentD]
    /\ List.map isHole (students st) = [false; false; false; false]
    /\ filteredSortedData (host := codeUnitHost) st = Throws.
Proof.
  eexists. split; [vm_compute; reflexivity |].
  split; [reflexivity |]. split; reflexivity.
Qed.
